(** * MCP server manager: a shallow embedding of [backend/mcp_manager.py]

    The development follows the Python module top-down:
    - the Python values the module handles (decoded JSON, [dict], [str]);
    - [MCPServer]: one stdio session with its pending-request table, its
      reader loop and the request/response correlation;
    - [MCPManager]: the registry of sessions, catalogue aggregation and
      routing by qualified tool name;
    - [Main]: the lifecycle hooks and the two endpoints of [backend/main.py]
      that use the manager.

    Coroutines are modelled by explicit state passing.  What the child
    process and the event loop do (lines arriving on stdout, a failing
    [drain()], the [wait_for] timer, the lines read between its firing and
    the resumption of the caller) is an explicit input of every operation,
    so each operation is a total, executable function.  A method
    is first run from its first statement to its return ([MCPServer],
    [MCPManager]); [Loop] then runs the same statements event by event, with
    several calls suspended at once. *)

From Stdlib Require Import String Ascii List ZArith Bool Lia Floats FinFun.
Import ListNotations.
Open Scope string_scope.
Open Scope list_scope.


(** ** Exceptions and results *)

(** The exception classes the module can raise or meet. *)
Inductive exn : Type :=
| Exception (msg : string)          (* raise Exception(...) *)
| FileNotFoundError (msg : string)  (* raise FileNotFoundError(...) *)
| KeyError (key : string)           (* d[key], del d[key] on a missing key *)
| TypeError                         (* subscript / iteration / join on a wrong type *)
| AttributeError                    (* .get / .copy / .items on a value without it *)
| ValueError                        (* unpacking, readline over the stream limit *)
| UnicodeDecodeError                (* bytes.decode() *)
| InvalidStateError                 (* Future.set_result on a settled future *)
| OSError (msg : string).           (* the operating system refuses: spawn, pipe, signal *)

Inductive result (A : Type) : Type :=
| Ok (a : A)
| Raise (e : exn).
Arguments Ok {A} a.
Arguments Raise {A} e.

Definition rbind {A B} (r : result A) (k : A -> result B) : result B :=
  match r with
  | Ok a => k a
  | Raise e => Raise e
  end.

Definition is_ok {A} (r : result A) : bool :=
  match r with Ok _ => true | Raise _ => false end.

(** ** Strings: [in], [split(sep, 1)] *)

Module Str.

(** [drop n s]: the slice [s[n:]]. *)
Fixpoint drop (n : nat) (s : string) : string :=
  match n, s with
  | O, _ => s
  | S _, EmptyString => EmptyString
  | S n', String _ s' => drop n' s'
  end.

(** [partition sep s]: the split of [s] at the first (leftmost) occurrence of
    [sep], when there is one; what [s.split(sep, 1)] unpacks to. *)
Fixpoint partition (sep s : string) : option (string * string) :=
  if prefix sep s then Some (EmptyString, drop (String.length sep) s)
  else match s with
       | EmptyString => None
       | String c s' =>
           match partition sep s' with
           | Some (a, b) => Some (String c a, b)
           | None => None
           end
       end.

(** What "the first occurrence" means: [a] and [b] split [s] at [sep], and no
    split of [s] at [sep] has a shorter left part. *)
Definition first_split (sep s a b : string) : Prop :=
  s = (a ++ sep ++ b)%string /\
  forall a' b', s = (a' ++ sep ++ b')%string -> String.length a <= String.length a'.

(** [sub in s] on two [str]. *)
Definition contains (sub s : string) : bool :=
  match partition sub s with Some _ => true | None => false end.

(** [s.split(sep, 1)]: one element when [sep] does not occur, two otherwise. *)
Definition split1 (sep s : string) : list string :=
  match partition sep s with
  | Some (a, b) => [a; b]
  | None => [s]
  end.

(** [sep.join(parts)] *)
Fixpoint join (sep : string) (parts : list string) : string :=
  match parts with
  | [] => EmptyString
  | [p] => p
  | p :: ps => p ++ sep ++ join sep ps
  end.

(** The characters of a string, one string each: [list(s)]. *)
Fixpoint chars (s : string) : list string :=
  match s with
  | EmptyString => []
  | String c s' => String c EmptyString :: chars s'
  end.

End Str.

(** ** Python [dict] with [str] keys

    A dict keeps its keys in insertion order and holds each key once; it is
    an association list in which [Dict.set] overwrites in place. *)

Definition dict (V : Type) : Type := list (string * V).

Module Dict.
Section Ops.
Variable V : Type.

(** [d.get(k)] *)
Fixpoint get (k : string) (d : dict V) : option V :=
  match d with
  | [] => None
  | (k', v) :: d' => if String.eqb k k' then Some v else get k d'
  end.

(** [k in d] *)
Definition mem (k : string) (d : dict V) : bool :=
  match get k d with Some _ => true | None => false end.

(** [d[k] = v] *)
Fixpoint set (k : string) (v : V) (d : dict V) : dict V :=
  match d with
  | [] => [(k, v)]
  | (k', v') :: d' =>
      if String.eqb k k' then (k', v) :: d' else (k', v') :: set k v d'
  end.

(** [del d[k]] / [d.pop(k)], on the table alone. *)
Fixpoint remove (k : string) (d : dict V) : dict V :=
  match d with
  | [] => []
  | (k', v') :: d' =>
      if String.eqb k k' then d' else (k', v') :: remove k d'
  end.

Definition keys (d : dict V) : list string := map fst d.
Definition values (d : dict V) : list V := map snd d.

(** Every key once: what every Python dict satisfies. *)
Definition wf (d : dict V) : Prop := NoDup (keys d).
End Ops.
Arguments get {V} k d.
Arguments mem {V} k d.
Arguments set {V} k v d.
Arguments remove {V} k d.
Arguments keys {V} d.
Arguments values {V} d.
Arguments wf {V} d.
End Dict.

(** ** Decoded JSON *)

(** What [json.loads] returns: [None], [bool], [int], [float], [str], [list]
    and [dict] with [str] keys. *)
#[warnings="-register-all"]
Inductive json : Type :=
| JNull
| JBool (b : bool)
| JInt (n : Z)
| JFloat (f : float)
| JStr (s : string)
| JArr (items : list json)
| JObj (fields : dict json).

Module Py.

(** [v[key]] with a [str] key. *)
Definition getitem (v : json) (key : string) : result json :=
  match v with
  | JObj d => match Dict.get key d with
              | Some x => Ok x
              | None => Raise (KeyError key)
              end
  | _ => Raise TypeError
  end.

(** [v.get(key, default)] *)
Definition get (v : json) (key : string) (default : json) : result json :=
  match v with
  | JObj d => match Dict.get key d with
              | Some x => Ok x
              | None => Ok default
              end
  | _ => Raise AttributeError
  end.

(** [x == "s"] for a decoded value [x]. *)
Definition eq_str (x : json) (s : string) : bool :=
  match x with
  | JStr t => String.eqb t s
  | _ => false
  end.

(** [key in v] with a [str] key: key membership on a dict, element
    membership on a list, substring on a str, [TypeError] elsewhere. *)
Definition contains (key : string) (v : json) : result bool :=
  match v with
  | JObj d => Ok (Dict.mem key d)
  | JArr l => Ok (existsb (fun x => eq_str x key) l)
  | JStr s => Ok (Str.contains key s)
  | _ => Raise TypeError
  end.

(** [for x in v]: the items a loop over [v] visits. *)
Definition iter (v : json) : result (list json) :=
  match v with
  | JArr l => Ok l
  | JObj d => Ok (map JStr (Dict.keys d))
  | JStr s => Ok (map JStr (Str.chars s))
  | _ => Raise TypeError
  end.

(** [len(v)] *)
Definition len (v : json) : result nat :=
  match v with
  | JArr l => Ok (List.length l)
  | JObj d => Ok (List.length d)
  | JStr s => Ok (String.length s)
  | _ => Raise TypeError
  end.

(** [v.copy()]: lists and dicts have it. *)
Definition copy (v : json) : result json :=
  match v with
  | JArr _ | JObj _ => Ok v
  | _ => Raise AttributeError
  end.

(** [v[key] = x] with a [str] key. *)
Definition setitem (v : json) (key : string) (x : json) : result json :=
  match v with
  | JObj d => Ok (JObj (Dict.set key x d))
  | _ => Raise TypeError
  end.

(** [v.items()] *)
Definition items (v : json) : result (list (string * json)) :=
  match v with
  | JObj d => Ok d
  | _ => Raise AttributeError
  end.

(** [sep.join(parts)] over decoded values: every part must be a [str]. *)
Fixpoint strs (parts : list json) : result (list string) :=
  match parts with
  | [] => Ok []
  | JStr s :: ps => rbind (strs ps) (fun l => Ok (s :: l))
  | _ :: _ => Raise TypeError
  end.

Definition join (sep : string) (parts : list json) : result string :=
  rbind (strs parts) (fun l => Ok (Str.join sep l)).

End Py.

(** The two library functions whose output text the module passes on without
    looking at it: [json.dumps] and the formatting of a value inside an
    f-string.  Formatting a [str] gives the [str] itself. *)
Class Builtins : Type := {
  json_dumps : json -> string;
  py_format : json -> string;
  py_format_str : forall s, py_format (JStr s) = s
}.

(** ** A state monad in which an exception keeps the mutations made so far *)

Definition M (S A : Type) : Type := S -> S * result A.

Definition ret {S A} (a : A) : M S A := fun s => (s, Ok a).
Definition raise {S A} (e : exn) : M S A := fun s => (s, Raise e).
Definition lift {S A} (r : result A) : M S A := fun s => (s, r).
Definition bind {S A B} (c : M S A) (k : A -> M S B) : M S B :=
  fun s => match c s with
           | (s', Ok a) => k a s'
           | (s', Raise e) => (s', Raise e)
           end.
Definition gets {S A} (f : S -> A) : M S A := fun s => (s, Ok (f s)).
Definition modify {S} (f : S -> S) : M S unit := fun s => (f s, Ok tt).

Declare Scope py_scope.
Delimit Scope py_scope with py.
Notation "x <- c ;; k" := (bind c (fun x => k))
  (at level 61, c at next level, right associativity) : py_scope.
Notation "c ;;; k" := (bind c (fun _ => k))
  (at level 61, right associativity) : py_scope.
Open Scope py_scope.

Definition catch {S A} (c : M S A) (handler : exn -> M S A) : M S A :=
  fun s => match c s with
           | (s', Ok a) => (s', Ok a)
           | (s', Raise e) => handler e s'
           end.

(** [for x in xs: body(x)] *)
Fixpoint for_each {S X} (xs : list X) (body : X -> M S unit) : M S unit :=
  match xs with
  | [] => ret tt
  | x :: xs' => body x ;;; for_each xs' body
  end.

(** [c] keeps the property [P] of the state, however it ends. *)
Definition preserves {S A} (P : S -> Prop) (c : M S A) : Prop :=
  forall s, P s -> P (fst (c s)).

(** ** What a session meets: the child process and the event loop *)

(** One [readline()] of the reader loop on the child's stdout, classified by
    what [json.loads(line.decode().strip())] does with it. *)
Inductive line : Type :=
| Eof                        (* b'': end of stream *)
| Overlong                   (* readline() raises: no newline within the 10MB limit *)
| Undecodable                (* line.decode() raises UnicodeDecodeError *)
| Malformed (text : string)  (* json.loads raises json.JSONDecodeError *)
| Unloadable (e : exn)       (* json.loads raises another exception: ValueError on an
                                integer of too many digits, RecursionError *)
| Message (message : json).  (* json.loads returns [message] *)

(** What happens around one [_send_request]: the id [uuid.uuid4()] draws, what
    [stdin.drain()] raises (if anything), and the stdout lines that arrive
    before the [wait_for] timer expires.  The reader takes them in order
    while the request waits; lines after the one that answers the request
    belong to what follows.  When the timer expires, [wait_for] cancels the
    future and gives way to the event loop before [TimeoutError] reaches the
    caller: [late] are the lines the reader takes in between. *)
Record exchange : Type := {
  request_id : string;
  drain_error : option exn;
  replies : list line;
  late : list line
}.

(** [asyncio.Future] *)
Inductive future : Type :=
| FPending
| FResult (message : json)
| FCancelled.

(** [asyncio.Task] of the reader loop *)
Inductive task : Type :=
| Running
| Finished
| Cancelled.

(** [asyncio.subprocess.Process], created with three pipes: the lines written
    to its stdin so far (oldest first) and the signals it was sent. *)
Record Process : Type := {
  stdin : list string;
  terminated : bool;
  killed : bool
}.

Inductive log_record : Type :=
| LogParseFailure                 (* error: Failed to parse message from ... *)
| LogReadError (e : exn)          (* error: Error reading from MCP server ... *)
| LogNotification (method : json) (* debug: Received notification from ... *)
| LogTimeout (method : string)    (* warning: ... timed out after ... *)
| LogFetchFailed (error : json)   (* error: Failed to fetch tools from ... *)
| LogFetched (count : nat)        (* info: Fetched n tools ... *)
| LogStartFailed (e : exn)        (* error: Failed to start MCP server ... *)
| LogStarted                      (* info: ... started successfully *)
| LogStopped.                     (* info: ... stopped *)

(** What [start()] meets: [shutil.which] finds nothing, or preparing the
    environment / [create_subprocess_exec] raises, or the child is spawned;
    then the two requests of the handshake and the notification between. *)
Inductive spawn : Type :=
| CommandNotFound
| SpawnFails (e : exn)
| Spawned.

Record launch : Type := {
  spawned : spawn;
  handshake : exchange;
  initialized_drain : option exn;
  listing : exchange
}.

(** What [stop()] meets: [terminate()] raising, and whether the child exits
    within the 5 seconds. *)
Record shutdown : Type := {
  terminate_error : option exn;
  exits_in_time : bool
}.

(** Truth value of a decoded value, for [env or {}]. *)
Definition truthy (v : json) : bool :=
  match v with
  | JNull => false
  | JBool b => b
  | JInt n => negb (Z.eqb n 0)
  | JFloat f => negb (PrimFloat.eqb f 0%float)
  | JStr s => negb (String.eqb s "")
  | JArr l => match l with [] => false | _ => true end
  | JObj d => match d with [] => false | _ => true end
  end.

(** ** class MCPServer *)

Module MCPServer.

(** The fields of the object, then the futures the session created on the
    event loop (a future is named by its position) and the records it logged. *)
Record t : Type := {
  name : string;
  command : json;
  args : json;
  env : json;
  timeout : json;
  process : option Process;
  message_id_counter : nat;
  pending_requests : dict nat;
  tools : json;
  reader_task : option task;
  futures : list future;
  log : list log_record
}.

Definition set_process (p : option Process) (s : t) : t :=
  {| name := name s; command := command s; args := args s; env := env s;
     timeout := timeout s; process := p;
     message_id_counter := message_id_counter s;
     pending_requests := pending_requests s; tools := tools s;
     reader_task := reader_task s; futures := futures s; log := log s |}.

Definition set_message_id_counter (n : nat) (s : t) : t :=
  {| name := name s; command := command s; args := args s; env := env s;
     timeout := timeout s; process := process s;
     message_id_counter := n;
     pending_requests := pending_requests s; tools := tools s;
     reader_task := reader_task s; futures := futures s; log := log s |}.

Definition set_pending_requests (d : dict nat) (s : t) : t :=
  {| name := name s; command := command s; args := args s; env := env s;
     timeout := timeout s; process := process s;
     message_id_counter := message_id_counter s;
     pending_requests := d; tools := tools s;
     reader_task := reader_task s; futures := futures s; log := log s |}.

Definition set_tools (v : json) (s : t) : t :=
  {| name := name s; command := command s; args := args s; env := env s;
     timeout := timeout s; process := process s;
     message_id_counter := message_id_counter s;
     pending_requests := pending_requests s; tools := v;
     reader_task := reader_task s; futures := futures s; log := log s |}.

Definition set_reader_task (r : option task) (s : t) : t :=
  {| name := name s; command := command s; args := args s; env := env s;
     timeout := timeout s; process := process s;
     message_id_counter := message_id_counter s;
     pending_requests := pending_requests s; tools := tools s;
     reader_task := r; futures := futures s; log := log s |}.

Definition set_futures (fs : list future) (s : t) : t :=
  {| name := name s; command := command s; args := args s; env := env s;
     timeout := timeout s; process := process s;
     message_id_counter := message_id_counter s;
     pending_requests := pending_requests s; tools := tools s;
     reader_task := reader_task s; futures := fs; log := log s |}.

Definition logger (r : log_record) (s : t) : t :=
  {| name := name s; command := command s; args := args s; env := env s;
     timeout := timeout s; process := process s;
     message_id_counter := message_id_counter s;
     pending_requests := pending_requests s; tools := tools s;
     reader_task := reader_task s; futures := futures s; log := log s ++ [r] |}.

(** The fields that only [__init__] assigns. *)
Definition configured (s : t) : string * json * json * json * json :=
  (name s, command s, args s, env s, timeout s).

(** [__init__] *)
Definition init (name : string) (command args env timeout : json) : t :=
  {| name := name; command := command; args := args;
     env := if truthy env then env else JObj [];
     timeout := timeout; process := None; message_id_counter := 0;
     pending_requests := []; tools := JArr []; reader_task := None;
     futures := []; log := [] |}.

(** *** Futures *)

(** [asyncio.Future()]: a new pending future; its handle is returned. *)
Definition new_future : M t nat :=
  fun s => (set_futures (futures s ++ [FPending]) s, Ok (List.length (futures s))).

Fixpoint replace_nth {A} (n : nat) (x : A) (l : list A) : list A :=
  match n, l with
  | _, [] => []
  | O, _ :: l' => x :: l'
  | S n', y :: l' => y :: replace_nth n' x l'
  end.

Definition future_state (fut : nat) (s : t) : future :=
  nth fut (futures s) FCancelled.

(** [future.set_result(message)]: only a pending future takes a result. *)
Definition set_result (fut : nat) (message : json) : M t unit :=
  fun s => match future_state fut s with
           | FPending => (set_futures (replace_nth fut (FResult message) (futures s)) s, Ok tt)
           | _ => (s, Raise InvalidStateError)
           end.

(** [future.cancel()], as [wait_for] does when its timer expires: a pending
    future becomes cancelled, a settled one is left alone. *)
Definition cancel (fut : nat) (s : t) : t :=
  match future_state fut s with
  | FPending => set_futures (replace_nth fut FCancelled (futures s)) s
  | _ => s
  end.

(** *** The reader loop: [_read_responses] *)

(** [message["id"] in self.pending_requests]: a list or dict is unhashable,
    a str is looked up, any other value equals no key. *)
Definition pending_has (idv : json) (s : t) : result bool :=
  match idv with
  | JStr rid => Ok (Dict.mem rid (pending_requests s))
  | JArr _ | JObj _ => Raise TypeError
  | _ => Ok false
  end.

(** [self.pending_requests.pop(message["id"])], reached with a key that is in
    the table. *)
Definition pending_pop (idv : json) : M t nat :=
  fun s => match idv with
           | JStr rid =>
               match Dict.get rid (pending_requests s) with
               | Some fut => (set_pending_requests (Dict.remove rid (pending_requests s)) s, Ok fut)
               | None => (s, Raise (KeyError rid))
               end
           | _ => (s, Raise TypeError)
           end.

(** The statements under the inner [try], after [json.loads] returned. *)
Definition handle_message (message : json) : M t unit :=
  has_id <- lift (Py.contains "id" message) ;;
  matched <- (if has_id : bool
              then idv <- lift (Py.getitem message "id") ;;
                   fun s => (s, pending_has idv s)
              else ret false) ;;
  if matched : bool then
    idv <- lift (Py.getitem message "id") ;;
    fut <- pending_pop idv ;;
    set_result fut message
  else
    has_method <- lift (Py.contains "method" message) ;;
    if has_method : bool then
      method <- lift (Py.getitem message "method") ;;
      modify (logger (LogNotification method))
    else ret tt.

(** The outer [except Exception]: the error is logged and the coroutine ends. *)
Definition reader_dies (e : exn) (s : t) : t :=
  set_reader_task (Some Finished) (logger (LogReadError e) s).

(** One iteration of [while True] on the line [l]; a reader that is not
    running reads nothing. *)
Definition read_line (l : line) (s : t) : t :=
  match reader_task s with
  | Some Running =>
      match l with
      | Eof => set_reader_task (Some Finished) s
      | Overlong => reader_dies ValueError s
      | Undecodable => reader_dies UnicodeDecodeError s
      | Malformed _ => logger LogParseFailure s
      | Unloadable e => reader_dies e s
      | Message message =>
          match handle_message message s with
          | (s', Ok _) => s'
          | (s', Raise e) => reader_dies e s'
          end
      end
  | _ => s
  end.

Definition read_lines (ls : list line) (s : t) : t :=
  fold_left (fun s l => read_line l s) ls s.

(** *** The stderr task: [_read_stderr] *)

(** One [readline()] on the child's stderr, by what [line.decode().strip()]
    does with it. *)
Inductive stderr_line : Type :=
| ErrEof                          (* b'': end of stream *)
| ErrOverlong                     (* readline() raises: no newline within the limit *)
| ErrUndecodable                  (* line.decode() raises UnicodeDecodeError *)
| ErrText (stderr_text : string). (* the decoded text, stripped *)

Inductive stderr_record : Type :=
| LogStderr (server stderr_text : string)     (* warning: [name stderr] text *)
| LogStderrError (server : string) (e : exn). (* error: Error reading stderr from ... *)

(** The [while True] of [_read_stderr] under its [try], on the lines that
    arrive: the records it logs. *)
Fixpoint stderr_loop (server : string) (arriving : list stderr_line) : list stderr_record :=
  match arriving with
  | [] => []
  | ErrEof :: _ => []
  | ErrOverlong :: _ => [LogStderrError server ValueError]
  | ErrUndecodable :: _ => [LogStderrError server UnicodeDecodeError]
  | ErrText stderr_text :: rest =>
      if String.eqb stderr_text "" then stderr_loop server rest
      else LogStderr server stderr_text :: stderr_loop server rest
  end.

Definition _read_stderr (arriving : list stderr_line) (s : t) : list stderr_record :=
  match process s with
  | None => []
  | Some _ => stderr_loop (name s) arriving
  end.

Section Methods.
Context {B : Builtins}.

(** The guard that opens [_send_request] and [_send_notification]: the
    process and its stdin pipe must exist ([stdin] is a pipe of every
    process [start()] creates). *)
Definition running : M t Process :=
  fun s => match process s with
           | Some p => (s, Ok p)
           | None => (s, Raise (Exception ("MCP server '" ++ name s ++ "' is not running")))
           end.

(** [self.process.stdin.write(data)] *)
Definition stdin_write (data : string) : M t unit :=
  fun s => match process s with
           | Some p =>
               (set_process (Some {| stdin := stdin p ++ [data];
                                     terminated := terminated p;
                                     killed := killed p |}) s, Ok tt)
           | None => (s, Raise AttributeError)
           end.

(** [await self.process.stdin.drain()], for a flush that ends: it returns
    or it raises.  Nothing bounds the time [drain()] takes (it is awaited
    outside [wait_for]); a call whose flush never ends is a call that never
    comes back, and the run of a method from its first statement to its
    return has nothing to say about it. *)
Definition stdin_drain (error : option exn) : M t unit :=
  match error with
  | Some e => raise e
  | None => ret tt
  end.

Definition request (request_id method : string) (params : json) : json :=
  JObj [("jsonrpc", JStr "2.0"); ("id", JStr request_id);
        ("method", JStr method); ("params", params)].

(** The response [_send_request] makes up when the timer expires. *)
Definition timeout_error (s : t) : json :=
  JObj [("error", JObj [("code", JInt (-1));
                        ("message", JStr ("Request timeout after " ++ py_format (timeout s) ++ "s"))])].

(** [_send_request] from its first statement to [stdin.write]: the guard;
    then ([register]) the counter, the new future and its entry under the id;
    then the bytes. *)
Definition register (request_id : string) : M t nat :=
  modify (fun s => set_message_id_counter (S (message_id_counter s)) s) ;;;
  fut <- new_future ;;
  modify (fun s => set_pending_requests (Dict.set request_id fut (pending_requests s)) s) ;;;
  ret fut.

Definition submit (request_id method : string) (params : json) : M t nat :=
  running ;;;
  fut <- register request_id ;;
  stdin_write (json_dumps (request request_id method params) ++ String "010" "") ;;;
  ret fut.

(** [await asyncio.wait_for(future, timeout=self.timeout)], up to the moment
    it has its outcome: the reader loop takes the arriving lines one by one
    until the future has its result; when the lines that arrive before the
    timer expires are used up first, [wait_for] cancels the future, and its
    outcome is [TimeoutError] ([None] here).  [self.timeout] is a number of
    seconds, as its annotation [float] and the configuration format say, so
    there is a timer and it does expire. *)
Fixpoint wait_for (fut : nat) (arriving : list line) (s : t) : t * option json :=
  match future_state fut s with
  | FResult message => (s, Some message)
  | _ => match arriving with
         | [] => (cancel fut s, None)
         | l :: ls => wait_for fut ls (read_line l s)
         end
  end.

(** [del self.pending_requests[request_id]] *)
Definition pending_del (request_id : string) : M t unit :=
  fun s => match Dict.get request_id (pending_requests s) with
           | Some _ => (set_pending_requests (Dict.remove request_id (pending_requests s)) s, Ok tt)
           | None => (s, Raise (KeyError request_id))
           end.

(** The [try] around [wait_for], with its [except asyncio.TimeoutError].
    [TimeoutError] reaches the [except] clause only after [wait_for] has
    cancelled the future and waited for the cancellation on the event loop:
    the reader takes the lines [late] first, with the entry still in the
    table and its future cancelled. *)
Definition await_response (request_id method : string) (fut : nat)
    (arriving late : list line) : M t json :=
  fun s => match wait_for fut arriving s with
           | (s', Some response) => (s', Ok response)
           | (s', None) =>
               (pending_del request_id ;;;
                modify (logger (LogTimeout method)) ;;;
                gets timeout_error) (read_lines late s')
           end.

Definition _send_request (method : string) (params : json) (x : exchange) : M t json :=
  fut <- submit (request_id x) method params ;;
  stdin_drain (drain_error x) ;;;
  await_response (request_id x) method fut (replies x) (late x).

Definition notification (method : string) (params : json) : json :=
  JObj ([("jsonrpc", JStr "2.0"); ("method", JStr method)]
        ++ match params with
           | JNull => []
           | _ => [("params", params)]
           end).

Definition _send_notification (method : string) (params : json)
    (drain : option exn) : M t unit :=
  running ;;;
  stdin_write (json_dumps (notification method params) ++ String "010" "") ;;;
  stdin_drain drain.

Definition _fetch_tools (x : exchange) : M t unit :=
  response <- _send_request "tools/list" (JObj []) x ;;
  failed <- lift (Py.contains "error" response) ;;
  if failed : bool then
    error <- lift (Py.getitem response "error") ;;
    modify (logger (LogFetchFailed error))
  else
    result <- lift (Py.get response "result" (JObj [])) ;;
    listed <- lift (Py.get result "tools" (JArr [])) ;;
    modify (set_tools listed) ;;;
    count <- lift (Py.len listed) ;;
    modify (logger (LogFetched count)).

Definition initialize_params : json :=
  JObj [("protocolVersion", JStr "2024-11-05");
        ("capabilities", JObj [("roots", JObj [("listChanged", JBool true)]);
                               ("sampling", JObj [])]);
        ("clientInfo", JObj [("name", JStr "openai-realtime-mcp-client");
                             ("version", JStr "1.0.0")])].

Definition _initialize (l : launch) : M t unit :=
  init_response <- _send_request "initialize" initialize_params (handshake l) ;;
  failed <- lift (Py.contains "error" init_response) ;;
  if failed : bool then
    error <- lift (Py.getitem init_response "error") ;;
    raise (Exception ("Initialize failed: " ++ py_format error))
  else
    _send_notification "notifications/initialized" JNull (initialized_drain l) ;;;
    _fetch_tools (listing l).

(** [start()]: the child is spawned, the reader task created, the handshake
    run; both [except] clauses log and re-raise.  The command line handed to
    [create_subprocess_exec] (through [cmd /c] for a .cmd or .bat file on
    Windows) is the environment's business, as is the task that copies
    stderr to the log. *)
Definition start (l : launch) : M t unit :=
  catch
    (match spawned l with
     | CommandNotFound =>
         fun s => (s, Raise (FileNotFoundError ("Command not found: " ++ py_format (command s))))
     | SpawnFails e => raise e
     | Spawned =>
         modify (set_process (Some {| stdin := []; terminated := false; killed := false |})) ;;;
         modify (set_reader_task (Some Running)) ;;;
         _initialize l ;;;
         modify (logger LogStarted)
     end)
    (fun e => modify (logger (LogStartFailed e)) ;;; raise e).

(** [call_tool]: the loop over the content list, with its two accumulators. *)
Fixpoint scan_content (content text_parts images : list json)
    : result (list json * list json) :=
  match content with
  | [] => Ok (text_parts, images)
  | item :: rest =>
      rbind (Py.get item "type" JNull) (fun kind =>
      if Py.eq_str kind "text" then
        rbind (Py.get item "text" (JStr "")) (fun text =>
        scan_content rest (text_parts ++ [text]) images)
      else
        rbind (Py.get item "type" JNull) (fun kind' =>
        if Py.eq_str kind' "image" then
          rbind (Py.get item "data" (JStr "")) (fun data =>
          rbind (Py.get item "mimeType" (JStr "image/png")) (fun mime =>
          scan_content rest text_parts
            (images ++ [JObj [("data", data); ("mimeType", mime)]])))
        else scan_content rest text_parts images))
  end.

(** [call_tool] after the error test: from [result = response.get(...)] on. *)
Definition call_result (response : json) : result json :=
  rbind (Py.get response "result" (JObj [])) (fun result =>
  rbind (Py.get result "content" (JArr [])) (fun content =>
  rbind (Py.iter content) (fun items =>
  rbind (scan_content items [] []) (fun '(text_parts, images) =>
  rbind (Py.get result "isError" (JBool false)) (fun is_error =>
  rbind (match text_parts with
         | [] => Ok (json_dumps result)
         | _ => Py.join (String "010" "") text_parts
         end) (fun text =>
  Ok (JObj ([("isError", is_error); ("result", JStr text)]
            ++ match images with
               | [] => []
               | _ => [("images", JArr images)]
               end)))))))).

Definition call_tool (tool_name : string) (arguments : json) (x : exchange) : M t json :=
  response <- _send_request "tools/call"
                (JObj [("name", JStr tool_name); ("arguments", arguments)]) x ;;
  failed <- lift (Py.contains "error" response) ;;
  if failed : bool then
    error <- lift (Py.getitem response "error") ;;
    message <- lift (Py.getitem error "message") ;;
    ret (JObj [("error", message); ("isError", JBool true)])
  else lift (call_result response).

(** [stop()] *)
Definition stop (d : shutdown) : M t unit :=
  modify (fun s => match reader_task s with
                   | Some Running => set_reader_task (Some Cancelled) s
                   | _ => s
                   end) ;;;
  fun s => match process s with
           | None => (s, Ok tt)
           | Some p =>
               match terminate_error d with
               | Some e => (s, Raise e)
               | None =>
                   (logger LogStopped
                      (set_process (Some {| stdin := stdin p; terminated := true;
                                            killed := negb (exits_in_time d) |}) s),
                    Ok tt)
               end
           end.

(** [get_tools]: the loop body on one tool, then the loop. *)
Definition prefix_tool (server : string) (tool : json) : result json :=
  rbind (Py.copy tool) (fun prefixed_tool =>
  rbind (Py.getitem tool "name") (fun original =>
  rbind (Py.setitem prefixed_tool "name" (JStr (server ++ "__" ++ py_format original))) (fun p1 =>
  rbind (Py.setitem p1 "mcp_server" (JStr server)) (fun p2 =>
  rbind (Py.getitem tool "name") (fun original' =>
  Py.setitem p2 "original_name" original'))))).

Fixpoint prefix_tools (server : string) (listed : list json) : result (list json) :=
  match listed with
  | [] => Ok []
  | tool :: rest =>
      rbind (prefix_tool server tool) (fun prefixed_tool =>
      rbind (prefix_tools server rest) (fun prefixed_tools =>
      Ok (prefixed_tool :: prefixed_tools)))
  end.

Definition get_tools (s : t) : result (list json) :=
  rbind (Py.iter (tools s)) (prefix_tools (name s)).

End Methods.

End MCPServer.

(** ** class MCPManager *)

(** What [start_all] finds at [config_path]: [exists()] raises (an [OSError]
    that does not mean the file is absent: no permission to look into the
    directory), no file, a file that [open] or [json.load] rejects, or a
    decoded document. *)
Inductive config_file : Type :=
| Unreachable (e : exn)
| Missing
| Unreadable (e : exn)
| Loaded (config : json).

Inductive manager_log : Type :=
| LogConfigMissing                          (* warning: MCP config file not found *)
| LogConfigured (server : string)           (* info: ... configured with ... timeout *)
| LogServerFailed (server : string) (e : exn) (* error: Failed to start MCP server ... *)
| LogStartedAll (count : nat)               (* info: Started n MCP servers *)
| LogLoadFailed (e : exn).                  (* error: Failed to load MCP config *)

Module MCPManager.

Record t : Type := {
  config_path : string;
  servers : dict MCPServer.t;
  log : list manager_log
}.

Definition set_servers (d : dict MCPServer.t) (m : t) : t :=
  {| config_path := config_path m; servers := d; log := log m |}.

Definition logger (r : manager_log) (m : t) : t :=
  {| config_path := config_path m; servers := servers m; log := log m ++ [r] |}.

(** [__init__] *)
Definition init (config_path : string) : t :=
  {| config_path := config_path; servers := []; log := [] |}.

Section Methods.
Context {B : Builtins}.

(** The [try] inside the loop of [start_all], for one entry of [mcpServers]:
    the session is built from the entry and started ([l] is what its
    [start()] meets); then it is stored under its name. *)
Definition build (name : string) (server_config : json) (l : launch) : result MCPServer.t :=
  rbind (Py.get server_config "timeout" (JFloat 120%float)) (fun timeout =>
  rbind (Py.getitem server_config "command") (fun command =>
  rbind (Py.get server_config "args" (JArr [])) (fun args =>
  rbind (Py.get server_config "env" (JObj [])) (fun env =>
  match MCPServer.start l (MCPServer.init name command args env timeout) with
  | (server, Ok _) => Ok server
  | (_, Raise e) => Raise e
  end)))).

Definition start_entry (name : string) (server_config : json) (l : launch) : M t unit :=
  server <- lift (build name server_config l) ;;
  modify (fun m => set_servers (Dict.set name server (servers m)) m) ;;;
  modify (logger (LogConfigured name)).

(** The loop of [start_all], with its inner [try]; [world] tells what each
    server's [start()] meets. *)
Definition start_each (entries : list (string * json)) (world : string -> launch) : M t unit :=
  for_each entries (fun '(name, server_config) =>
    catch (start_entry name server_config (world name))
          (fun e => modify (logger (LogServerFailed name e)))).

Definition start_all (file : config_file) (world : string -> launch) : M t unit :=
  match file with
  | Unreachable e => raise e
  | Missing => modify (logger LogConfigMissing)
  | Unreadable e => modify (logger (LogLoadFailed e))
  | Loaded config =>
      catch
        (mcp_servers <- lift (Py.get config "mcpServers" (JObj [])) ;;
         entries <- lift (Py.items mcp_servers) ;;
         start_each entries world ;;;
         modify (fun m => logger (LogStartedAll (List.length (servers m))) m))
        (fun e => modify (logger (LogLoadFailed e)))
  end.

(** [stop_all]: the loop over [self.servers.values()], then [clear()]. *)
Fixpoint stop_each (names : list string) (world : string -> shutdown) : M t unit :=
  match names with
  | [] => ret tt
  | name :: rest =>
      (fun m =>
         match Dict.get name (servers m) with
         | None => (m, Ok tt)
         | Some server =>
             match MCPServer.stop (world name) server with
             | (server', r) => (set_servers (Dict.set name server' (servers m)) m, r)
             end
         end) ;;;
      stop_each rest world
  end.

Definition stop_all (world : string -> shutdown) : M t unit :=
  names <- gets (fun m => Dict.keys (servers m)) ;;
  stop_each names world ;;;
  modify (set_servers []).

(** [get_all_tools] *)
Fixpoint extend_all (sessions : list MCPServer.t) (all_tools : list json)
    : result (list json) :=
  match sessions with
  | [] => Ok all_tools
  | server :: rest =>
      rbind (MCPServer.get_tools server) (fun prefixed =>
      extend_all rest (all_tools ++ prefixed))
  end.

Definition get_all_tools (m : t) : result (list json) :=
  extend_all (Dict.values (servers m)) [].

Definition invalid_tool_name (tool_name : string) : json :=
  JObj [("error", JStr ("Invalid tool name format: " ++ tool_name));
        ("isError", JBool true)].

Definition server_not_found (server_name : string) : json :=
  JObj [("error", JStr ("MCP server '" ++ server_name ++ "' not found"));
        ("isError", JBool true)].

(** [call_tool]; the session object is shared with the registry, so what the
    call does to it is seen through [self.servers]. *)
Definition call_tool (tool_name : string) (arguments : json) (x : exchange) : M t json :=
  if negb (Str.contains "__" tool_name) then ret (invalid_tool_name tool_name)
  else
    match Str.split1 "__" tool_name with
    | [server_name; original_tool_name] =>
        fun m =>
          match Dict.get server_name (servers m) with
          | None => (m, Ok (server_not_found server_name))
          | Some server =>
              match MCPServer.call_tool original_tool_name arguments x server with
              | (server', r) => (set_servers (Dict.set server_name server' (servers m)) m, r)
              end
          end
    | _ => raise ValueError
    end.

End Methods.

End MCPManager.

(** ** The callers in [backend/main.py]

    The module-level [mcp_manager], the two lifecycle hooks and the two
    endpoints that use it.  An endpoint answers with a body (status 200) or
    raises [HTTPException]. *)

Inductive app_log : Type :=
| LogToolsFailed (e : exn)                        (* error: Failed to get MCP tools *)
| LogToolCall (tool_name : string) (arguments : json) (* debug: MCP tool call *)
| LogToolResult (result : json)                   (* debug: MCP tool result *)
| LogToolCallFailed (tool_name : string) (e : exn). (* error: Failed to call MCP tool *)

Inductive response : Type :=
| Body (content : json)
| HTTPException (status_code : nat) (detail : string).

Module Main.

Record t : Type := {
  mcp_manager : option MCPManager.t;
  log : list app_log
}.

Definition set_mcp_manager (m : option MCPManager.t) (a : t) : t :=
  {| mcp_manager := m; log := log a |}.

Definition logger (r : app_log) (a : t) : t :=
  {| mcp_manager := mcp_manager a; log := log a ++ [r] |}.

Section Endpoints.
Context {B : Builtins}.

(** [str(e)] of a caught exception. *)
Variable str : exn -> string.

(** [startup_event]: the manager is made for [MCP_CONFIG_FILE] and bound to
    the global before [start_all] runs on it. *)
Definition startup_event (MCP_CONFIG_FILE : string) (file : config_file)
    (world : string -> launch) : M t unit :=
  fun a => match MCPManager.start_all file world (MCPManager.init MCP_CONFIG_FILE) with
           | (m, r) => (set_mcp_manager (Some m) a, r)
           end.

(** [shutdown_event] *)
Definition shutdown_event (world : string -> shutdown) : M t unit :=
  fun a => match mcp_manager a with
           | None => (a, Ok tt)
           | Some m =>
               match MCPManager.stop_all world m with
               | (m', r) => (set_mcp_manager (Some m') a, r)
               end
           end.

(** [GET /api/mcp-tools] *)
Definition get_mcp_tools (a : t) : t * response :=
  match mcp_manager a with
  | None => (a, Body (JObj [("tools", JArr [])]))
  | Some m =>
      match MCPManager.get_all_tools m with
      | Ok tools => (a, Body (JObj [("tools", JArr tools)]))
      | Raise e =>
          (logger (LogToolsFailed e) a,
           HTTPException 500 ("Failed to get MCP tools: " ++ str e))
      end
  end.

(** [POST /api/mcp-call] *)
Definition call_mcp_tool (tool_name : string) (arguments : json) (x : exchange)
    (a : t) : t * response :=
  match mcp_manager a with
  | None => (a, HTTPException 500 "MCP manager not initialized")
  | Some m =>
      let a := logger (LogToolCall tool_name arguments) a in
      match MCPManager.call_tool tool_name arguments x m with
      | (m', Ok result) =>
          (logger (LogToolResult result) (set_mcp_manager (Some m') a), Body result)
      | (m', Raise e) =>
          (logger (LogToolCallFailed tool_name e) (set_mcp_manager (Some m') a),
           HTTPException 500 ("Failed to call MCP tool: " ++ str e))
      end
  end.

End Endpoints.

End Main.

(** ** An instance of the builtins, to run the model

    [Plain] renders values as Python does: [json.dumps] with its default
    separators and escapes, and [str()] inside an f-string, which is
    [repr()] for everything but a str.  It does so on [None], booleans,
    integers, ASCII text, floats with an integral value below 10^16, and
    lists and dicts of these.  A float outside this range is written as a
    placeholder and text outside ASCII is passed on byte by byte; no
    statement below runs [Plain] on such values, and nothing proved for
    every [Builtins] depends on it. *)

Module Plain.

Definition digit (n : Z) : ascii := ascii_of_nat (48 + Z.to_nat n).

Fixpoint digits (fuel : nat) (n : Z) (acc : string) : string :=
  match fuel with
  | O => acc
  | S fuel' =>
      if Z.ltb n 10 then String (digit n) acc
      else digits fuel' (Z.div n 10) (String (digit (Z.modulo n 10)) acc)
  end.

Definition decimal (n : Z) : string :=
  if Z.ltb n 0 then String "-" (digits (S (Z.to_nat (Z.log2 (- n)))) (- n) "")
  else digits (S (Z.to_nat (Z.log2 n))) n "".

(** The integer a float equals, when it equals one. *)
Definition integral (f : float) : option Z :=
  match Prim2SF f with
  | SpecFloat.S754_zero _ => Some 0%Z
  | SpecFloat.S754_finite sign m e =>
      let v := if sign then Z.opp (Zpos m) else Zpos m in
      if Z.leb 0 e then Some (v * 2 ^ e)%Z
      else if Z.eqb (Z.modulo (Zpos m) (2 ^ (- e))) 0 then Some (v / 2 ^ (- e))%Z
      else None
  | _ => None
  end.

Definition float_text (f : float) : string :=
  match integral f with
  | Some n => if Z.ltb (Z.abs n) (10 ^ 16) then decimal n ++ ".0" else "<float>"
  | None => "<float>"
  end.

Definition quote : string := String (ascii_of_nat 34) "".
Definition apostrophe : string := String (ascii_of_nat 39) "".
Definition backslash : string := String (ascii_of_nat 92) "".

Definition hex_digit (n : nat) : ascii :=
  ascii_of_nat (if Nat.ltb n 10 then 48 + n else 87 + n).

Definition hex2 (n : nat) : string :=
  String (hex_digit (Nat.div n 16)) (String (hex_digit (Nat.modulo n 16)) "").

Fixpoint escape (f : ascii -> string) (s : string) : string :=
  match s with
  | EmptyString => ""
  | String c rest => f c ++ escape f rest
  end.

(** One character of a str as [json.dumps] writes it. *)
Definition json_char (c : ascii) : string :=
  let n := nat_of_ascii c in
  if Nat.eqb n 34 then backslash ++ quote
  else if Nat.eqb n 92 then backslash ++ backslash
  else if Nat.eqb n 10 then backslash ++ "n"
  else if Nat.eqb n 13 then backslash ++ "r"
  else if Nat.eqb n 9 then backslash ++ "t"
  else if Nat.eqb n 8 then backslash ++ "b"
  else if Nat.eqb n 12 then backslash ++ "f"
  else if Nat.ltb n 32 then backslash ++ "u00" ++ hex2 n
  else String c "".

Definition json_string (s : string) : string := quote ++ escape json_char s ++ quote.

Fixpoint dumps (fuel : nat) (v : json) : string :=
  match fuel with
  | O => ""
  | S fuel' =>
      match v with
      | JNull => "null"
      | JBool true => "true"
      | JBool false => "false"
      | JInt n => decimal n
      | JFloat f => float_text f
      | JStr s => json_string s
      | JArr l => "[" ++ Str.join ", " (map (dumps fuel') l) ++ "]"
      | JObj d =>
          "{" ++ Str.join ", "
                   (map (fun kv => (json_string (fst kv) ++ ": " ++ dumps fuel' (snd kv))%string) d)
              ++ "}"
      end
  end.

(** One character of a str as [repr] writes it between the quotes [q]. *)
Definition repr_char (q : nat) (c : ascii) : string :=
  let n := nat_of_ascii c in
  if Nat.eqb n q then backslash ++ String c ""
  else if Nat.eqb n 92 then backslash ++ backslash
  else if Nat.eqb n 10 then backslash ++ "n"
  else if Nat.eqb n 13 then backslash ++ "r"
  else if Nat.eqb n 9 then backslash ++ "t"
  else if orb (Nat.ltb n 32) (Nat.eqb n 127) then backslash ++ "x" ++ hex2 n
  else String c "".

(** [repr] of a str: single quotes, unless the text has one and has no
    double quote. *)
Definition repr_string (s : string) : string :=
  if andb (Str.contains apostrophe s) (negb (Str.contains quote s))
  then quote ++ escape (repr_char 34) s ++ quote
  else apostrophe ++ escape (repr_char 39) s ++ apostrophe.

Fixpoint repr (fuel : nat) (v : json) : string :=
  match fuel with
  | O => ""
  | S fuel' =>
      match v with
      | JNull => "None"
      | JBool true => "True"
      | JBool false => "False"
      | JInt n => decimal n
      | JFloat f => float_text f
      | JStr s => repr_string s
      | JArr l => "[" ++ Str.join ", " (map (repr fuel') l) ++ "]"
      | JObj d =>
          "{" ++ Str.join ", "
                   (map (fun kv => (repr_string (fst kv) ++ ": " ++ repr fuel' (snd kv))%string) d)
              ++ "}"
      end
  end.

(** A value inside an f-string: a str as it is, anything else as [repr]. *)
Definition format (v : json) : string :=
  match v with
  | JStr s => s
  | _ => repr 64 v
  end.

End Plain.

#[export] Instance plain : Builtins := {|
  json_dumps := Plain.dumps 64;
  py_format := Plain.format;
  py_format_str := fun s => eq_refl
|}.

(** ** Names and catalogues, as the statements below speak of them *)

(** The qualified name of an entry of [get_tools] / [get_all_tools]: its
    ["name"] field. *)
Definition qualified_name (entry : json) : option json :=
  match entry with
  | JObj d => Dict.get "name" d
  | _ => None
  end.

(** The name a tool of a [tools/list] result declares, when the tool is an
    object with a str under ["name"]. *)
Definition declared_name (tool : json) : option string :=
  match tool with
  | JObj d => match Dict.get "name" d with
              | Some (JStr n) => Some n
              | _ => None
              end
  | _ => None
  end.

Fixpoint declared_names (listed : list json) : option (list string) :=
  match listed with
  | [] => Some []
  | tool :: rest =>
      match declared_name tool, declared_names rest with
      | Some n, Some ns => Some (n :: ns)
      | _, _ => None
      end
  end.

(** The original names of a session's catalogue, when the catalogue is a
    list of such tools. *)
Definition catalogue (s : MCPServer.t) : option (list string) :=
  match MCPServer.tools s with
  | JArr listed => declared_names listed
  | _ => None
  end.

(** The names [get_all_tools] gives out: session by session in registry
    order, each session's catalogue in its own order. *)
Definition names_of (sessions : list MCPServer.t) : list (option json) :=
  flat_map (fun server =>
              map (fun n => Some (JStr (MCPServer.name server ++ "__" ++ n)))
                  (match catalogue server with Some names => names | None => [] end))
           sessions.

(** A server name that holds no ["__"] and does not end with ["_"]: the
    first ["__"] of [name ++ "__" ++ tool] is then the one put there. *)
Definition separable (server_name : string) : bool :=
  negb (Str.contains "__" (server_name ++ "_")).

(** A property of a session that only looks at the configured fields. *)
Definition framed (P : MCPServer.t -> Prop) : Prop :=
  forall s s', MCPServer.configured s' = MCPServer.configured s -> P s -> P s'.

(** The registry as [start_all] fills it: every key once, each session
    stored under its own name. *)
Definition registry_ok (m : MCPManager.t) : Prop :=
  Dict.wf (MCPManager.servers m) /\
  forall key server, In (key, server) (MCPManager.servers m) -> MCPServer.name server = key.

(** ** The pending-request table *)

(** The table is in order: every id once, every future under one id only,
    and every future in the table still pending. *)
Definition table_ok (s : MCPServer.t) : Prop :=
  Dict.wf (MCPServer.pending_requests s) /\
  NoDup (Dict.values (MCPServer.pending_requests s)) /\
  forall request_id fut,
    In (request_id, fut) (MCPServer.pending_requests s) ->
    MCPServer.future_state fut s = FPending.

(** The table between the moment [wait_for] cancelled the future [fut] of
    the call [request_id] and the moment the call deletes its entry: as
    [table_ok], except that the entry of [request_id], while it is there,
    holds the cancelled future. *)
Definition table_expiring (request_id : string) (fut : nat) (s : MCPServer.t) : Prop :=
  Dict.wf (MCPServer.pending_requests s) /\
  NoDup (Dict.values (MCPServer.pending_requests s)) /\
  forall r f,
    In (r, f) (MCPServer.pending_requests s) ->
    (r = request_id /\ f = fut /\ MCPServer.future_state fut s = FCancelled) \/
    MCPServer.future_state f s = FPending.

(** The id a line answers: the ["id"] of a decoded object, when it is a str. *)
Definition answers (l : line) : option string :=
  match l with
  | Message (JObj fields) =>
      match Dict.get "id" fields with
      | Some (JStr request_id) => Some request_id
      | _ => None
      end
  | _ => None
  end.

(** What one iteration of the reader loop, on the line [l], does to the table
    and the futures: nothing, or [l] answers a pending request, whose entry
    it takes out and whose future it gives the message. *)
Inductive reader_effect (l : line) (s s' : MCPServer.t) : Prop :=
| Untouched :
    MCPServer.pending_requests s' = MCPServer.pending_requests s ->
    MCPServer.futures s' = MCPServer.futures s ->
    reader_effect l s s'
| Resolved (request_id : string) (fut : nat) (message : json) :
    l = Message message ->
    answers l = Some request_id ->
    Dict.get request_id (MCPServer.pending_requests s) = Some fut ->
    MCPServer.reader_task s = Some Running ->
    MCPServer.pending_requests s' = Dict.remove request_id (MCPServer.pending_requests s) ->
    MCPServer.futures s' = MCPServer.replace_nth fut (FResult message) (MCPServer.futures s) ->
    reader_effect l s s'.

(** A decoded line the reader loop cannot take: a number, a boolean or
    [null], on which [in] is not defined, or an object whose ["id"] is a
    list or an object, which cannot be looked up in the table. *)
Definition unreadable (message : json) : bool :=
  match message with
  | JNull | JBool _ | JInt _ | JFloat _ => true
  | JObj fields =>
      match Dict.get "id" fields with
      | Some (JArr _) | Some (JObj _) => true
      | _ => false
      end
  | _ => false
  end.

(** The request of the exchange [x] is flushed, and the child answers it
    with [response] before the timer fires, after lines that decode and
    that [json.loads] rejects with [JSONDecodeError]. *)
Definition answered_by (x : exchange) (response : json) : Prop :=
  drain_error x = None /\
  answers (Message response) = Some (request_id x) /\
  exists junk rest,
    replies x = junk ++ Message response :: rest /\
    Forall (fun l => exists text, l = Malformed text) junk.

(** The request of the exchange [x] is flushed, and no line answers it:
    none that arrives before the timer expires, and none that the reader
    takes before the [except] clause of the caller runs. *)
Definition never_answered (x : exchange) : Prop :=
  drain_error x = None /\
  forall l, In l (replies x ++ late x) -> answers l <> Some (request_id x).

(** The request of the exchange [x] is flushed, the child writes nothing
    that [json.loads] takes until the timer has fired, and its answer
    [response] is a line the reader takes after [wait_for] has cancelled the
    future and before the caller runs again. *)
Definition answered_late (x : exchange) (response : json) : Prop :=
  drain_error x = None /\
  answers (Message response) = Some (request_id x) /\
  Forall (fun l => exists text, l = Malformed text) (replies x) /\
  exists junk rest,
    late x = junk ++ Message response :: rest /\
    Forall (fun l => exists text, l = Malformed text) junk.

(** The child of the session runs: it was sent neither [terminate()] nor
    [kill()]. *)
Definition alive (s : MCPServer.t) : Prop :=
  exists p, MCPServer.process s = Some p /\ terminated p = false /\ killed p = false.

(** ** Several calls in flight on one session

    [_send_request] above runs one call from its first statement to its
    return.  On the event loop a call is suspended in [wait_for] while other
    calls start, lines arrive, timers fire and other callers are resumed.
    [Loop] runs the same statements event by event: a state is the session
    together with the calls suspended in [wait_for].  The firing of a timer
    and the resumption of its caller are two events, and the reader can take
    lines between them. *)

Module Loop.

(** A suspended call: the locals [request_id], [method] and [future]. *)
Record call : Type := {
  call_id : string;
  call_method : string;
  call_future : nat
}.

Record t : Type := {
  session : MCPServer.t;
  waiting : list call
}.

Inductive event : Type :=
| Call (method : string) (params : json) (request_id : string) (drain_error : option exn)
      (* a caller enters [_send_request] and runs up to its [wait_for] *)
| Line (l : line)
      (* the reader loop takes a line *)
| Expire (fut : nat)
      (* the timer of the [wait_for] on [fut] fires: [wait_for] cancels the
         future and gives way to the event loop; the caller has not yet
         been resumed *)
| Wake (fut : nat)
      (* the caller of the [wait_for] on [fut] is resumed: with the result
         if the future has one, with [TimeoutError] otherwise (the timer
         fires here if it has not fired in an [Expire] before) *)
| Stop (d : shutdown).
      (* [stop()] *)

(** What the coroutine that ran in the event came to. *)
Inductive outcome : Type :=
| Suspended               (* it is waiting, or the event runs nothing to an end *)
| Returned (value : json) (* a [_send_request] returned *)
| Raised (e : exn).       (* the coroutine raised *)

Definition outcome_of (r : result json) : outcome :=
  match r with
  | Ok value => Returned value
  | Raise e => Raised e
  end.

(** The suspended call that waits on [fut], taken out of the list. *)
Fixpoint take (fut : nat) (calls : list call) : option call * list call :=
  match calls with
  | [] => (None, [])
  | c :: rest =>
      if Nat.eqb (call_future c) fut then (Some c, rest)
      else match take fut rest with
           | (found, rest') => (found, c :: rest')
           end
  end.

Section Steps.
Context {B : Builtins}.

Definition step (e : event) (w : t) : t * outcome :=
  match e with
  | Call method params request_id drain_error =>
      match (fut <- MCPServer.submit request_id method params ;;
             MCPServer.stdin_drain drain_error ;;;
             ret fut) (session w) with
      | (s', Ok fut) =>
          ({| session := s';
              waiting := waiting w ++ [{| call_id := request_id; call_method := method;
                                          call_future := fut |}] |},
           Suspended)
      | (s', Raise e) => ({| session := s'; waiting := waiting w |}, Raised e)
      end
  | Line l =>
      ({| session := MCPServer.read_line l (session w); waiting := waiting w |}, Suspended)
  | Expire fut =>
      match take fut (waiting w) with
      | (Some _, _) =>
          ({| session := MCPServer.cancel fut (session w); waiting := waiting w |}, Suspended)
      | (None, _) => (w, Suspended)
      end
  | Wake fut =>
      match take fut (waiting w) with
      | (Some c, rest) =>
          match MCPServer.await_response (call_id c) (call_method c) fut [] [] (session w) with
          | (s', Ok response) => ({| session := s'; waiting := rest |}, Returned response)
          | (s', Raise e) => ({| session := s'; waiting := rest |}, Raised e)
          end
      | (None, _) => (w, Suspended)
      end
  | Stop d =>
      match MCPServer.stop d (session w) with
      | (s', Ok _) => ({| session := s'; waiting := waiting w |}, Suspended)
      | (s', Raise e) => ({| session := s'; waiting := waiting w |}, Raised e)
      end
  end.

Fixpoint run (events : list event) (w : t) : t * list outcome :=
  match events with
  | [] => (w, [])
  | e :: rest =>
      match step e w with
      | (w', o) => match run rest w' with
                   | (w'', os) => (w'', o :: os)
                   end
      end
  end.

End Steps.

(** The table is in order, no two suspended calls wait on one future, the
    future a call waits on is not cancelled, and it is in the table under
    that call's id at most. *)
Definition ok (w : t) : Prop :=
  table_ok (session w) /\
  NoDup (map call_future (waiting w)) /\
  forall c, In c (waiting w) ->
    MCPServer.future_state (call_future c) (session w) <> FCancelled /\
    forall r, In (r, call_future c) (MCPServer.pending_requests (session w)) -> r = call_id c.

(** What every run keeps, also between the firing of a timer and the
    resumption of its caller: every id once, every future under one id, no
    future in the table that has a result, no two suspended calls on one
    future, and the future of a suspended call under that call's id at
    most. *)
Definition sound (w : t) : Prop :=
  Dict.wf (MCPServer.pending_requests (session w)) /\
  NoDup (Dict.values (MCPServer.pending_requests (session w))) /\
  (forall r f, In (r, f) (MCPServer.pending_requests (session w)) ->
     f < List.length (MCPServer.futures (session w)) /\
     forall message, MCPServer.future_state f (session w) <> FResult message) /\
  NoDup (map call_future (waiting w)) /\
  forall c, In c (waiting w) ->
    call_future c < List.length (MCPServer.futures (session w)) /\
    forall r, In (r, call_future c) (MCPServer.pending_requests (session w)) -> r = call_id c.

(** Every suspended call whose future is still pending has its entry in
    the table. *)
Definition registered (w : t) : Prop :=
  forall c, In c (waiting w) ->
    MCPServer.future_state (call_future c) (session w) = FPending ->
    Dict.get (call_id c) (MCPServer.pending_requests (session w)) = Some (call_future c).

(** The suspended calls have ids of their own, and no [Call] of the run
    draws an id that is in the table or that a suspended call has: what
    [uuid4()] gives. *)
Definition own_ids (w : t) : Prop := NoDup (map call_id (waiting w)).

Fixpoint new_ids {B : Builtins} (events : list event) (w : t) : Prop :=
  match events with
  | [] => True
  | e :: rest =>
      match e with
      | Call _ _ request_id _ =>
          Dict.get request_id (MCPServer.pending_requests (session w)) = None /\
          ~ In request_id (map call_id (waiting w))
      | _ => True
      end /\ new_ids rest (fst (step e w))
  end.

(** No line of the run answers the request [request_id], and no call of the
    run draws its id. *)
Fixpoint silent_on (request_id : string) (events : list event) : Prop :=
  match events with
  | [] => True
  | e :: rest =>
      match e with
      | Line l => answers l <> Some request_id
      | Call _ _ request_id' _ => request_id' <> request_id
      | _ => True
      end /\ silent_on request_id rest
  end.

End Loop.

(** ** The call result, in the words of the specification

    The content entries of a [tools/call] result by kind, the text and the
    images a [CallResult] is to carry.  [MCPServer.call_result] is compared
    with this. *)

Module CallResult.

Definition kind_is (kind : string) (item : json) : bool :=
  match item with
  | JObj d => match Dict.get "type" d with
              | Some k => Py.eq_str k kind
              | None => false
              end
  | _ => false
  end.

(** The text of a text entry; an entry without one counts as empty text. *)
Definition text_of (item : json) : string :=
  match item with
  | JObj d => match Dict.get "text" d with
              | Some (JStr text) => text
              | _ => ""
              end
  | _ => ""
  end.

Definition field_or (key : string) (default : json) (item : json) : json :=
  match item with
  | JObj d => match Dict.get key d with
              | Some v => v
              | None => default
              end
  | _ => default
  end.

(** An image entry with its declared mime type, [image/png] by default. *)
Definition image_of (item : json) : json :=
  JObj [("data", field_or "data" (JStr "") item);
        ("mimeType", field_or "mimeType" (JStr "image/png") item)].

Definition texts (content : list json) : list string :=
  map text_of (filter (kind_is "text") content).

Definition images (content : list json) : list json :=
  map image_of (filter (kind_is "image") content).

(** The content list of the wire protocol: every entry an object, the text
    of a text entry a str. *)
Definition well_formed (content : list json) : bool :=
  forallb (fun item =>
             match item with
             | JObj d => if kind_is "text" item
                         then match Dict.get "text" d with
                              | Some (JStr _) | None => true
                              | Some _ => false
                              end
                         else true
             | _ => false
             end) content.

(** The result text: the texts joined by newlines, or the serialized raw
    result when there is no text entry. *)
Definition result_text {B : Builtins} (result : json) (content : list json) : string :=
  match texts content with
  | [] => json_dumps result
  | parts => Str.join (String "010" "") parts
  end.

(** The payload: [isError], the text, and the images when there are any. *)
Definition payload {B : Builtins} (result : json) (content : list json) : json :=
  JObj ([("isError", field_or "isError" (JBool false) result);
         ("result", JStr (result_text result content))]
        ++ match images content with
           | [] => []
           | found => [("images", JArr found)]
           end).

End CallResult.

(** ** Concrete sessions and registries, to run the model on *)

Module Demo.

Definition response (request_id : string) (result : json) : json :=
  JObj [("jsonrpc", JStr "2.0"); ("id", JStr request_id); ("result", result)].

Definition reply (request_id : string) (result : json) : line :=
  Message (response request_id result).

Definition tool (name : string) : json :=
  JObj [("name", JStr name); ("description", JStr "a tool");
        ("inputSchema", JObj [("type", JStr "object")])].

Definition server_info : json := JObj [("protocolVersion", JStr "2024-11-05")].

Definition listed (names : list string) : json := JObj [("tools", JArr (map tool names))].

(** A child that answers the handshake and lists the tools [names]. *)
Definition serving (names : list string) : launch :=
  {| spawned := Spawned;
     handshake := {| request_id := "52fdfc07"; drain_error := None;
                     replies := [reply "52fdfc07" server_info]; late := [] |};
     initialized_drain := None;
     listing := {| request_id := "2182654f"; drain_error := None;
                   replies := [reply "2182654f" (listed names)]; late := [] |} |}.

(** A command that [shutil.which] does not find. *)
Definition not_installed : launch :=
  {| spawned := CommandNotFound;
     handshake := {| request_id := "52fdfc07"; drain_error := None; replies := []; late := [] |};
     initialized_drain := None;
     listing := {| request_id := "2182654f"; drain_error := None; replies := []; late := [] |} |}.

(** The session that [start()] makes of [MCPServer(name, command, ...)] when
    the child is [serving names]. *)
Definition started (name command : string) (names : list string) : MCPServer.t :=
  {| MCPServer.name := name;
     MCPServer.command := JStr command;
     MCPServer.args := JArr [JStr "server.js"];
     MCPServer.env := JObj [];
     MCPServer.timeout := JFloat 120%float;
     MCPServer.process :=
       Some {| stdin :=
                 [json_dumps (MCPServer.request "52fdfc07" "initialize" MCPServer.initialize_params)
                    ++ String "010" "";
                  json_dumps (MCPServer.notification "notifications/initialized" JNull)
                    ++ String "010" "";
                  json_dumps (MCPServer.request "2182654f" "tools/list" (JObj []))
                    ++ String "010" ""]%string;
               terminated := false; killed := false |};
     MCPServer.message_id_counter := 2;
     MCPServer.pending_requests := [];
     MCPServer.tools := JArr (map tool names);
     MCPServer.reader_task := Some Running;
     MCPServer.futures := [FResult (response "52fdfc07" server_info);
                           FResult (response "2182654f" (listed names))];
     MCPServer.log := [LogFetched (List.length names); LogStarted] |}.

(** An error response, and two error objects: one with a message, one without. *)
Definition failure (request_id : string) (error : json) : json :=
  JObj [("jsonrpc", JStr "2.0"); ("id", JStr request_id); ("error", error)].

Definition unknown_tool : json :=
  JObj [("code", JInt (-32602)); ("message", JStr "Unknown tool: x")].

Definition bare_error : json := JObj [("code", JInt (-32603))].

(** The result of a [tools/call] whose content is one text entry. *)
Definition hello : json :=
  JObj [("content", JArr [JObj [("type", JStr "text"); ("text", JStr "hello")]])].

(** A request that no line answers before the timer expires. *)
Definition unanswered (request_id : string) : exchange :=
  {| request_id := request_id; drain_error := None; replies := []; late := [] |}.

(** A request answered by [response], after the lines [before]. *)
Definition answered (request_id : string) (before : list line) (response : json) : exchange :=
  {| request_id := request_id; drain_error := None;
     replies := before ++ [Message response]; late := [] |}.

(** A request that the child answers with [response] just after the timer
    has fired. *)
Definition answered_late (request_id : string) (response : json) : exchange :=
  {| request_id := request_id; drain_error := None;
     replies := []; late := [Message response] |}.

(** A request during which the child only writes a log line, a notification
    and the answer to some other request. *)
Definition chatter : exchange :=
  {| request_id := "9566c74d"; drain_error := None;
     replies := [Malformed "Server listening on stdio";
                 Message (JObj [("jsonrpc", JStr "2.0");
                                ("method", JStr "notifications/tools/list_changed")]);
                 reply "81855ad8" (JObj [])];
     late := [] |}.

(** A request whose bytes cannot be flushed: the child has closed its stdin. *)
Definition broken_pipe (request_id : string) : exchange :=
  {| request_id := request_id; drain_error := Some (OSError "Connection lost");
     replies := []; late := [] |}.

(** The session [started "A" "node" ["x"]] after a [tools/call] during which
    a line that is not UTF-8 arrived. *)
Definition deaf : MCPServer.t :=
  {| MCPServer.name := "A";
     MCPServer.command := JStr "node";
     MCPServer.args := JArr [JStr "server.js"];
     MCPServer.env := JObj [];
     MCPServer.timeout := JFloat 120%float;
     MCPServer.process :=
       Some {| stdin :=
                 [json_dumps (MCPServer.request "52fdfc07" "initialize" MCPServer.initialize_params)
                    ++ String "010" "";
                  json_dumps (MCPServer.notification "notifications/initialized" JNull)
                    ++ String "010" "";
                  json_dumps (MCPServer.request "2182654f" "tools/list" (JObj []))
                    ++ String "010" "";
                  json_dumps (MCPServer.request "9566c74d" "tools/call"
                                (JObj [("name", JStr "x"); ("arguments", JObj [])]))
                    ++ String "010" ""]%string;
               terminated := false; killed := false |};
     MCPServer.message_id_counter := 3;
     MCPServer.pending_requests := [];
     MCPServer.tools := JArr (map tool ["x"]);
     MCPServer.reader_task := Some Finished;
     MCPServer.futures := [FResult (response "52fdfc07" server_info);
                           FResult (response "2182654f" (listed ["x"]));
                           FCancelled];
     MCPServer.log := [LogFetched 1; LogStarted; LogReadError UnicodeDecodeError;
                       LogTimeout "tools/call"] |}.

Definition entry (command : string) : json :=
  JObj [("command", JStr command); ("args", JArr [JStr "server.js"])].

(** [{"mcpServers": {"B": ..., "A": ...}}] where B's command is not installed. *)
Definition config_AB : config_file :=
  Loaded (JObj [("mcpServers", JObj [("B", entry "nope"); ("A", entry "node")])]).

Definition world_AB (name : string) : launch :=
  if String.eqb name "A" then serving ["x"; "y"] else not_installed.

(** The registry [start_all] builds from [config_AB] in [world_AB]. *)
Definition registry_AB : MCPManager.t :=
  {| MCPManager.config_path := "mcp-config.json";
     MCPManager.servers := [("A", started "A" "node" ["x"; "y"])];
     MCPManager.log := [LogServerFailed "B" (FileNotFoundError "Command not found: nope");
                        LogConfigured "A"; LogStartedAll 1] |}.

(** Two servers that declare the same tool names. *)
Definition config_twins : config_file :=
  Loaded (JObj [("mcpServers", JObj [("fs", entry "node"); ("git", entry "uvx")])]).

Definition world_twins (name : string) : launch := serving ["read"; "status"].

Definition registry_twins : MCPManager.t :=
  {| MCPManager.config_path := "mcp-config.json";
     MCPManager.servers := [("fs", started "fs" "node" ["read"; "status"]);
                            ("git", started "git" "uvx" ["read"; "status"])];
     MCPManager.log := [LogConfigured "fs"; LogConfigured "git"; LogStartedAll 2] |}.

(** One server whose [tools/list] names the tool [x] twice. *)
Definition config_twice : config_file :=
  Loaded (JObj [("mcpServers", JObj [("A", entry "node")])]).

Definition world_twice (name : string) : launch := serving ["x"; "x"].

Definition registry_twice : MCPManager.t :=
  {| MCPManager.config_path := "mcp-config.json";
     MCPManager.servers := [("A", started "A" "node" ["x"; "x"])];
     MCPManager.log := [LogConfigured "A"; LogStartedAll 1] |}.

(** One server whose [tools/list] holds a tool without a name. *)
Definition registry_nameless : MCPManager.t :=
  {| MCPManager.config_path := "mcp-config.json";
     MCPManager.servers :=
       [("A", MCPServer.set_tools (JArr [JObj [("description", JStr "a tool")]])
                (started "A" "node" []))];
     MCPManager.log := [LogConfigured "A"; LogStartedAll 1] |}.

(** Two servers, [a_] declaring [x] and [a] declaring [_x]. *)
Definition config_clash : config_file :=
  Loaded (JObj [("mcpServers", JObj [("a_", entry "node"); ("a", entry "node")])]).

Definition world_clash (name : string) : launch :=
  if String.eqb name "a_" then serving ["x"] else serving ["_x"].

Definition registry_clash : MCPManager.t :=
  {| MCPManager.config_path := "mcp-config.json";
     MCPManager.servers := [("a_", started "a_" "node" ["x"]);
                            ("a", started "a" "node" ["_x"])];
     MCPManager.log := [LogConfigured "a_"; LogConfigured "a"; LogStartedAll 2] |}.

(** A child that is spawned and writes nothing at all. *)
Definition silent : launch :=
  {| spawned := Spawned;
     handshake := unanswered "52fdfc07";
     initialized_drain := None;
     listing := unanswered "2182654f" |}.

(** A child that answers [initialize] and nothing after it. *)
Definition listless : launch :=
  {| spawned := Spawned;
     handshake := answered "52fdfc07" [] (response "52fdfc07" server_info);
     initialized_drain := None;
     listing := unanswered "2182654f" |}.

(** The session object [start_all] makes for [entry command]. *)
Definition created (name command : string) : MCPServer.t :=
  MCPServer.init name (JStr command) (JArr [JStr "server.js"]) (JObj []) (JFloat 120%float).

(** A child that exits on [terminate()], and one that is gone already. *)
Definition graceful : shutdown := {| terminate_error := None; exits_in_time := true |}.

Definition gone : shutdown :=
  {| terminate_error := Some (OSError "No such process"); exits_in_time := true |}.

(** The session [started "A" "node" ["x"]] with two [tools/call] in flight. *)
Definition first_call : Loop.call :=
  {| Loop.call_id := "9566c74d"; Loop.call_method := "tools/call"; Loop.call_future := 2 |}.

Definition second_call : Loop.call :=
  {| Loop.call_id := "81855ad8"; Loop.call_method := "tools/call"; Loop.call_future := 3 |}.

Definition busy : MCPServer.t :=
  {| MCPServer.name := "A";
     MCPServer.command := JStr "node";
     MCPServer.args := JArr [JStr "server.js"];
     MCPServer.env := JObj [];
     MCPServer.timeout := JFloat 120%float;
     MCPServer.process :=
       Some {| stdin :=
                 [json_dumps (MCPServer.request "52fdfc07" "initialize" MCPServer.initialize_params)
                    ++ String "010" "";
                  json_dumps (MCPServer.notification "notifications/initialized" JNull)
                    ++ String "010" "";
                  json_dumps (MCPServer.request "2182654f" "tools/list" (JObj []))
                    ++ String "010" "";
                  json_dumps (MCPServer.request "9566c74d" "tools/call"
                                (JObj [("name", JStr "x"); ("arguments", JObj [])]))
                    ++ String "010" "";
                  json_dumps (MCPServer.request "81855ad8" "tools/call"
                                (JObj [("name", JStr "x"); ("arguments", JObj [])]))
                    ++ String "010" ""]%string;
               terminated := false; killed := false |};
     MCPServer.message_id_counter := 4;
     MCPServer.pending_requests := [("9566c74d", 2); ("81855ad8", 3)];
     MCPServer.tools := JArr (map tool ["x"]);
     MCPServer.reader_task := Some Running;
     MCPServer.futures := [FResult (response "52fdfc07" server_info);
                           FResult (response "2182654f" (listed ["x"]));
                           FPending; FPending];
     MCPServer.log := [LogFetched 1; LogStarted] |}.

Definition in_flight : Loop.t :=
  {| Loop.session := busy; Loop.waiting := [first_call; second_call] |}.

(** An entry of [get_tools]: the tool [name] of the server [server]. *)
Definition listed_tool (server name : string) : json :=
  JObj [("name", JStr (server ++ "__" ++ name)); ("description", JStr "a tool");
        ("inputSchema", JObj [("type", JStr "object")]);
        ("mcp_server", JStr server); ("original_name", JStr name)].

(** [str(e)] for the exceptions whose text the model keeps; [KeyError]
    shows the [repr] of its key. *)
Definition exception_text (e : exn) : string :=
  match e with
  | Exception msg | FileNotFoundError msg | OSError msg => msg
  | KeyError key => "'" ++ key ++ "'"
  | _ => "..."
  end.

(** The application after [startup_event] built [registry_AB]. *)
Definition app_AB : Main.t := {| Main.mcp_manager := Some registry_AB; Main.log := [] |}.

Definition app_nameless : Main.t :=
  {| Main.mcp_manager := Some registry_nameless; Main.log := [] |}.

End Demo.

(** * Facts about strings *)

Module StrFacts.
Import Str.

Lemma append_assoc (a b c : string) : ((a ++ b) ++ c = a ++ (b ++ c))%string.
Proof. induction a as [|x a IH]; simpl; [reflexivity | now rewrite IH]. Qed.

Lemma append_nil_r (a : string) : (a ++ "" = a)%string.
Proof. induction a as [|x a IH]; simpl; [reflexivity | now rewrite IH]. Qed.

Lemma length_append (a b : string) :
  String.length (a ++ b) = String.length a + String.length b.
Proof. induction a as [|x a IH]; simpl; [reflexivity | now rewrite IH]. Qed.

(** Two splits of one string at the same position are the same split. *)
Lemma append_same_length (a a' b b' : string) :
  (a ++ b = a' ++ b')%string -> String.length a = String.length a' -> a = a' /\ b = b'.
Proof.
  revert a'. induction a as [|x a IH]; intros [|y a'] H L; simpl in *; try discriminate.
  - now split.
  - injection H as -> H. destruct (IH a' H) as [-> ->]; [lia | now split].
Qed.

Lemma prefix_append (p s : string) : prefix p (p ++ s) = true.
Proof.
  induction p as [|x p IH]; simpl.
  - now destruct s.
  - destruct (ascii_dec x x); [exact IH | congruence].
Qed.

Lemma prefix_drop (p s : string) :
  prefix p s = true -> s = (p ++ drop (String.length p) s)%string.
Proof.
  revert s. induction p as [|x p IH]; intros s H; simpl.
  - reflexivity.
  - destruct s as [|y s]; simpl in H; [discriminate|].
    destruct (ascii_dec x y) as [->|]; [|discriminate].
    simpl. now rewrite <- IH.
Qed.

Lemma partition_eq (sep s : string) :
  partition sep s =
  if prefix sep s then Some (EmptyString, drop (String.length sep) s)
  else match s with
       | EmptyString => None
       | String c s' =>
           match partition sep s' with
           | Some (a, b) => Some (String c a, b)
           | None => None
           end
       end.
Proof. destruct s; reflexivity. Qed.

Lemma partition_sound (sep s a b : string) :
  partition sep s = Some (a, b) -> s = (a ++ sep ++ b)%string.
Proof.
  revert a b. induction s as [|c s IH]; intros a b; rewrite partition_eq.
  - destruct (prefix sep "") eqn:P; [|discriminate].
    intros [= <- <-]. now apply prefix_drop in P.
  - destruct (prefix sep (String c s)) eqn:P.
    + intros [= <- <-]. now apply prefix_drop in P.
    + destruct (partition sep s) as [[a0 b0]|]; [|discriminate].
      intros [= <- <-]. simpl. now rewrite <- (IH a0 b0).
Qed.

Lemma partition_leftmost (sep s a b : string) :
  partition sep s = Some (a, b) ->
  forall a' b', s = (a' ++ sep ++ b')%string -> String.length a <= String.length a'.
Proof.
  revert a b. induction s as [|c s IH]; intros a b; rewrite partition_eq.
  - destruct (prefix sep "") eqn:P; [|discriminate].
    intros [= <- <-] a' b' _. simpl. lia.
  - destruct (prefix sep (String c s)) eqn:P.
    + intros [= <- <-] a' b' _. simpl. lia.
    + destruct (partition sep s) as [[a0 b0]|] eqn:Q; [|discriminate].
      intros [= <- <-] a' b' E. destruct a' as [|x a'].
      * simpl in E. rewrite E, prefix_append in P. discriminate.
      * simpl in E. injection E as _ E. simpl.
        specialize (IH a0 b0 eq_refl a' b' E). lia.
Qed.

Lemma partition_complete (sep a b : string) :
  partition sep (a ++ sep ++ b) <> None.
Proof.
  induction a as [|c a IH]; rewrite partition_eq.
  - cbn [append]. rewrite prefix_append. discriminate.
  - cbn [append]. destruct (prefix sep (String c (a ++ sep ++ b))); [discriminate|].
    destruct (partition sep (a ++ sep ++ b)) as [[? ?]|]; [discriminate | contradiction].
Qed.

Theorem partition_spec (sep s a b : string) :
  partition sep s = Some (a, b) <-> first_split sep s a b.
Proof.
  split.
  - intros H. split; [exact (partition_sound _ _ _ _ H) | exact (partition_leftmost _ _ _ _ H)].
  - intros [E Min].
    destruct (partition sep s) as [[a0 b0]|] eqn:P.
    + pose proof (partition_sound _ _ _ _ P) as E0.
      pose proof (partition_leftmost _ _ _ _ P _ _ E) as L0.
      pose proof (Min _ _ E0) as L1.
      rewrite E in E0.
      destruct (append_same_length _ _ _ _ E0) as [-> E1]; [lia|].
      f_equal. f_equal.
      destruct (append_same_length _ _ _ _ E1 eq_refl) as [_ ->]. reflexivity.
    + exfalso. rewrite E in P. now apply partition_complete in P.
Qed.

Theorem contains_spec (sep s : string) :
  contains sep s = true <-> exists a b, s = (a ++ sep ++ b)%string.
Proof.
  unfold contains. split.
  - destruct (partition sep s) as [[a b]|] eqn:P; [|discriminate].
    intros _. exists a, b. exact (partition_sound _ _ _ _ P).
  - intros (a & b & ->).
    destruct (partition sep (a ++ sep ++ b)) eqn:P; [reflexivity|].
    now apply partition_complete in P.
Qed.

End StrFacts.

(** * Facts about dicts *)

Module DictFacts.
Section Facts.
Variable V : Type.
Implicit Types (d : dict V) (k : string) (v : V).

Lemma get_set_same d k v : Dict.get k (Dict.set k v d) = Some v.
Proof.
  induction d as [|[k' v'] d IH]; simpl.
  - now rewrite String.eqb_refl.
  - destruct (String.eqb k k') eqn:E; simpl; rewrite E; [reflexivity | exact IH].
Qed.

Lemma get_set_other d k k' v : k <> k' -> Dict.get k' (Dict.set k v d) = Dict.get k' d.
Proof.
  intros N. induction d as [|[k0 v0] d IH]; simpl.
  - apply String.eqb_neq in N. now rewrite String.eqb_sym, N.
  - destruct (String.eqb k k0) eqn:E; simpl.
    + apply String.eqb_eq in E. subst k0.
      apply String.eqb_neq in N. now rewrite String.eqb_sym, N.
    + now rewrite IH.
Qed.

Lemma get_remove_other d k k' : k <> k' -> Dict.get k' (Dict.remove k d) = Dict.get k' d.
Proof.
  intros N. induction d as [|[k0 v0] d IH]; simpl; [reflexivity|].
  destruct (String.eqb k k0) eqn:E; simpl.
  - apply String.eqb_eq in E. subst k0.
    apply String.eqb_neq in N. now rewrite String.eqb_sym, N.
  - now rewrite IH.
Qed.

Lemma get_In d k v : Dict.get k d = Some v -> In (k, v) d.
Proof.
  induction d as [|[k0 v0] d IH]; simpl; [discriminate|].
  destruct (String.eqb k k0) eqn:E.
  - apply String.eqb_eq in E. intros [= ->]. left. now subst.
  - intros H. right. now apply IH.
Qed.

Lemma get_None d k : Dict.get k d = None <-> ~ In k (Dict.keys d).
Proof.
  induction d as [|[k0 v0] d IH]; simpl.
  - tauto.
  - destruct (String.eqb k k0) eqn:E.
    + apply String.eqb_eq in E. subst. split; [discriminate | intros N; exfalso; apply N; now left].
    + apply String.eqb_neq in E. rewrite IH. split.
      * intros N [->|I]; [now apply E | now apply N].
      * intros N I. apply N. now right.
Qed.

Lemma In_get d k v : Dict.wf d -> In (k, v) d -> Dict.get k d = Some v.
Proof.
  unfold Dict.wf. induction d as [|[k0 v0] d IH]; simpl; [tauto|].
  intros W [[= -> ->]|I].
  - now rewrite String.eqb_refl.
  - inversion W as [|? ? N W']; subst.
    destruct (String.eqb k k0) eqn:E.
    + apply String.eqb_eq in E. subst k0. exfalso. apply N.
      change (In (fst (k, v)) (map fst d)). now apply in_map.
    + now apply IH.
Qed.

Lemma get_remove_same d k : Dict.wf d -> Dict.get k (Dict.remove k d) = None.
Proof.
  unfold Dict.wf. induction d as [|[k0 v0] d IH]; simpl; [reflexivity|].
  intros W. inversion W as [|? ? N W']; subst.
  destruct (String.eqb k k0) eqn:E; simpl.
  - apply String.eqb_eq in E. subst k0. now apply get_None.
  - rewrite E. now apply IH.
Qed.

Lemma keys_set d k v :
  Dict.keys (Dict.set k v d) =
  if Dict.mem k d then Dict.keys d else Dict.keys d ++ [k].
Proof.
  unfold Dict.mem. induction d as [|[k0 v0] d IH]; simpl; [reflexivity|].
  destruct (String.eqb k k0) eqn:E; simpl; [reflexivity|].
  rewrite IH. now destruct (Dict.get k d).
Qed.

Lemma wf_set d k v : Dict.wf d -> Dict.wf (Dict.set k v d).
Proof.
  unfold Dict.wf. rewrite keys_set. unfold Dict.mem.
  destruct (Dict.get k d) eqn:G; [easy|].
  intros W. apply get_None in G.
  apply NoDup_app; [assumption | repeat constructor; simpl; tauto |].
  intros x I [<-|[]]. now apply G.
Qed.

Lemma In_remove d k k' v : In (k', v) (Dict.remove k d) -> In (k', v) d.
Proof.
  induction d as [|[k0 v0] d IH]; simpl; [tauto|].
  destruct (String.eqb k k0); simpl; [tauto|].
  intros [E|I]; [now left | right; now apply IH].
Qed.

Lemma wf_remove d k : Dict.wf d -> Dict.wf (Dict.remove k d).
Proof.
  unfold Dict.wf. induction d as [|[k0 v0] d IH]; simpl; [easy|].
  intros W. inversion W as [|? ? N W']; subst.
  destruct (String.eqb k k0); simpl; [assumption|].
  constructor; [|now apply IH].
  intros I. apply N. apply in_map_iff in I as ([k1 v1] & E & I). simpl in E. subst k1.
  apply In_remove in I. change (In (fst (k0, v1)) (map fst d)). now apply in_map.
Qed.

End Facts.
End DictFacts.

(** * The demonstration registries are what [start_all] builds *)

Lemma registry_AB_built :
  MCPManager.start_all Demo.config_AB Demo.world_AB (MCPManager.init "mcp-config.json")
  = (Demo.registry_AB, Ok tt).
Proof. vm_compute. reflexivity. Qed.

Lemma registry_twins_built :
  MCPManager.start_all Demo.config_twins Demo.world_twins (MCPManager.init "mcp-config.json")
  = (Demo.registry_twins, Ok tt).
Proof. vm_compute. reflexivity. Qed.

Lemma registry_twice_built :
  MCPManager.start_all Demo.config_twice Demo.world_twice (MCPManager.init "mcp-config.json")
  = (Demo.registry_twice, Ok tt).
Proof. vm_compute. reflexivity. Qed.

Lemma registry_clash_built :
  MCPManager.start_all Demo.config_clash Demo.world_clash (MCPManager.init "mcp-config.json")
  = (Demo.registry_clash, Ok tt).
Proof. vm_compute. reflexivity. Qed.

(** * Routing by qualified name: [MCPManager.call_tool] *)

Section Routing.
Context {B : Builtins}.
Import MCPManager.

Lemma no_delimiter (sep s : string) :
  (forall a b, s <> (a ++ sep ++ b)%string) <-> Str.contains sep s = false.
Proof.
  split.
  - intros N. destruct (Str.contains sep s) eqn:C; [|reflexivity].
    apply StrFacts.contains_spec in C as (a & b & E). now apply N in E.
  - intros C a b E.
    assert (Str.contains sep s = true) by (apply StrFacts.contains_spec; eauto).
    congruence.
Qed.

Lemma call_tool_partition (m : t) (tool_name a b : string) (arguments : json) (x : exchange) :
  Str.partition "__" tool_name = Some (a, b) ->
  call_tool tool_name arguments x m =
  match Dict.get a (servers m) with
  | None => (m, Ok (server_not_found a))
  | Some server =>
      (set_servers
         (Dict.set a (fst (MCPServer.call_tool b arguments x server)) (servers m)) m,
       snd (MCPServer.call_tool b arguments x server))
  end.
Proof.
  intros P. unfold call_tool, Str.contains, Str.split1. rewrite P. simpl.
  destruct (Dict.get a (servers m)) as [server|]; [|reflexivity].
  now destruct (MCPServer.call_tool b arguments x server).
Qed.

Lemma call_tool_without_delimiter (m : t) (tool_name : string) (arguments : json) (x : exchange) :
  Str.contains "__" tool_name = false ->
  call_tool tool_name arguments x m = (m, Ok (invalid_tool_name tool_name)).
Proof. intros C. unfold call_tool. now rewrite C. Qed.



End Routing.



(** * Invariants of computations in [M] *)

Section Preserves.
Context {S : Type} (P : S -> Prop).

Lemma preserves_ret {A} (a : A) : preserves P (ret a).
Proof. now intros s. Qed.

Lemma preserves_raise {A} (e : exn) : preserves P (@raise S A e).
Proof. now intros s. Qed.

Lemma preserves_lift {A} (r : result A) : preserves P (lift r).
Proof. now intros s. Qed.

Lemma preserves_gets {A} (f : S -> A) : preserves P (gets f).
Proof. now intros s. Qed.

Lemma preserves_modify (f : S -> S) :
  (forall s, P s -> P (f s)) -> preserves P (modify f).
Proof. intros H s. apply H. Qed.

Lemma preserves_bind {A C} (c : M S A) (k : A -> M S C) :
  preserves P c -> (forall a, preserves P (k a)) -> preserves P (bind c k).
Proof.
  intros Hc Hk s Ps. unfold bind. specialize (Hc s Ps).
  destruct (c s) as [s' [a|e]]; simpl in *; [now apply Hk | assumption].
Qed.

Lemma preserves_catch {A} (c : M S A) (h : exn -> M S A) :
  preserves P c -> (forall e, preserves P (h e)) -> preserves P (catch c h).
Proof.
  intros Hc Hh s Ps. unfold catch. specialize (Hc s Ps).
  destruct (c s) as [s' [a|e]]; simpl in *; [assumption | now apply Hh].
Qed.

Lemma preserves_for_each {X} (xs : list X) (body : X -> M S unit) :
  (forall x, preserves P (body x)) -> preserves P (for_each xs body).
Proof.
  intros H. induction xs as [|x xs IH]; simpl.
  - apply preserves_ret.
  - apply preserves_bind; [apply H | intros _; exact IH].
Qed.

Lemma preserves_if {A} (b : bool) (c1 c2 : M S A) :
  preserves P c1 -> preserves P c2 -> preserves P (if b then c1 else c2).
Proof. now destruct b. Qed.

End Preserves.

(** * A session keeps the fields [__init__] was given *)

Section Configured.
Context {B : Builtins}.
Import MCPServer.

Variable P : t -> Prop.
Hypothesis P_framed : framed P.

Ltac frame := intros; eapply P_framed; [|eassumption]; reflexivity.

Ltac step :=
  lazymatch goal with
  | |- preserves _ (ret _) => apply preserves_ret
  | |- preserves _ (raise _) => apply preserves_raise
  | |- preserves _ (lift _) => apply preserves_lift
  | |- preserves _ (gets _) => apply preserves_gets
  | |- preserves _ (modify _) => apply preserves_modify; frame
  | |- preserves _ (bind _ _) => apply preserves_bind; [|intros ?]
  | |- preserves _ (catch _ _) => apply preserves_catch; [|intros ?]
  | |- preserves _ (if _ then _ else _) => apply preserves_if
  end.

Lemma framed_new_future : preserves P new_future.
Proof. intros s Ps. simpl. revert Ps. frame. Qed.

Lemma framed_set_result fut message : preserves P (set_result fut message).
Proof.
  intros s Ps. unfold set_result. destruct (future_state fut s); simpl; try assumption.
  revert Ps. frame.
Qed.

Lemma framed_cancel fut s : P s -> P (cancel fut s).
Proof. unfold cancel. destruct (future_state fut s); try easy. frame. Qed.

Lemma framed_pending_pop idv : preserves P (pending_pop idv).
Proof.
  intros s Ps. unfold pending_pop. destruct idv; simpl; try assumption.
  destruct (Dict.get s0 (pending_requests s)); simpl; [|assumption].
  revert Ps. frame.
Qed.

Lemma framed_handle_message message : preserves P (handle_message message).
Proof.
  unfold handle_message. repeat step;
    first [ now intros s | apply framed_pending_pop | apply framed_set_result ].
Qed.

Lemma framed_reader_dies e s : P s -> P (reader_dies e s).
Proof. frame. Qed.

Lemma framed_read_line l s : P s -> P (read_line l s).
Proof.
  intros Ps. unfold read_line. destruct (reader_task s) as [[]|]; try assumption.
  destruct l; try (revert Ps; frame).
  pose proof (framed_handle_message message s Ps) as H.
  destruct (handle_message message s) as [s' [|e]]; simpl in H; [assumption|].
  now apply framed_reader_dies.
Qed.

Lemma framed_wait_for fut arriving s : P s -> P (fst (wait_for fut arriving s)).
Proof.
  revert s. induction arriving as [|l ls IH]; intros s Ps; simpl.
  - destruct (future_state fut s); simpl; try assumption; now apply framed_cancel.
  - destruct (future_state fut s); simpl; try assumption;
      apply IH; now apply framed_read_line.
Qed.

Lemma framed_running : preserves P running.
Proof. intros s Ps. unfold running. now destruct (process s). Qed.

Lemma framed_stdin_write data : preserves P (stdin_write data).
Proof.
  intros s Ps. unfold stdin_write. destruct (process s); simpl; [|assumption].
  revert Ps. frame.
Qed.

Lemma framed_stdin_drain error : preserves P (stdin_drain error).
Proof. destruct error; simpl; step. Qed.

Lemma framed_pending_del request_id : preserves P (pending_del request_id).
Proof.
  intros s Ps. unfold pending_del.
  destruct (Dict.get request_id (pending_requests s)); simpl; [|assumption].
  revert Ps. frame.
Qed.

Lemma framed_submit request_id method params :
  preserves P (submit request_id method params).
Proof.
  unfold submit, register.
  repeat step;
    first [apply framed_running | apply framed_new_future | apply framed_stdin_write].
Qed.

Lemma framed_read_lines ls s : P s -> P (read_lines ls s).
Proof.
  revert s. induction ls as [|l ls IH]; intros s Ps; [assumption|].
  apply IH. now apply framed_read_line.
Qed.

Lemma framed_await_response request_id method fut arriving late :
  preserves P (await_response request_id method fut arriving late).
Proof.
  intros s Ps. unfold await_response.
  pose proof (framed_wait_for fut arriving s Ps) as H.
  destruct (wait_for fut arriving s) as [s' [response|]]; simpl in *; [assumption|].
  apply (framed_read_lines late) in H. revert H. generalize (read_lines late s').
  change (preserves P (pending_del request_id ;;;
                       modify (logger (LogTimeout method)) ;;; gets timeout_error)).
  repeat step. apply framed_pending_del.
Qed.

Lemma framed_send_request method params x : preserves P (_send_request method params x).
Proof.
  unfold _send_request.
  repeat step;
    first [apply framed_submit | apply framed_stdin_drain | apply framed_await_response].
Qed.

Lemma framed_send_notification method params drain :
  preserves P (_send_notification method params drain).
Proof.
  unfold _send_notification.
  repeat step.
  - apply framed_running.
  - apply framed_stdin_write.
  - apply framed_stdin_drain.
Qed.

Lemma framed_fetch_tools x : preserves P (_fetch_tools x).
Proof.
  unfold _fetch_tools. repeat step. apply framed_send_request.
Qed.

Lemma framed_initialize l : preserves P (_initialize l).
Proof.
  unfold _initialize.
  repeat step;
    first [apply framed_send_request | apply framed_send_notification | apply framed_fetch_tools].
Qed.

Lemma framed_start l : preserves P (start l).
Proof.
  unfold start. step.
  - destruct (spawned l); repeat step;
      first [now intros s | apply framed_initialize].
  - repeat step.
Qed.

Lemma framed_call_tool tool_name arguments x :
  preserves P (call_tool tool_name arguments x).
Proof.
  unfold call_tool. repeat step. apply framed_send_request.
Qed.

Lemma framed_stop d : preserves P (stop d).
Proof.
  unfold stop. step.
  - apply preserves_modify. intros s Ps.
    destruct (reader_task s) as [[]|]; try assumption. revert Ps. frame.
  - intros s Ps. destruct (process s); simpl; [|assumption].
    destruct (terminate_error d); simpl; [assumption|]. revert Ps. frame.
Qed.

End Configured.

(** * Qualified names: [get_tools] and [get_all_tools] *)

Module NameFacts.
Import Str StrFacts.

Lemma append_cancel_r (a a' c : string) : (a ++ c = a' ++ c)%string -> a = a'.
Proof.
  intros E. apply (append_same_length a a' c c E).
  apply (f_equal String.length) in E. rewrite !length_append in E. lia.
Qed.

Lemma append_cancel_l (a c c' : string) : (a ++ c = a ++ c')%string -> c = c'.
Proof. intros E. now apply (append_same_length a a c c' E). Qed.

Lemma prefix_delimiter (c : ascii) (k rest rest' : string) :
  prefix "__" (String c (k ++ String "_" rest)) =
  prefix "__" (String c (k ++ String "_" rest')).
Proof.
  assert (N : forall s, prefix "" s = true) by now intros [|? ?].
  destruct k as [|c' k]; cbn [append prefix]; now rewrite ?N.
Qed.

(** After a separable server name, the first delimiter of the qualified name
    is the one [get_tools] put there. *)
Lemma partition_separable (k n : string) :
  separable k = true -> partition "__" (k ++ "__" ++ n) = Some (k, n).
Proof.
  unfold separable, contains. intros S. apply negb_true_iff in S.
  induction k as [|c k IH].
  - change ("" ++ "__" ++ n)%string with ("__" ++ n)%string.
    rewrite partition_eq. now rewrite prefix_append.
  - rewrite partition_eq in S. cbn [append] in S.
    rewrite partition_eq. cbn [append].
    change ("__" ++ n)%string with (String "_" (String "_" n)).
    change (k ++ "_")%string with (k ++ String "_" "")%string in S.
    rewrite (prefix_delimiter c k (String "_" n) "").
    destruct (prefix "__" (String c (k ++ String "_" ""))); [discriminate|].
    destruct (partition "__" (k ++ String "_" "")) as [[? ?]|] eqn:Q; [discriminate|].
    change (String "_" (String "_" n)) with ("__" ++ n)%string.
    now rewrite IH.
Qed.

Lemma qualified_injective (k k' n n' : string) :
  separable k = true -> separable k' = true ->
  (k ++ "__" ++ n = k' ++ "__" ++ n')%string -> k = k' /\ n = n'.
Proof.
  intros S S' E.
  pose proof (partition_separable k n S) as P.
  rewrite E, (partition_separable k' n' S') in P.
  injection P as -> ->. now split.
Qed.

End NameFacts.

Section Catalogue.
Context {B : Builtins}.
Import MCPServer.

(** What one round of the loop of [get_tools] makes of a tool: the tool is a
    dict with a name, and the entry is that dict with three fields set. *)
Lemma prefix_tool_fields (server : string) (tool entry : json) :
  prefix_tool server tool = Ok entry ->
  exists original,
    qualified_name entry = Some (JStr (server ++ "__" ++ py_format original)) /\
    Py.getitem entry "mcp_server" = Ok (JStr server) /\
    Py.getitem entry "original_name" = Ok original /\
    Py.getitem tool "name" = Ok original.
Proof.
  unfold prefix_tool. destruct tool as [| | | | | |d]; try discriminate.
  simpl. destruct (Dict.get "name" d) as [original|]; [|discriminate].
  simpl. intros [= <-]. exists original. simpl.
  rewrite !DictFacts.get_set_same.
  rewrite !DictFacts.get_set_other by discriminate.
  rewrite !DictFacts.get_set_same.
  rewrite !DictFacts.get_set_other by discriminate.
  rewrite !DictFacts.get_set_same. repeat split.
Qed.

Lemma prefix_tool_declared (server : string) (tool : json) (n : string) :
  declared_name tool = Some n ->
  exists entry,
    prefix_tool server tool = Ok entry /\
    qualified_name entry = Some (JStr (server ++ "__" ++ n)).
Proof.
  unfold declared_name. destruct tool as [| | | | | |d]; try discriminate.
  destruct (Dict.get "name" d) as [[| | | |n'| |]|] eqn:G; try discriminate.
  intros [= ->].
  destruct (prefix_tool server (JObj d)) as [entry|e] eqn:P.
  - exists entry. split; [reflexivity|].
    destruct (prefix_tool_fields _ _ _ P) as (original & Q & _ & _ & O).
    simpl in O. rewrite G in O. injection O as <-.
    now rewrite py_format_str in Q.
  - unfold prefix_tool in P. simpl in P. rewrite G in P. discriminate.
Qed.

Lemma prefix_tools_declared (server : string) (listed : list json) (names : list string) :
  declared_names listed = Some names ->
  exists entries,
    prefix_tools server listed = Ok entries /\
    map qualified_name entries = map (fun n => Some (JStr (server ++ "__" ++ n))) names.
Proof.
  revert names. induction listed as [|tool rest IH]; intros names; simpl.
  - intros [= <-]. now exists [].
  - destruct (declared_name tool) as [n|] eqn:D; [|discriminate].
    destruct (declared_names rest) as [ns|]; [|discriminate].
    intros [= <-].
    destruct (prefix_tool_declared server tool _ D) as (entry & -> & Q).
    destruct (IH ns eq_refl) as (entries & -> & Qs).
    exists (entry :: entries). simpl. now rewrite Q, Qs.
Qed.

Lemma get_tools_catalogue (s : t) (names : list string) :
  catalogue s = Some names ->
  exists entries,
    get_tools s = Ok entries /\
    map qualified_name entries = map (fun n => Some (JStr (name s ++ "__" ++ n))) names.
Proof.
  unfold catalogue, get_tools. destruct (tools s); try discriminate.
  simpl. apply prefix_tools_declared.
Qed.

Lemma prefix_tools_In (server : string) (listed entries : list json) (entry : json) :
  prefix_tools server listed = Ok entries -> In entry entries ->
  exists tool, prefix_tool server tool = Ok entry.
Proof.
  revert entries. induction listed as [|tool rest IH]; intros entries; simpl.
  - intros [= <-] [].
  - destruct (prefix_tool server tool) as [e|] eqn:P; [|discriminate]. simpl.
    destruct (prefix_tools server rest) as [es|]; [|discriminate]. simpl.
    intros [= <-] [<-|I]; [now exists tool | now apply (IH es)].
Qed.

Lemma get_tools_In (s : t) (entries : list json) (entry : json) :
  get_tools s = Ok entries -> In entry entries ->
  exists tool, prefix_tool (name s) tool = Ok entry.
Proof.
  unfold get_tools. destruct (Py.iter (tools s)) as [listed|]; [|discriminate].
  simpl. apply prefix_tools_In.
Qed.

End Catalogue.

Section AllTools.
Context {B : Builtins}.
Import MCPManager.

Lemma extend_all_In (sessions : list MCPServer.t) (acc all_tools : list json) (entry : json) :
  extend_all sessions acc = Ok all_tools -> In entry all_tools ->
  In entry acc \/
  exists server tool, In server sessions /\
    MCPServer.prefix_tool (MCPServer.name server) tool = Ok entry.
Proof.
  revert acc. induction sessions as [|server rest IH]; intros acc; simpl.
  - intros [= <-]. now left.
  - destruct (MCPServer.get_tools server) as [prefixed|] eqn:G; [|discriminate]. simpl.
    intros E I. destruct (IH _ E I) as [I'|(server' & tool & I' & P)].
    + apply in_app_or in I' as [I'|I']; [now left|]. right.
      destruct (get_tools_In _ _ _ G I') as (tool & P).
      exists server, tool. split; [now left | assumption].
    + right. exists server', tool. split; [now right | assumption].
Qed.

Lemma extend_all_catalogues (sessions : list MCPServer.t) (acc : list json) :
  Forall (fun server => catalogue server <> None) sessions ->
  exists all_tools,
    extend_all sessions acc = Ok (acc ++ all_tools) /\
    map qualified_name all_tools = names_of sessions.
Proof.
  intros F. revert acc. induction F as [|server rest C F IH]; intros acc.
  - exists []. simpl. now rewrite app_nil_r.
  - destruct (catalogue server) as [names|] eqn:E; [|contradiction].
    cbn [extend_all].
    destruct (get_tools_catalogue server _ E) as (entries & -> & Q). cbn [rbind].
    destruct (IH (acc ++ entries)) as (more & -> & Qs).
    exists (entries ++ more). rewrite app_assoc. split; [reflexivity|].
    unfold names_of in *. cbn [flat_map]. now rewrite map_app, Q, Qs, E.
Qed.

Lemma names_of_distinct (sessions : list MCPServer.t) :
  NoDup (map MCPServer.name sessions) ->
  Forall (fun server => separable (MCPServer.name server) = true) sessions ->
  Forall (fun server => forall names, catalogue server = Some names -> NoDup names) sessions ->
  NoDup (names_of sessions).
Proof.
  induction sessions as [|server rest IH]; simpl; intros N S C.
  - constructor.
  - inversion N as [|? ? Nh Nt]; subst.
    inversion S as [|? ? Sh St]; subst. inversion C as [|? ? Ch Ct]; subst.
    apply NoDup_app.
    + destruct (catalogue server) as [names|]; [|constructor].
      apply Injective_map_NoDup; [|now apply Ch].
      intros n n' [= E]. apply NameFacts.append_cancel_l in E. now injection E.
    + now apply IH.
    + intros q I I'. apply in_map_iff in I as (n & <- & _).
      unfold names_of in I'. apply in_flat_map in I' as (server' & R & I').
      apply in_map_iff in I' as (n' & [= E] & _).
      rewrite Forall_forall in St.
      destruct (NameFacts.qualified_injective _ _ _ _ (St _ R) Sh E) as [E' _].
      apply Nh. rewrite <- E'. now apply in_map.
Qed.

End AllTools.

Section Distinct.
Context {B : Builtins}.
Import MCPManager.

Lemma registry_names (m : t) :
  registry_ok m ->
  map MCPServer.name (Dict.values (servers m)) = Dict.keys (servers m).
Proof.
  intros [_ K]. unfold Dict.values, Dict.keys.
  induction (servers m) as [|[key server] d IH]; simpl; [reflexivity|].
  rewrite (K key server) by now left.
  rewrite IH; [reflexivity|]. intros k s I. apply K. now right.
Qed.

(** C1, as the code has it.  With the registry [start_all] built: when every
    server name is separable (no ["__"] in it, no ["_"] at its end) and every
    session's catalogue is a list of tools with str names, each name once,
    [get_all_tools] returns and the qualified names of its entries are
    pairwise distinct.  And whatever the names are: two entries that come
    from different servers and have the same original name never have the
    same qualified name. *)
Theorem qualified_names_distinct (m : t) :
  registry_ok m ->
  ((forall key server, In (key, server) (servers m) ->
      separable key = true /\
      exists names, catalogue server = Some names /\ NoDup names) ->
   exists all_tools,
     get_all_tools m = Ok all_tools /\ NoDup (map qualified_name all_tools))
  /\
  (forall all_tools e1 e2,
     get_all_tools m = Ok all_tools -> In e1 all_tools -> In e2 all_tools ->
     Py.getitem e1 "mcp_server" <> Py.getitem e2 "mcp_server" ->
     Py.getitem e1 "original_name" = Py.getitem e2 "original_name" ->
     qualified_name e1 <> qualified_name e2).
Proof.
  intros R. split.
  - intros H. unfold get_all_tools.
    assert (F : Forall (fun server => catalogue server <> None) (Dict.values (servers m))).
    { apply Forall_forall. intros server I.
      apply in_map_iff in I as ([key s] & E & I). simpl in E. subst s.
      destruct (H _ _ I) as (_ & names & -> & _). discriminate. }
    destruct (extend_all_catalogues _ [] F) as (all_tools & E & Q).
    exists all_tools. split; [exact E|]. rewrite Q.
    apply names_of_distinct.
    + rewrite (registry_names _ R). apply R.
    + apply Forall_forall. intros server I.
      apply in_map_iff in I as ([key s] & E' & I). simpl in E'. subst s.
      destruct R as [_ K]. rewrite (K _ _ I). now destruct (H _ _ I).
    + apply Forall_forall. intros server I names C.
      apply in_map_iff in I as ([key s] & E' & I). simpl in E'. subst s.
      destruct (H _ _ I) as (_ & names' & C' & N). congruence.
  - intros all_tools e1 e2 E I1 I2 D O Q. unfold get_all_tools in E.
    destruct (extend_all_In _ _ _ _ E I1) as [[]|(s1 & t1 & _ & P1)].
    destruct (extend_all_In _ _ _ _ E I2) as [[]|(s2 & t2 & _ & P2)].
    destruct (prefix_tool_fields _ _ _ P1) as (o1 & Q1 & M1 & O1 & _).
    destruct (prefix_tool_fields _ _ _ P2) as (o2 & Q2 & M2 & O2 & _).
    rewrite O1, O2 in O. injection O as ->.
    rewrite Q1, Q2 in Q. injection Q as Q.
    apply NameFacts.append_cancel_r in Q.
    apply D. now rewrite M1, M2, Q.
Qed.

End Distinct.

Lemma qualified_names_distinct_witness :
  exists all_tools,
    MCPManager.get_all_tools Demo.registry_twins = Ok all_tools /\
    NoDup (map qualified_name all_tools).
Proof.
  assert (R : registry_ok Demo.registry_twins).
  { split.
    - unfold Dict.wf. simpl. repeat constructor; simpl; intuition discriminate.
    - intros key server I.
      destruct I as [[= <- <-]|[[= <- <-]|[]]]; reflexivity. }
  apply (proj1 (qualified_names_distinct Demo.registry_twins R)).
  intros key server I.
  destruct I as [[= <- <-]|[[= <- <-]|[]]].
  - split; [reflexivity|]. exists ["read"; "status"]. split; [reflexivity|].
    repeat constructor; simpl; intuition discriminate.
  - split; [reflexivity|]. exists ["read"; "status"]. split; [reflexivity|].
    repeat constructor; simpl; intuition discriminate.
Defined.

(** C1 as stated fails.  The servers [a_] and [a], declaring [x] and [_x],
    both get the qualified name [a___x]; and a server whose catalogue names
    [x] twice gets [A__x] twice. *)
Lemma qualified_names_clash :
  (exists all_tools,
     MCPManager.get_all_tools Demo.registry_clash = Ok all_tools /\
     map qualified_name all_tools = [Some (JStr "a___x"); Some (JStr "a___x")] /\
     ~ NoDup (map qualified_name all_tools))
  /\
  (exists all_tools,
     MCPManager.get_all_tools Demo.registry_twice = Ok all_tools /\
     map qualified_name all_tools = [Some (JStr "A__x"); Some (JStr "A__x")] /\
     ~ NoDup (map qualified_name all_tools)).
Proof.
  split; (eexists; split; [vm_compute; reflexivity|]; split; [reflexivity|]);
    intros N; inversion N as [|? ? H _]; apply H; now left.
Qed.

(** * The registry invariant *)

Section Registry.
Context {B : Builtins}.
Import MCPManager.

Lemma In_set {V} (d : dict V) (k k' : string) (v v' : V) :
  In (k', v') (Dict.set k v d) -> (k' = k /\ v' = v) \/ In (k', v') d.
Proof.
  induction d as [|[k0 v0] d IH]; simpl.
  - intros [[= <- <-]|[]]. now left.
  - destruct (String.eqb k k0) eqn:E; simpl.
    + apply String.eqb_eq in E. subst k0.
      intros [[= <- <-]|I]; [now left | right; now right].
    + intros [E'|I]; [right; now left|].
      destruct (IH I) as [?|?]; [now left | right; now right].
Qed.

Lemma registry_ok_set (m : t) (key : string) (server : MCPServer.t) :
  registry_ok m -> MCPServer.name server = key ->
  registry_ok (set_servers (Dict.set key server (servers m)) m).
Proof.
  intros [W K] N. split; simpl.
  - now apply DictFacts.wf_set.
  - intros k s I. apply In_set in I as [[-> ->]|I]; [assumption | now apply K].
Qed.

Lemma registry_ok_logger (r : manager_log) (m : t) : registry_ok m -> registry_ok (logger r m).
Proof. now intros [W K]. Qed.

Lemma init_registry_ok (path : string) : registry_ok (init path).
Proof. split; [constructor | intros ? ? []]. Qed.

Lemma name_framed (n : string) : framed (fun s => MCPServer.name s = n).
Proof. intros s s' E H. unfold MCPServer.configured in E. congruence. Qed.

Lemma build_name (name : string) (server_config : json) (l : launch) (server : MCPServer.t) :
  build name server_config l = Ok server -> MCPServer.name server = name.
Proof.
  unfold build.
  destruct (Py.get server_config "timeout" _) as [timeout|]; [|discriminate].
  destruct (Py.getitem server_config "command") as [command|]; [|discriminate].
  destruct (Py.get server_config "args" _) as [args|]; [|discriminate].
  destruct (Py.get server_config "env" _) as [env|]; [|discriminate]. simpl.
  pose proof (framed_start _ (name_framed name) l
                (MCPServer.init name command args env timeout) eq_refl) as N.
  destruct (MCPServer.start l (MCPServer.init name command args env timeout))
    as [server' [|e]]; [|discriminate].
  now intros [= <-].
Qed.

Lemma start_entry_registry_ok (name : string) (server_config : json) (l : launch) :
  preserves registry_ok (start_entry name server_config l).
Proof.
  intros m R. unfold start_entry, bind, lift, modify.
  destruct (build name server_config l) as [server|e] eqn:E; [|assumption]. simpl.
  apply registry_ok_logger, registry_ok_set; [assumption|].
  now apply (build_name _ _ _ _ E).
Qed.

Lemma start_all_registry_ok (file : config_file) (world : string -> launch) :
  preserves registry_ok (start_all file world).
Proof.
  unfold start_all.
  destruct file; try (apply preserves_modify; intros m; apply registry_ok_logger);
    [apply preserves_raise|].
  apply preserves_catch;
    [|intros e; apply preserves_modify; intros m; apply registry_ok_logger].
  repeat (apply preserves_bind; [try apply preserves_lift | intros ?]).
  - apply preserves_for_each. intros [name server_config].
    apply preserves_catch; [apply start_entry_registry_ok|].
    intros e. apply preserves_modify. intros m. apply registry_ok_logger.
  - apply preserves_modify. intros m. apply registry_ok_logger.
Qed.

Lemma call_tool_registry_ok (tool_name : string) (arguments : json) (x : exchange) :
  preserves registry_ok (call_tool tool_name arguments x).
Proof.
  intros m R. unfold call_tool.
  destruct (negb (Str.contains "__" tool_name)); [assumption|].
  destruct (Str.split1 "__" tool_name) as [|a [|b [|? ?]]]; try assumption.
  destruct (Dict.get a (servers m)) as [server|] eqn:G; [|assumption].
  pose proof (framed_call_tool _ (name_framed a) b arguments x server) as N.
  destruct (MCPServer.call_tool b arguments x server) as [server' r]. simpl in *.
  apply registry_ok_set; [assumption|]. apply N.
  destruct R as [_ K]. apply K. now apply DictFacts.get_In.
Qed.

Lemma stop_each_registry_ok (names : list string) (world : string -> shutdown) :
  preserves registry_ok (stop_each names world).
Proof.
  induction names as [|name rest IH]; simpl.
  - apply preserves_ret.
  - apply preserves_bind; [|intros _; exact IH].
    intros m R. destruct (Dict.get name (servers m)) as [server|] eqn:G; [|assumption].
    pose proof (framed_stop _ (name_framed name) (world name) server) as N.
    destruct (MCPServer.stop (world name) server) as [server' r]. simpl in *.
    apply registry_ok_set; [assumption|]. apply N.
    destruct R as [_ K]. apply K. now apply DictFacts.get_In.
Qed.

Lemma stop_all_registry_ok (world : string -> shutdown) :
  preserves registry_ok (stop_all world).
Proof.
  unfold stop_all.
  apply preserves_bind; [apply preserves_gets | intros names].
  apply preserves_bind; [apply stop_each_registry_ok | intros _].
  apply preserves_modify. intros m _. apply (init_registry_ok (config_path m)).
Qed.

End Registry.

(** * The result of a tool call: [MCPServer.call_tool] *)

Section CallTool.
Context {B : Builtins}.
Import MCPServer.

Lemma strs_texts (texts : list string) : Py.strs (map JStr texts) = Ok texts.
Proof. induction texts as [|t ts IH]; simpl; [reflexivity | now rewrite IH]. Qed.

Lemma text_not_image (k : json) : Py.eq_str k "text" = true -> Py.eq_str k "image" = false.
Proof.
  destruct k; try discriminate. simpl. intros E.
  apply String.eqb_eq in E. now subst.
Qed.

(** The loop of [call_tool] sorts the entries as the specification says. *)
Lemma scan_content_refines (content text_parts images : list json) :
  CallResult.well_formed content = true ->
  scan_content content text_parts images =
  Ok (text_parts ++ map JStr (CallResult.texts content),
      images ++ CallResult.images content).
Proof.
  revert text_parts images.
  induction content as [|item rest IH]; intros text_parts images W.
  - simpl. now rewrite !app_nil_r.
  - simpl in W. apply andb_true_iff in W as [Wi W].
    destruct item as [| | | | | |d]; try discriminate.
    unfold CallResult.texts, CallResult.images in *. cbn [scan_content filter].
    assert (KT : CallResult.kind_is "text" (JObj d) =
                 match Dict.get "type" d with Some k => Py.eq_str k "text" | None => false end)
      by reflexivity.
    assert (KI : CallResult.kind_is "image" (JObj d) =
                 match Dict.get "type" d with Some k => Py.eq_str k "image" | None => false end)
      by reflexivity.
    rewrite KT in Wi. rewrite KT, KI. clear KT KI.
    unfold Py.get.
    destruct (Dict.get "type" d) as [k|]; cbn [rbind].
    + destruct (Py.eq_str k "text") eqn:T.
      * rewrite (text_not_image _ T). cbn [map CallResult.text_of].
        destruct (Dict.get "text" d) as [[| | | |text| |]|]; try discriminate; cbn [rbind];
          rewrite IH by assumption; now rewrite <- app_assoc.
      * destruct (Py.eq_str k "image") eqn:I.
        -- unfold CallResult.image_of, CallResult.field_or. cbn [map].
           destruct (Dict.get "data" d), (Dict.get "mimeType" d); cbn [rbind];
             rewrite IH by assumption; now rewrite <- app_assoc.
        -- now apply IH.
    + cbn [Py.eq_str]. now apply IH.
Qed.

Lemma call_result_refines (response result : json) (content : list json) :
  Py.get response "result" (JObj []) = Ok result ->
  Py.get result "content" (JArr []) = Ok (JArr content) ->
  CallResult.well_formed content = true ->
  call_result response = Ok (CallResult.payload result content).
Proof.
  intros R C W. unfold call_result. rewrite R. cbn [rbind]. rewrite C. cbn [rbind Py.iter].
  rewrite (scan_content_refines _ [] [] W). cbn [rbind app].
  destruct result as [| | | | | |res]; try discriminate.
  unfold CallResult.payload, CallResult.result_text, CallResult.field_or.
  unfold Py.get. 
  assert (E : forall d, match Dict.get "isError" res with Some x => Ok x | None => Ok d end
              = Ok (match Dict.get "isError" res with Some v => v | None => d end))
    by (intros d; now destruct (Dict.get "isError" res)).
  rewrite E. cbn [rbind].
  destruct (CallResult.texts content) as [|t ts] eqn:T; cbn [map rbind].
  - now destruct (CallResult.images content).
  - unfold Py.join. change (JStr t :: map JStr ts) with (map JStr (t :: ts)).
    rewrite strs_texts. now destruct (CallResult.images content).
Qed.

(** [call_tool] is [_send_request] followed by the reading of the response. *)
Lemma call_tool_response (tool_name : string) (arguments : json) (x : exchange)
    (s s' : t) (response : json) :
  _send_request "tools/call" (JObj [("name", JStr tool_name); ("arguments", arguments)]) x s
  = (s', Ok response) ->
  call_tool tool_name arguments x s =
  (s', rbind (Py.contains "error" response) (fun failed =>
         if failed : bool
         then rbind (Py.getitem response "error") (fun error =>
              rbind (Py.getitem error "message") (fun message =>
              Ok (JObj [("error", message); ("isError", JBool true)])))
         else call_result response)).
Proof.
  intros E. unfold call_tool, bind. rewrite E. unfold lift.
  destruct (Py.contains "error" response) as [[|]|]; simpl; try reflexivity.
  destruct (Py.getitem response "error") as [error|]; simpl; [|reflexivity].
  now destruct (Py.getitem error "message").
Qed.

Lemma call_tool_raises (tool_name : string) (arguments : json) (x : exchange)
    (s s' : t) (e : exn) :
  _send_request "tools/call" (JObj [("name", JStr tool_name); ("arguments", arguments)]) x s
  = (s', Raise e) ->
  call_tool tool_name arguments x s = (s', Raise e).
Proof. intros E. unfold call_tool, bind. now rewrite E. Qed.


(** C9. The error branch of [call_tool] reads [response["error"]["message"]]
    unguarded.  A response whose error object has a message gives the
    payload with that message and [isError] true; so does, with its own
    message, the error [_send_request] makes up on a timeout; a response
    whose error object has no ["message"] makes [call_tool] raise
    [KeyError], and no payload is returned. *)
Theorem call_tool_error_branch (tool_name : string) (arguments : json) (x : exchange)
    (s s' : t) :
  (forall fields error message,
     _send_request "tools/call" (JObj [("name", JStr tool_name); ("arguments", arguments)]) x s
     = (s', Ok (JObj fields)) ->
     Dict.get "error" fields = Some (JObj error) ->
     Dict.get "message" error = Some message ->
     call_tool tool_name arguments x s =
     (s', Ok (JObj [("error", message); ("isError", JBool true)])))
  /\
  (_send_request "tools/call" (JObj [("name", JStr tool_name); ("arguments", arguments)]) x s
   = (s', Ok (timeout_error s')) ->
   call_tool tool_name arguments x s =
   (s', Ok (JObj [("error", JStr ("Request timeout after " ++ py_format (timeout s') ++ "s"));
                  ("isError", JBool true)])))
  /\
  (forall fields error,
     _send_request "tools/call" (JObj [("name", JStr tool_name); ("arguments", arguments)]) x s
     = (s', Ok (JObj fields)) ->
     Dict.get "error" fields = Some (JObj error) ->
     Dict.get "message" error = None ->
     call_tool tool_name arguments x s = (s', Raise (KeyError "message"))).
Proof.
  split; [|split].
  - intros fields error message E G Gm.
    rewrite (call_tool_response _ _ _ _ _ _ E). simpl. unfold Dict.mem.
    rewrite G. simpl. now rewrite Gm.
  - intros E. now rewrite (call_tool_response _ _ _ _ _ _ E).
  - intros fields error E G Gm.
    rewrite (call_tool_response _ _ _ _ _ _ E). simpl. unfold Dict.mem.
    rewrite G. simpl. now rewrite Gm.
Qed.

End CallTool.



Lemma call_tool_error_branch_witness :
  snd (MCPServer.call_tool "x" (JObj [])
         (Demo.answered "9566c74d" [] (Demo.failure "9566c74d" Demo.unknown_tool))
         (Demo.started "A" "node" ["x"]))
  = Ok (JObj [("error", JStr "Unknown tool: x"); ("isError", JBool true)])
  /\
  snd (MCPServer.call_tool "x" (JObj []) (Demo.unanswered "9566c74d")
         (Demo.started "A" "node" ["x"]))
  = Ok (JObj [("error", JStr "Request timeout after 120.0s"); ("isError", JBool true)])
  /\
  snd (MCPServer.call_tool "x" (JObj [])
         (Demo.answered "9566c74d" [] (Demo.failure "9566c74d" Demo.bare_error))
         (Demo.started "A" "node" ["x"]))
  = Raise (KeyError "message").
Proof.
  pose (s := Demo.started "A" "node" ["x"]).
  pose (sent := fun x => MCPServer._send_request "tools/call"
                  (JObj [("name", JStr "x"); ("arguments", JObj [])]) x s).
  split; [|split].
  - pose (x := Demo.answered "9566c74d" [] (Demo.failure "9566c74d" Demo.unknown_tool)).
    destruct (call_tool_error_branch "x" (JObj []) x s (fst (sent x))) as [H _].
    fold x s. rewrite (H [("jsonrpc", JStr "2.0"); ("id", JStr "9566c74d");
                          ("error", Demo.unknown_tool)]
                         [("code", JInt (-32602)); ("message", JStr "Unknown tool: x")]
                         (JStr "Unknown tool: x"));
      [reflexivity | vm_compute; reflexivity | reflexivity | reflexivity].
  - pose (x := Demo.unanswered "9566c74d").
    destruct (call_tool_error_branch "x" (JObj []) x s (fst (sent x))) as (_ & H & _).
    fold x s. rewrite H; [vm_compute; reflexivity | vm_compute; reflexivity].
  - pose (x := Demo.answered "9566c74d" [] (Demo.failure "9566c74d" Demo.bare_error)).
    destruct (call_tool_error_branch "x" (JObj []) x s (fst (sent x))) as (_ & _ & H).
    fold x s. rewrite (H [("jsonrpc", JStr "2.0"); ("id", JStr "9566c74d");
                          ("error", Demo.bare_error)]
                         [("code", JInt (-32603))]);
      [reflexivity | vm_compute; reflexivity | reflexivity | reflexivity].
Defined.

(** * The pending-request table and the reader loop *)

Section Table.
Context {B : Builtins}.
Import MCPServer.

Lemma nth_replace_nth_same {A} (n : nat) (x d : A) (l : list A) :
  n < List.length l -> nth n (replace_nth n x l) d = x.
Proof.
  revert n. induction l as [|y l IH]; intros [|n] L; simpl in *; try lia; [reflexivity|].
  apply IH. lia.
Qed.

Lemma nth_replace_nth_other {A} (n n' : nat) (x d : A) (l : list A) :
  n <> n' -> nth n' (replace_nth n x l) d = nth n' l d.
Proof.
  revert n n'. induction l as [|y l IH]; intros [|n] [|n'] N; simpl; try reflexivity; try lia.
  apply IH. lia.
Qed.

Lemma length_replace_nth {A} (n : nat) (x : A) (l : list A) :
  List.length (replace_nth n x l) = List.length l.
Proof.
  revert n. induction l as [|y l IH]; intros [|n]; simpl; try reflexivity. now rewrite IH.
Qed.

(** A pending future is one of the futures made. *)
Lemma pending_in_range (fut : nat) (s : t) :
  future_state fut s = FPending -> fut < List.length (futures s).
Proof.
  unfold future_state. intros H.
  destruct (Nat.lt_ge_cases fut (List.length (futures s))) as [L|L]; [assumption|].
  rewrite nth_overflow in H by assumption. discriminate.
Qed.

(** The inner [try] on a line that answers a pending request. *)
Lemma handle_message_answer (message : json) (s : t) (request_id : string) (fut : nat) :
  answers (Message message) = Some request_id ->
  Dict.get request_id (pending_requests s) = Some fut ->
  future_state fut s = FPending ->
  handle_message message s =
  (set_futures (replace_nth fut (FResult message) (futures s))
     (set_pending_requests (Dict.remove request_id (pending_requests s)) s), Ok tt).
Proof.
  intros A P F. unfold answers in A.
  destruct message as [|b|n|f|text|l|fields]; try discriminate.
  destruct (Dict.get "id" fields) as [[|b|n|f|rid|l|d]|] eqn:G; try discriminate.
  injection A as ->.
  unfold handle_message, bind, lift, ret. simpl. unfold Dict.mem. rewrite G. simpl.
  unfold Dict.mem. rewrite P. simpl. rewrite P. unfold set_result.
  change (future_state fut (set_pending_requests (Dict.remove request_id (pending_requests s)) s))
    with (future_state fut s).
  now rewrite F.
Qed.

(** The inner [try] on a decoded line that answers no pending request: the
    table and the futures are as they were. *)
Lemma handle_message_other (message : json) (s : t) :
  (forall request_id, answers (Message message) = Some request_id ->
                      Dict.get request_id (pending_requests s) = None) ->
  pending_requests (fst (handle_message message s)) = pending_requests s /\
  futures (fst (handle_message message s)) = futures s.
Proof.
  intros A. unfold handle_message, bind, lift, ret, modify.
  destruct message as [|b|n|f|text|l|fields]; simpl; try now split.
  - destruct (Str.contains "id" text); simpl; [now split|].
    destruct (Str.contains "method" text); simpl; now split.
  - destruct (existsb (fun x => Py.eq_str x "id") l); simpl; [now split|].
    destruct (existsb (fun x => Py.eq_str x "method") l); simpl; now split.
  - unfold Dict.mem. simpl in A.
    destruct (Dict.get "id" fields) as [idv|]; simpl.
    + destruct idv as [|b|n|f|rid|l|d]; simpl;
        try (destruct (Dict.get "method" fields); simpl; now split); try now split.
      unfold Dict.mem. rewrite (A rid eq_refl). simpl.
      destruct (Dict.get "method" fields); simpl; now split.
    + destruct (Dict.get "method" fields); simpl; now split.
Qed.

Lemma read_line_effect (l : line) (s : t) :
  (forall request_id fut, Dict.get request_id (pending_requests s) = Some fut ->
                          future_state fut s = FPending) ->
  reader_effect l s (read_line l s).
Proof.
  intros Pend. unfold read_line.
  destruct (reader_task s) as [[| |]|] eqn:Run; try now constructor.
  destruct l as [| | |text|e|message]; try now constructor.
  destruct (answers (Message message)) as [request_id|] eqn:A.
  - destruct (Dict.get request_id (pending_requests s)) as [fut|] eqn:P.
    + rewrite (handle_message_answer _ _ _ _ A P (Pend _ _ P)).
      now apply (Resolved _ s _ request_id fut message).
    + destruct (handle_message_other message s) as [Hp Hf].
      { intros r E. congruence. }
      destruct (handle_message message s) as [s' [[]|e]]; now constructor.
  - destruct (handle_message_other message s) as [Hp Hf].
    { intros r E. congruence. }
    destruct (handle_message message s) as [s' [[]|e]]; now constructor.
Qed.

Lemma table_ok_same (s s' : t) :
  pending_requests s' = pending_requests s -> futures s' = futures s ->
  table_ok s -> table_ok s'.
Proof.
  unfold table_ok, future_state. intros -> ->. tauto.
Qed.

Lemma values_remove {V} (d : dict V) (k : string) (v : V) :
  In v (Dict.values (Dict.remove k d)) -> In v (Dict.values d).
Proof.
  unfold Dict.values. intros I. apply in_map_iff in I as ([k' v'] & E & I).
  apply DictFacts.In_remove in I. simpl in E. subst v'.
  change v with (snd (k', v)). now apply in_map.
Qed.

Lemma NoDup_values_remove {V} (d : dict V) (k : string) :
  NoDup (Dict.values d) -> NoDup (Dict.values (Dict.remove k d)).
Proof.
  unfold Dict.values. induction d as [|[k0 v0] d IH]; simpl; [easy|].
  intros N. inversion N as [|? ? Nh Nt]; subst.
  destruct (String.eqb k k0); simpl; [assumption|].
  constructor; [|now apply IH].
  intros I. apply Nh. now apply (values_remove d k).
Qed.

(** Under one id only: the entries of a future all have the same key. *)
Lemma one_key {V} (d : dict V) (k k' : string) (v : V) :
  NoDup (Dict.values d) -> In (k, v) d -> In (k', v) d -> k = k'.
Proof.
  unfold Dict.values. induction d as [|[k0 v0] d IH]; simpl; [tauto|].
  intros N. inversion N as [|? ? Nh Nt]; subst.
  intros [E|I] [E'|I'].
  - congruence.
  - injection E as -> ->. exfalso. apply Nh. change v with (snd (k', v)). now apply in_map.
  - injection E' as -> ->. exfalso. apply Nh. change v with (snd (k, v)). now apply in_map.
  - now apply IH.
Qed.

Lemma removed_key {V} (d : dict V) (k k' : string) (v : V) :
  Dict.wf d -> In (k', v) (Dict.remove k d) -> k' <> k.
Proof.
  intros W I ->. pose proof (DictFacts.get_remove_same _ d k W) as G.
  apply DictFacts.get_None in G. apply G.
  change k with (fst (k, v)). now apply in_map.
Qed.

(** No iteration of the reader loop breaks the table. *)
Lemma reader_effect_table_ok (l : line) (s s' : t) :
  table_ok s -> reader_effect l s s' -> table_ok s'.
Proof.
  intros T [Ep Ef|request_id fut message _ _ G _ Ep Ef].
  - now apply (table_ok_same s).
  - destruct T as (W & N & P). unfold table_ok. rewrite Ep. repeat split.
    + now apply DictFacts.wf_remove.
    + now apply NoDup_values_remove.
    + intros r f I. unfold future_state. rewrite Ef.
      rewrite nth_replace_nth_other.
      * apply (P r f). now apply DictFacts.In_remove in I.
      * intros <-. apply (removed_key _ _ _ _ W I).
        apply (one_key _ _ _ _ N (DictFacts.In_remove _ _ _ _ _ I)).
        now apply DictFacts.get_In.
Qed.

Lemma table_ok_pending (s : t) (request_id : string) (fut : nat) :
  table_ok s -> Dict.get request_id (pending_requests s) = Some fut ->
  future_state fut s = FPending.
Proof. intros (_ & _ & P) G. apply (P request_id). now apply DictFacts.get_In. Qed.

Lemma read_line_table_ok (l : line) (s : t) : table_ok s -> table_ok (read_line l s).
Proof.
  intros T. apply (reader_effect_table_ok l s); [assumption|].
  apply read_line_effect. intros r f. now apply table_ok_pending.
Qed.

Lemma In_values_set {V} (d : dict V) (k : string) (v v' : V) :
  In v' (Dict.values (Dict.set k v d)) -> v' = v \/ In v' (Dict.values d).
Proof.
  unfold Dict.values. induction d as [|[k0 v0] d IH]; simpl.
  - intros [<-|[]]. now left.
  - destruct (String.eqb k k0); simpl.
    + intros [<-|I]; [now left | right; now right].
    + intros [<-|I]; [right; now left|].
      destruct (IH I) as [->|I']; [now left | right; now right].
Qed.

Lemma NoDup_values_set {V} (d : dict V) (k : string) (v : V) :
  NoDup (Dict.values d) -> ~ In v (Dict.values d) ->
  NoDup (Dict.values (Dict.set k v d)).
Proof.
  unfold Dict.values. induction d as [|[k0 v0] d IH]; simpl; intros N F.
  - repeat constructor. intros [].
  - inversion N as [|? ? Nh Nt]; subst.
    destruct (String.eqb k k0); simpl.
    + constructor; [|assumption]. intros I. apply F. now right.
    + constructor.
      * intros I. apply (In_values_set d k v v0) in I as [->|I]; [|now apply Nh].
        apply F. now left.
      * apply IH; [assumption|]. intros I. apply F. now right.
Qed.

(** [_send_request] up to the write, statement by statement: the counter,
    the new future, the entry. *)
Lemma register_effect (request_id : string) (s : t) :
  register request_id s =
  (set_pending_requests
     (Dict.set request_id (List.length (futures s)) (pending_requests s))
     (set_futures (futures s ++ [FPending])
        (set_message_id_counter (S (message_id_counter s)) s)),
   Ok (List.length (futures s))).
Proof. reflexivity. Qed.

Lemma register_table_ok (request_id : string) (s : t) :
  table_ok s -> table_ok (fst (register request_id s)).
Proof.
  intros (W & N & P). rewrite register_effect. unfold table_ok. simpl. repeat split.
  - now apply DictFacts.wf_set.
  - apply NoDup_values_set; [assumption|].
    intros I. apply in_map_iff in I as ([r f] & E & I). simpl in E. subst f.
    apply P in I. apply pending_in_range in I. lia.
  - intros r f I. unfold future_state. simpl.
    apply In_set in I as [[-> ->]|I].
    + now rewrite nth_middle.
    + pose proof (P r f I) as F. pose proof (pending_in_range _ _ F) as L.
      now rewrite app_nth1.
Qed.

Lemma read_line_entries (l : line) (s : t) (r : string) (f : nat) :
  table_ok s -> In (r, f) (pending_requests (read_line l s)) -> In (r, f) (pending_requests s).
Proof.
  intros T I.
  assert (Pend : forall r' f', Dict.get r' (pending_requests s) = Some f' ->
                               future_state f' s = FPending)
    by (intros r' f'; now apply table_ok_pending).
  destruct (read_line_effect l s Pend) as [Ep _|request_id fut message _ _ _ _ Ep _].
  - now rewrite Ep in I.
  - rewrite Ep in I. now apply DictFacts.In_remove in I.
Qed.

Lemma pending_cancel (fut : nat) (s : t) : pending_requests (cancel fut s) = pending_requests s.
Proof. unfold cancel. now destruct (future_state fut s). Qed.

Lemma future_state_cancel (fut f : nat) (s : t) :
  f <> fut -> future_state f (cancel fut s) = future_state f s.
Proof.
  intros N. unfold cancel. destruct (future_state fut s); try reflexivity.
  unfold future_state. simpl. apply nth_replace_nth_other. congruence.
Qed.

Lemma wait_for_table_ok (request_id : string) (fut : nat) (arriving : list line) (s : t) :
  table_ok s ->
  (forall r, In (r, fut) (pending_requests s) -> r = request_id) ->
  match wait_for fut arriving s with
  | (s', Some _) => table_ok s'
  | (s', None) => exists s2, s' = cancel fut s2 /\ table_ok s2 /\
                             forall r, In (r, fut) (pending_requests s2) -> r = request_id
  end.
Proof.
  revert s. induction arriving as [|l ls IH]; intros s T Own; simpl.
  - destruct (future_state fut s); try assumption; now exists s.
  - destruct (future_state fut s); try assumption;
      (apply IH; [now apply read_line_table_ok |
                  intros r I; apply Own; now apply (read_line_entries l)]).
Qed.

(** The inner [try] on a line that carries the id of an entry whose future
    is not pending any more: the entry is popped, [set_result] raises. *)
Lemma handle_message_settled (message : json) (s : t) (request_id : string) (fut : nat) :
  answers (Message message) = Some request_id ->
  Dict.get request_id (pending_requests s) = Some fut ->
  future_state fut s <> FPending ->
  handle_message message s =
  (set_pending_requests (Dict.remove request_id (pending_requests s)) s,
   Raise InvalidStateError).
Proof.
  intros A P F. unfold answers in A.
  destruct message as [|b|n|f|text|l|fields]; try discriminate.
  destruct (Dict.get "id" fields) as [[|b|n|f|rid|l|d]|] eqn:G; try discriminate.
  injection A as ->.
  unfold handle_message, bind, lift, ret. simpl. unfold Dict.mem. rewrite G. simpl.
  unfold Dict.mem. rewrite P. simpl. rewrite P. unfold set_result.
  change (future_state fut (set_pending_requests (Dict.remove request_id (pending_requests s)) s))
    with (future_state fut s).
  destruct (future_state fut s); [now contradiction F|reflexivity|reflexivity].
Qed.

(** What one iteration of the reader loop does to the table and the
    futures, whatever state the futures are in: nothing; or it pops an
    entry, and gives its future the message when that future is pending. *)
Lemma read_line_cases (l : line) (s : t) :
  (pending_requests (read_line l s) = pending_requests s /\
   futures (read_line l s) = futures s) \/
  exists request_id fut message,
    l = Message message /\
    answers l = Some request_id /\
    Dict.get request_id (pending_requests s) = Some fut /\
    reader_task s = Some Running /\
    pending_requests (read_line l s) = Dict.remove request_id (pending_requests s) /\
    ((future_state fut s = FPending /\
      futures (read_line l s) = replace_nth fut (FResult message) (futures s) /\
      reader_task (read_line l s) = Some Running)
     \/
     (future_state fut s <> FPending /\
      futures (read_line l s) = futures s /\
      read_line l s =
      reader_dies InvalidStateError
        (set_pending_requests (Dict.remove request_id (pending_requests s)) s))).
Proof.
  unfold read_line.
  destruct (reader_task s) as [[| |]|] eqn:Run; try (left; now split).
  destruct l as [| | |text|e|message]; try (left; now split).
  destruct (answers (Message message)) as [request_id|] eqn:A.
  - destruct (Dict.get request_id (pending_requests s)) as [fut|] eqn:P.
    + right. exists request_id, fut, message.
      split; [reflexivity|]. split; [first [assumption|reflexivity]|].
      split; [first [assumption|reflexivity]|]. split; [reflexivity|].
      destruct (future_state fut s) eqn:F.
      * rewrite (handle_message_answer _ _ _ _ A P F). split; [reflexivity|].
        left. split; [reflexivity|]. split; [reflexivity|exact Run].
      * rewrite (handle_message_settled message s request_id fut A P)
          by (rewrite F; discriminate).
        split; [reflexivity|]. right. split; [discriminate|]. now split.
      * rewrite (handle_message_settled message s request_id fut A P)
          by (rewrite F; discriminate).
        split; [reflexivity|]. right. split; [discriminate|]. now split.
    + left. destruct (handle_message_other message s) as [Hp Hf].
      { intros r E. congruence. }
      destruct (handle_message message s) as [s' [[]|e]]; now split.
  - left. destruct (handle_message_other message s) as [Hp Hf].
    { intros r E. congruence. }
    destruct (handle_message message s) as [s' [[]|e]]; now split.
Qed.

Lemma cancel_expiring (request_id : string) (fut : nat) (s : t) :
  table_ok s ->
  (forall r, In (r, fut) (pending_requests s) -> r = request_id) ->
  table_expiring request_id fut (cancel fut s).
Proof.
  intros (W & N & P) Own. unfold table_expiring. rewrite pending_cancel.
  split; [assumption|]. split; [assumption|].
  intros r f I. destruct (Nat.eq_dec f fut) as [->|D].
  - left. split; [now apply Own|]. split; [reflexivity|].
    pose proof (P r fut I) as F. unfold cancel. rewrite F.
    unfold future_state. cbn [futures set_futures].
    apply nth_replace_nth_same. now apply pending_in_range.
  - right. rewrite future_state_cancel; [now apply (P r)|assumption].
Qed.

Lemma read_line_expiring (request_id : string) (fut : nat) (l : line) (s : t) :
  table_expiring request_id fut s -> table_expiring request_id fut (read_line l s).
Proof.
  intros (W & N & P).
  destruct (read_line_cases l s)
    as [[Ep Ef]|(r0 & f0 & message & _ & _ & G & _ & Ep & [(F & Ef & _)|(F & Ef & _)])];
    unfold table_expiring; rewrite Ep.
  - unfold future_state. rewrite Ef. now repeat split.
  - split; [now apply DictFacts.wf_remove|]. split; [now apply NoDup_values_remove|].
    intros r f I.
    assert (D : f0 <> f).
    { intros <-. apply (removed_key _ _ _ _ W I).
      apply (one_key _ _ _ _ N (DictFacts.In_remove _ _ _ _ _ I)).
      now apply DictFacts.get_In. }
    assert (Df : f0 <> fut \/ future_state fut s <> FCancelled).
    { destruct (Nat.eq_dec f0 fut) as [->|]; [right; rewrite F; discriminate|now left]. }
    unfold future_state in *. rewrite Ef.
    destruct (P r f (DictFacts.In_remove _ _ _ _ _ I)) as [(-> & -> & C)|Pf].
    + left. split; [reflexivity|]. split; [reflexivity|].
      rewrite nth_replace_nth_other; [assumption|].
      destruct Df as [Df|Df]; [assumption|now contradiction Df].
    + right. now rewrite nth_replace_nth_other.
  - split; [now apply DictFacts.wf_remove|]. split; [now apply NoDup_values_remove|].
    intros r f I. unfold future_state in *. rewrite Ef.
    apply (P r f). now apply DictFacts.In_remove in I.
Qed.

Lemma read_lines_expiring (request_id : string) (fut : nat) (ls : list line) (s : t) :
  table_expiring request_id fut s -> table_expiring request_id fut (read_lines ls s).
Proof.
  revert s. induction ls as [|l ls IH]; intros s T; [assumption|].
  apply IH. now apply read_line_expiring.
Qed.

(** The [del] of the [except] clause puts the table in order again, whether
    it finds the entry or raises. *)
Lemma pending_del_expiring (request_id : string) (fut : nat) (s : t) :
  table_expiring request_id fut s -> table_ok (fst (pending_del request_id s)).
Proof.
  intros (W & N & P). unfold pending_del.
  destruct (Dict.get request_id (pending_requests s)) as [f0|] eqn:G; cbn [fst].
  - unfold table_ok. cbn [pending_requests set_pending_requests].
    split; [now apply DictFacts.wf_remove|]. split; [now apply NoDup_values_remove|].
    intros r f I.
    change (future_state f s = FPending).
    destruct (P r f (DictFacts.In_remove _ _ _ _ _ I)) as [(-> & _)|Pf]; [|assumption].
    now contradiction (removed_key _ _ _ _ W I).
  - split; [assumption|]. split; [assumption|].
    intros r f I. destruct (P r f I) as [(-> & _)|Pf]; [|assumption].
    apply DictFacts.get_None in G. contradiction G.
    apply in_map_iff. now exists (request_id, f).
Qed.

Lemma await_response_table_ok (request_id method : string) (fut : nat)
    (arriving late : list line) (s : t) :
  table_ok s ->
  (forall r, In (r, fut) (pending_requests s) -> r = request_id) ->
  table_ok (fst (await_response request_id method fut arriving late s)).
Proof.
  intros T Own. unfold await_response.
  pose proof (wait_for_table_ok request_id fut arriving s T Own) as H.
  destruct (wait_for fut arriving s) as [s' [response|]]; [exact H|].
  destruct H as (s2 & -> & T2 & Own2).
  pose proof (pending_del_expiring request_id fut _
                (read_lines_expiring request_id fut late _
                   (cancel_expiring request_id fut s2 T2 Own2))) as E.
  unfold bind, modify, gets.
  destruct (pending_del request_id (read_lines late (cancel fut s2))) as [s3 [[]|e]];
    simpl in *; [|assumption].
  now apply (table_ok_same s3).
Qed.

(** The table is in order after [_send_request], however it ends. *)
Lemma send_request_table_ok (method : string) (params : json) (x : exchange) :
  preserves table_ok (_send_request method params x).
Proof.
  intros s T. unfold _send_request, submit, bind, running.
  destruct (process s) as [p|] eqn:Run; [|assumption].
  rewrite register_effect.
  pose proof (register_table_ok (request_id x) s T) as T1.
  rewrite register_effect in T1. simpl in T1.
  set (s1 := set_pending_requests _ _) in *.
  unfold stdin_write. change (process s1) with (process s). rewrite Run. simpl.
  set (s2 := set_process _ s1).
  assert (T2 : table_ok s2) by now apply (table_ok_same s1).
  unfold stdin_drain. destruct (drain_error x) as [e|]; [assumption|]. simpl.
  apply await_response_table_ok; [assumption|].
  intros r I. change (In (r, List.length (futures s))
                         (Dict.set (request_id x) (List.length (futures s)) (pending_requests s))) in I.
  apply In_set in I as [[-> _]|I]; [reflexivity|].
  destruct T as (_ & _ & P). apply P in I. apply pending_in_range in I. lia.
Qed.

Ltac table_step :=
  lazymatch goal with
  | |- preserves _ (ret _) => apply preserves_ret
  | |- preserves _ (raise _) => apply preserves_raise
  | |- preserves _ (lift _) => apply preserves_lift
  | |- preserves _ (gets _) => apply preserves_gets
  | |- preserves _ (modify _) =>
      apply preserves_modify; intros ? ?; eapply table_ok_same; [| |eassumption]; reflexivity
  | |- preserves _ (bind _ _) => apply preserves_bind; [|intros ?]
  | |- preserves _ (catch _ _) => apply preserves_catch; [|intros ?]
  | |- preserves _ (if _ then _ else _) => apply preserves_if
  | |- preserves _ (_send_request _ _ _) => apply send_request_table_ok
  end.

Lemma send_notification_table_ok (method : string) (params : json) (drain : option exn) :
  preserves table_ok (_send_notification method params drain).
Proof.
  unfold _send_notification. repeat table_step.
  - intros s T. unfold running. now destruct (process s).
  - intros s T. unfold stdin_write. destruct (process s); [|assumption].
    now apply (table_ok_same s).
  - destruct drain; simpl; table_step.
Qed.

Lemma fetch_tools_table_ok (x : exchange) : preserves table_ok (_fetch_tools x).
Proof. unfold _fetch_tools. repeat table_step. Qed.

Lemma initialize_table_ok (l : launch) : preserves table_ok (_initialize l).
Proof.
  unfold _initialize. repeat table_step;
    first [apply send_notification_table_ok | apply fetch_tools_table_ok].
Qed.

Lemma start_table_ok (l : launch) : preserves table_ok (start l).
Proof.
  unfold start. table_step.
  - destruct (spawned l); repeat table_step;
      first [now intros s | apply initialize_table_ok].
  - repeat table_step.
Qed.

Lemma call_tool_table_ok (tool_name : string) (arguments : json) (x : exchange) :
  preserves table_ok (call_tool tool_name arguments x).
Proof. unfold call_tool. repeat table_step. Qed.

Lemma stop_table_ok (d : shutdown) : preserves table_ok (stop d).
Proof.
  unfold stop. table_step.
  - apply preserves_modify. intros s T.
    now destruct (reader_task s) as [[]|].
  - intros s T. destruct (process s); simpl; [|assumption].
    now destruct (terminate_error d).
Qed.

Lemma init_table_ok (name : string) (command args env timeout : json) :
  table_ok (init name command args env timeout).
Proof. repeat split; try constructor. intros ? ? []. Qed.

Lemma configured_framed (c : string * json * json * json * json) :
  framed (fun s => configured s = c).
Proof. intros s s' E H. congruence. Qed.

(** While no arriving line answers the request, its entry stays, and when
    the lines are used up the timer expires. *)
Lemma wait_for_unanswered (request_id : string) (fut : nat) (arriving : list line) (s : t) :
  table_ok s ->
  Dict.get request_id (pending_requests s) = Some fut ->
  (forall l, In l arriving -> answers l <> Some request_id) ->
  exists s2,
    wait_for fut arriving s = (cancel fut s2, None) /\
    table_ok s2 /\
    Dict.get request_id (pending_requests s2) = Some fut /\
    configured s2 = configured s.
Proof.
  revert s. induction arriving as [|l ls IH]; intros s T G A; simpl;
    rewrite (table_ok_pending s request_id fut T G).
  - now exists s.
  - destruct (IH (read_line l s)) as (s2 & E & T2 & G2 & C2).
    + now apply read_line_table_ok.
    + assert (Pend : forall r f, Dict.get r (pending_requests s) = Some f ->
                                 future_state f s = FPending)
        by (intros r f; now apply table_ok_pending).
      destruct (read_line_effect l s Pend) as [Ep _|r f m _ Al _ _ Ep _].
      * now rewrite Ep.
      * rewrite Ep, DictFacts.get_remove_other; [assumption|].
        intros ->. apply (A l); [now left | assumption].
    + intros l' I. apply A. now right.
    + exists s2. split; [assumption|]. split; [assumption|]. split; [assumption|].
      rewrite C2. now apply (framed_read_line _ (configured_framed (configured s))).
Qed.

End Table.

Lemma started_table_ok (name command : string) (names : list string) :
  table_ok (Demo.started name command names).
Proof. repeat split; try constructor. intros ? ? []. Qed.

(** * Lines the reader loop cannot parse *)

Section Reader.
Context {B : Builtins}.
Import MCPServer.

Lemma read_line_malformed (text : string) (s : t) :
  reader_task s = Some Running ->
  read_line (Malformed text) s = logger LogParseFailure s.
Proof. intros R. unfold read_line. now rewrite R. Qed.

(** A line that [json.loads] rejects is logged and skipped: the response
    that follows such lines resolves its request. *)
Lemma malformed_lines_are_skipped (request_id : string) (fut : nat) (junk rest : list line)
    (response : json) (s : t) :
  table_ok s ->
  reader_task s = Some Running ->
  Dict.get request_id (pending_requests s) = Some fut ->
  answers (Message response) = Some request_id ->
  Forall (fun l => exists text, l = Malformed text) junk ->
  exists s',
    wait_for fut (junk ++ Message response :: rest) s = (s', Some response) /\
    reader_task s' = Some Running /\
    Dict.get request_id (pending_requests s') = None /\
    log s' = log s ++ repeat LogParseFailure (List.length junk).
Proof.
  intros T R G A J. revert s T R G.
  induction J as [|l junk [text ->] J IH]; intros s T R G;
    pose proof (table_ok_pending s request_id fut T G) as F;
    cbn [app wait_for]; rewrite F.
  - unfold read_line. rewrite R.
    rewrite (handle_message_answer _ _ _ _ A G F).
    pose proof (pending_in_range _ _ F) as L.
    destruct rest as [|l' rest']; cbn [wait_for]; unfold future_state; cbn [futures set_futures];
      rewrite nth_replace_nth_same by assumption.
    + eexists. split; [reflexivity|]. simpl. repeat split; try assumption.
      * apply DictFacts.get_remove_same. apply T.
      * now rewrite app_nil_r.
    + eexists. split; [reflexivity|]. simpl. repeat split; try assumption.
      * apply DictFacts.get_remove_same. apply T.
      * now rewrite app_nil_r.
  - rewrite (read_line_malformed text s R).
    destruct (IH (logger LogParseFailure s)) as (s' & E & R' & G' & L'); try assumption.
    exists s'. repeat split; try assumption.
    rewrite L'. simpl. now rewrite <- app_assoc.
Qed.

(** A line that is not UTF-8 ends the reader loop: whatever arrives after
    it, the response included, is not read, and the request times out. *)
Lemma undecodable_line_ends_reader (fut : nat) (rest : list line) (s : t) :
  reader_task s = Some Running ->
  future_state fut s = FPending ->
  wait_for fut (Undecodable :: rest) s
  = (cancel fut (reader_dies UnicodeDecodeError s), None).
Proof.
  intros R F. cbn [wait_for]. rewrite F. unfold read_line at 1. rewrite R.
  assert (F' : future_state fut (reader_dies UnicodeDecodeError s) = FPending) by exact F.
  assert (R' : reader_task (reader_dies UnicodeDecodeError s) = Some Finished) by reflexivity.
  generalize dependent (reader_dies UnicodeDecodeError s). clear. intros s F R.
  induction rest as [|l rest IH]; cbn [wait_for]; rewrite F; [reflexivity|].
  unfold read_line. now rewrite R.
Qed.

End Reader.

(** C7, where the code departs from it.  A call is waiting; the child writes
    a line that is not UTF-8 and then the valid response.  The reader loop
    ends on the first line, the response is never read, the call ends in the
    timeout error.  After a line that is text but not JSON, the same response
    is delivered. *)
Theorem undecodable_line_loses_response :
  MCPServer._send_request "tools/call" (JObj [("name", JStr "x"); ("arguments", JObj [])])
    (Demo.answered "9566c74d" [Undecodable] (Demo.response "9566c74d" Demo.hello))
    (Demo.started "A" "node" ["x"])
  = (Demo.deaf, Ok (MCPServer.timeout_error (Demo.started "A" "node" ["x"])))
  /\
  MCPServer.reader_task Demo.deaf = Some Finished
  /\
  snd (MCPServer._send_request "tools/call" (JObj [("name", JStr "x"); ("arguments", JObj [])])
         (Demo.answered "9566c74d" [Malformed "Server listening on stdio"]
            (Demo.response "9566c74d" Demo.hello))
         (Demo.started "A" "node" ["x"]))
  = Ok (Demo.response "9566c74d" Demo.hello).
Proof. split; [|split]; vm_compute; reflexivity. Qed.

(** * Registration, settlement and the entries nobody settles *)

Section Settlement.
Context {B : Builtins}.
Import MCPServer.

(** The id is in the table before the bytes are written: [submit] is the
    guard, then the registration, then the write, and the state the write
    starts from already holds the entry while stdin is as it was. *)
Lemma submit_registers_before_writing (request_id method : string) (params : json)
    (s : t) (p : Process) :
  process s = Some p ->
  let registered := fst (register request_id s) in
  let data := (json_dumps (request request_id method params) ++ String "010" "")%string in
  Dict.get request_id (pending_requests registered) = Some (List.length (futures s)) /\
  future_state (List.length (futures s)) registered = FPending /\
  process registered = Some p /\
  submit request_id method params s =
  (fst (stdin_write data registered), Ok (List.length (futures s))) /\
  process (fst (stdin_write data registered)) =
  Some {| stdin := stdin p ++ [data]; terminated := terminated p; killed := killed p |}.
Proof.
  intros Run. rewrite register_effect. simpl. repeat split.
  - apply DictFacts.get_set_same.
  - unfold future_state. simpl. now rewrite nth_middle.
  - assumption.
  - unfold submit, bind, running. rewrite Run, register_effect.
    unfold stdin_write. simpl. now rewrite Run.
  - unfold stdin_write. simpl. now rewrite Run.
Qed.

(** A session without a process refuses the request before anything is
    registered or written. *)
Lemma send_request_not_running (method : string) (params : json) (x : exchange) (s : t) :
  process s = None ->
  _send_request method params x s =
  (s, Raise (Exception ("MCP server '" ++ name s ++ "' is not running"))).
Proof. intros N. unfold _send_request, submit, bind, running. now rewrite N. Qed.

(** When [drain()] raises, [_send_request] raises with the entry still in
    the table and its future still pending: no [wait_for] was started for
    it, so no timer will delete it. *)
Lemma failed_drain_leaves_entry (method : string) (params : json) (x : exchange)
    (s : t) (e : exn) :
  process s <> None ->
  drain_error x = Some e ->
  exists s',
    _send_request method params x s = (s', Raise e) /\
    Dict.get (request_id x) (pending_requests s') = Some (List.length (futures s)) /\
    future_state (List.length (futures s)) s' = FPending.
Proof.
  intros Run D. destruct (process s) as [p|] eqn:P; [|contradiction].
  unfold _send_request, submit, bind, running. rewrite P, register_effect.
  unfold stdin_write. simpl. rewrite P, D. simpl.
  eexists. split; [reflexivity|]. split; simpl.
  - apply DictFacts.get_set_same.
  - unfold future_state. simpl. now rewrite nth_middle.
Qed.

(** An entry stays through a wait during which no line answers it. *)
Lemma wait_for_keeps_entry (request_id : string) (fut waited : nat)
    (arriving : list line) (s : t) :
  table_ok s ->
  Dict.get request_id (pending_requests s) = Some fut ->
  (forall l, In l arriving -> answers l <> Some request_id) ->
  Dict.get request_id (pending_requests (fst (wait_for waited arriving s))) = Some fut.
Proof.
  revert s. induction arriving as [|l ls IH]; intros s T G A; simpl.
  - destruct (future_state waited s); simpl; try assumption; now rewrite pending_cancel.
  - assert (G' : Dict.get request_id (pending_requests (read_line l s)) = Some fut).
    { assert (Pend : forall r f, Dict.get r (pending_requests s) = Some f ->
                                 future_state f s = FPending)
        by (intros r f; now apply table_ok_pending).
      destruct (read_line_effect l s Pend) as [Ep _|r f m _ Al _ _ Ep _].
      - now rewrite Ep.
      - rewrite Ep, DictFacts.get_remove_other; [assumption|].
        intros ->. apply (A l); [now left | assumption]. }
    destruct (future_state waited s); simpl; try assumption;
      (apply IH; [now apply read_line_table_ok | assumption | intros l' I; apply A; now right]).
Qed.

(** A line that does not carry an id leaves the entry of that id alone,
    whatever state the futures are in. *)
Lemma read_line_keeps_entry (request_id : string) (l : line) (s : t) :
  answers l <> Some request_id ->
  Dict.get request_id (pending_requests (read_line l s))
  = Dict.get request_id (pending_requests s).
Proof.
  intros A.
  destruct (read_line_cases l s) as [[Ep _]|(r0 & f0 & message & _ & Al & _ & _ & Ep & _)];
    rewrite Ep; [reflexivity|].
  apply DictFacts.get_remove_other. congruence.
Qed.

Lemma read_lines_keep_entry (request_id : string) (ls : list line) (s : t) :
  (forall l, In l ls -> answers l <> Some request_id) ->
  Dict.get request_id (pending_requests (read_lines ls s))
  = Dict.get request_id (pending_requests s).
Proof.
  revert s. induction ls as [|l ls IH]; intros s A; [reflexivity|].
  change (read_lines (l :: ls) s) with (read_lines ls (read_line l s)).
  rewrite IH by (intros l' I; apply A; now right).
  apply read_line_keeps_entry. apply A. now left.
Qed.

(** Later requests under other ids, answered or not, leave the entry where
    it is, as long as no line answers it; and its future stays pending. *)
Lemma entry_survives_send_request (pending_id : string) (fut : nat)
    (method : string) (params : json) (x : exchange) (s : t) :
  table_ok s ->
  Dict.get pending_id (pending_requests s) = Some fut ->
  request_id x <> pending_id ->
  (forall l, In l (replies x ++ late x) -> answers l <> Some pending_id) ->
  Dict.get pending_id (pending_requests (fst (_send_request method params x s))) = Some fut /\
  future_state fut (fst (_send_request method params x s)) = FPending.
Proof.
  intros T G N A.
  pose proof (send_request_table_ok method params x s T) as T'.
  assert (H : Dict.get pending_id (pending_requests (fst (_send_request method params x s)))
              = Some fut).
  { clear T'. unfold _send_request, submit, bind, running.
    destruct (process s) as [p|] eqn:Run; [|assumption].
    rewrite register_effect.
    pose proof (register_table_ok (request_id x) s T) as T1.
    rewrite register_effect in T1. simpl in T1.
    set (s1 := set_pending_requests _ _) in *.
    assert (G1 : Dict.get pending_id (pending_requests s1) = Some fut)
      by (simpl; now rewrite DictFacts.get_set_other).
    unfold stdin_write. change (process s1) with (process s). rewrite Run. simpl.
    set (s2 := set_process _ s1).
    destruct (drain_error x) as [e|]; simpl; [assumption|].
    unfold await_response.
    pose proof (wait_for_keeps_entry pending_id fut (List.length (futures s)) (replies x) s2
                  T1 G1 (fun l I => A l (in_or_app _ _ _ (or_introl I)))) as K.
    destruct (wait_for (List.length (futures s)) (replies x) s2) as [s3 [response|]];
      simpl in *; [assumption|].
    assert (K' : Dict.get pending_id (pending_requests (read_lines (late x) s3)) = Some fut).
    { rewrite read_lines_keep_entry; [assumption|].
      intros l I. apply A. apply in_or_app. now right. }
    unfold bind, modify, gets, pending_del.
    destruct (Dict.get (request_id x) (pending_requests (read_lines (late x) s3))); simpl;
      [|assumption].
    now rewrite DictFacts.get_remove_other. }
  split; [assumption|]. now apply (table_ok_pending _ pending_id).
Qed.

(** [stop()] cancels the reader and ends the child; it does not touch the
    table or the futures. *)
Lemma stop_leaves_table (d : shutdown) (s : t) :
  pending_requests (fst (stop d s)) = pending_requests s /\
  futures (fst (stop d s)) = futures s.
Proof.
  unfold stop, bind, modify.
  destruct (reader_task s) as [[]|]; simpl;
    destruct (process s); simpl; try (now split);
    destruct (terminate_error d); simpl; now split.
Qed.

End Settlement.


(** * [start_all]: one entry's failure stays with that entry *)

Section StartAll.
Context {B : Builtins}.
Import MCPManager.

Lemma start_entry_built (name : string) (server_config : json) (l : launch)
    (server : MCPServer.t) (m : t) :
  build name server_config l = Ok server ->
  start_entry name server_config l m =
  (logger (LogConfigured name) (set_servers (Dict.set name server (servers m)) m), Ok tt).
Proof. intros E. unfold start_entry, bind, lift. now rewrite E. Qed.

Lemma start_entry_failed (name : string) (server_config : json) (l : launch)
    (e : exn) (m : t) :
  build name server_config l = Raise e ->
  start_entry name server_config l m = (m, Raise e).
Proof. intros E. unfold start_entry, bind, lift. now rewrite E. Qed.

Lemma start_each_cons (name : string) (server_config : json)
    (rest : list (string * json)) (world : string -> launch) (m : t) :
  start_each ((name, server_config) :: rest) world m =
  match build name server_config (world name) with
  | Ok server =>
      start_each rest world
        (logger (LogConfigured name) (set_servers (Dict.set name server (servers m)) m))
  | Raise e => start_each rest world (logger (LogServerFailed name e) m)
  end.
Proof.
  unfold start_each. cbn [for_each]. unfold bind at 1. unfold catch.
  unfold start_entry, bind, lift, modify.
  now destruct (build name server_config (world name)).
Qed.

Lemma start_each_returns (entries : list (string * json)) (world : string -> launch) (m : t) :
  snd (start_each entries world m) = Ok tt.
Proof.
  revert m. induction entries as [|[name server_config] rest IH]; intros m; [reflexivity|].
  rewrite start_each_cons. destruct (build name server_config (world name)); apply IH.
Qed.

Lemma start_each_other (entries : list (string * json)) (world : string -> launch)
    (m : t) (name : string) :
  ~ In name (Dict.keys entries) ->
  Dict.get name (servers (fst (start_each entries world m))) = Dict.get name (servers m).
Proof.
  revert m. induction entries as [|[name' server_config] rest IH]; intros m N; [reflexivity|].
  simpl in N. assert (N1 : name' <> name) by tauto. assert (N2 : ~ In name (Dict.keys rest)) by tauto.
  rewrite start_each_cons.
  destruct (build name' server_config (world name')) as [server|e]; rewrite (IH _ N2); simpl.
  - now apply DictFacts.get_set_other.
  - reflexivity.
Qed.

Lemma start_each_isolates (entries : list (string * json)) (world : string -> launch)
    (m : t) (name : string) (server_config : json) :
  Dict.wf entries ->
  In (name, server_config) entries ->
  match build name server_config (world name) with
  | Ok server => Dict.get name (servers (fst (start_each entries world m))) = Some server
  | Raise _ => Dict.get name (servers (fst (start_each entries world m)))
               = Dict.get name (servers m)
  end.
Proof.
  unfold Dict.wf. revert m.
  induction entries as [|[name' server_config'] rest IH]; intros m W I; [destruct I|].
  inversion W as [|? ? Nh Nt]; subst.
  rewrite start_each_cons.
  destruct I as [E|I].
  - injection E as -> ->.
    destruct (build name server_config (world name)) as [server|e];
      rewrite (start_each_other _ _ _ _ Nh); simpl; [|reflexivity].
    apply DictFacts.get_set_same.
  - assert (N : name' <> name).
    { intros ->. apply Nh. apply in_map_iff. exists (name, server_config). now split. }
    destruct (build name' server_config' (world name')) as [server'|e'].
    + specialize (IH (logger (LogConfigured name')
                        (set_servers (Dict.set name' server' (servers m)) m)) Nt I).
      destruct (build name server_config (world name)); [assumption|].
      rewrite IH. simpl. now apply DictFacts.get_set_other.
    + apply (IH (logger (LogServerFailed name' e') m) Nt I).
Qed.

Lemma start_all_loaded (config : json) (entries : list (string * json))
    (world : string -> launch) (m : t) :
  Py.get config "mcpServers" (JObj []) = Ok (JObj entries) ->
  start_all (Loaded config) world m =
  (logger (LogStartedAll (List.length (servers (fst (start_each entries world m)))))
     (fst (start_each entries world m)), Ok tt).
Proof.
  intros E. unfold start_all, catch, bind, lift. rewrite E. simpl.
  pose proof (start_each_returns entries world m) as R.
  destruct (start_each entries world m) as [m' r]. simpl in R. now subst r.
Qed.

(** [start_all] raises what [exists()] raises and nothing else. *)
Lemma start_all_returns (file : config_file) (world : string -> launch) (m : t) :
  snd (start_all file world m) =
  match file with
  | Unreachable e => Raise e
  | _ => Ok tt
  end.
Proof.
  unfold start_all. destruct file as [e| |e|config]; try reflexivity.
  unfold catch, bind, lift, modify.
  destruct (Py.get config "mcpServers" (JObj [])) as [mcp_servers|]; [|reflexivity].
  destruct (Py.items mcp_servers) as [entries|]; [|reflexivity].
  pose proof (start_each_returns entries world m) as R.
  destruct (start_each entries world m) as [m' r]. simpl in R. now subst r.
Qed.

Lemma extend_all_includes (sessions : list MCPServer.t) (acc all_tools : list json) :
  extend_all sessions acc = Ok all_tools ->
  incl acc all_tools /\
  forall server tools, In server sessions -> MCPServer.get_tools server = Ok tools ->
                       incl tools all_tools.
Proof.
  revert acc. induction sessions as [|server rest IH]; intros acc; simpl.
  - intros [= <-]. split; [apply incl_refl | intros ? ? []].
  - destruct (MCPServer.get_tools server) as [prefixed|] eqn:G; [|discriminate]. simpl.
    intros E. destruct (IH _ E) as [Ia It]. split.
    + intros x I. apply Ia. apply in_or_app. now left.
    + intros server' tools [<-|I] G'.
      * rewrite G in G'. injection G' as <-.
        intros x I. apply Ia. apply in_or_app. now right.
      * now apply (It server').
Qed.

End StartAll.

(** * What gets past the supervisor *)

Section Faults.
Context {B : Builtins}.
Import MCPManager.

(** [stop()] leaves the name and the catalogue: [get_tools] reads the same
    list before and after. *)
Lemma stop_keeps_catalogue (d : shutdown) (s : MCPServer.t) :
  MCPServer.get_tools (fst (MCPServer.stop d s)) = MCPServer.get_tools s.
Proof.
  unfold MCPServer.stop, bind, modify.
  destruct (MCPServer.reader_task s) as [[]|]; simpl;
    destruct (MCPServer.process s); simpl; try reflexivity;
    destruct (terminate_error d); reflexivity.
Qed.

Lemma extend_all_raises (sessions : list MCPServer.t) (acc : list json) (e : exn) :
  extend_all sessions acc = Raise e ->
  exists server, In server sessions /\ MCPServer.get_tools server = Raise e.
Proof.
  revert acc. induction sessions as [|server rest IH]; intros acc; simpl; [discriminate|].
  destruct (MCPServer.get_tools server) as [prefixed|e'] eqn:G; simpl.
  - intros E. destruct (IH _ E) as (server' & I & G'). exists server'. split; [now right | assumption].
  - intros [= ->]. exists server. split; [now left | assumption].
Qed.

Lemma stop_raise_origin (d : shutdown) (s : MCPServer.t) (e : exn) :
  snd (MCPServer.stop d s) = Raise e -> terminate_error d = Some e.
Proof.
  unfold MCPServer.stop, bind, modify. cbn beta iota.
  destruct (MCPServer.process _); [|discriminate].
  destruct (terminate_error d) as [e'|]; [|discriminate].
  cbn. now intros [= ->].
Qed.

Lemma stop_each_raises (names : list string) (world : string -> shutdown) (m : t) (e : exn) :
  snd (stop_each names world m) = Raise e ->
  exists name, In name names /\ terminate_error (world name) = Some e.
Proof.
  revert m. induction names as [|name names IH]; intros m; [discriminate|].
  cbn [stop_each]. unfold bind.
  destruct (Dict.get name (servers m)) as [server|].
  - destruct (MCPServer.stop (world name) server) as [server' [[]|e']] eqn:Es.
    + intros E. destruct (IH _ E) as (name' & I & T). exists name'. split; [now right|assumption].
    + cbn [snd]. intros [= ->]. exists name. split; [now left|].
      apply (stop_raise_origin _ server). now rewrite Es.
  - intros E. destruct (IH _ E) as (name' & I & T). exists name'. split; [now right|assumption].
Qed.


End Faults.



(** * Calls in flight: the table stays in order *)

Section InFlight.
Context {B : Builtins}.
Import MCPServer.

Lemma take_found (fut : nat) (calls rest : list Loop.call) (c : Loop.call) :
  Loop.take fut calls = (Some c, rest) ->
  Loop.call_future c = fut /\ In c calls /\
  (forall c', In c' rest -> In c' calls) /\
  (NoDup (map Loop.call_future calls) ->
   NoDup (map Loop.call_future rest) /\ ~ In fut (map Loop.call_future rest)).
Proof.
  revert rest. induction calls as [|c0 calls IH]; intros rest; simpl; [discriminate|].
  destruct (Nat.eqb (Loop.call_future c0) fut) eqn:E.
  - intros [= <- <-]. apply Nat.eqb_eq in E. repeat split.
    + assumption.
    + now left.
    + intros c' I. now right.
    + now inversion H.
    + inversion H as [|? ? Nh Nt]. now rewrite <- E.
  - destruct (Loop.take fut calls) as [found rest'] eqn:T.
    intros [= -> <-]. destruct (IH rest' eq_refl) as (F & I & S & N).
    apply Nat.eqb_neq in E. repeat split.
    + assumption.
    + now right.
    + intros c' [<-|I']; [now left | right; now apply S].
    + inversion H as [|? ? Nh Nt]; subst. simpl. constructor; [|now apply N].
      intros I'. apply Nh. apply in_map_iff in I' as (c' & E' & I').
      apply in_map_iff. exists c'. split; [assumption | now apply S].
    + inversion H as [|? ? Nh Nt]; subst. simpl. intros [E'|I']; [now apply E|].
      now apply (proj2 (N Nt)).
Qed.

Lemma take_missing (fut : nat) (calls rest : list Loop.call) :
  Loop.take fut calls = (None, rest) -> rest = calls.
Proof.
  revert rest. induction calls as [|c0 calls IH]; intros rest; simpl; [now intros [= <-]|].
  destruct (Nat.eqb (Loop.call_future c0) fut); [discriminate|].
  destruct (Loop.take fut calls) as [found rest'].
  intros [= -> <-]. now rewrite (IH rest' eq_refl).
Qed.

(** What [submit] leaves: nothing when the guard raises, else the counter,
    the new future, the entry and the written bytes. *)
Lemma submit_state (request_id method : string) (params : json) (s : t) :
  match submit request_id method params s with
  | (s', Ok fut) =>
      fut = List.length (futures s) /\
      pending_requests s' = Dict.set request_id fut (pending_requests s) /\
      futures s' = futures s ++ [FPending]
  | (s', Raise _) => s' = s
  end.
Proof.
  unfold submit, bind, running. destruct (process s) as [p|] eqn:Run; [|reflexivity].
  rewrite register_effect. unfold stdin_write. simpl. rewrite Run. simpl. repeat split.
Qed.

Lemma future_state_app (fut : nat) (s s' : t) (more : list future) :
  futures s' = futures s ++ more ->
  future_state fut s <> FCancelled ->
  future_state fut s' = future_state fut s.
Proof.
  unfold future_state. intros -> N.
  destruct (Nat.lt_ge_cases fut (List.length (futures s))) as [L|L].
  - now rewrite app_nth1.
  - rewrite (nth_overflow (futures s)) in N by assumption. contradiction.
Qed.

Lemma not_cancelled_in_range (fut : nat) (s : t) :
  future_state fut s <> FCancelled -> fut < List.length (futures s).
Proof.
  unfold future_state. intros N.
  destruct (Nat.lt_ge_cases fut (List.length (futures s))) as [L|L]; [assumption|].
  rewrite nth_overflow in N by assumption. contradiction.
Qed.

(** The reader loop never gives a result to a settled future: under a
    table in order, [set_result] is reached with a pending future only, so no
    iteration ends in [InvalidStateError]. *)
Lemma handle_message_never_invalid (message : json) (s : t) :
  table_ok s -> snd (handle_message message s) <> Raise InvalidStateError.
Proof.
  intros T.
  destruct (answers (Message message)) as [request_id|] eqn:A.
  - destruct (Dict.get request_id (pending_requests s)) as [fut|] eqn:G.
    + rewrite (handle_message_answer _ _ _ _ A G (table_ok_pending _ _ _ T G)). discriminate.
    + unfold answers in A.
      destruct message as [|b|n|f|text|l|fields]; try discriminate.
      destruct (Dict.get "id" fields) as [[|b|n|f|rid|l|d]|] eqn:I; try discriminate.
      injection A as ->.
      unfold handle_message, bind, lift, ret, modify. simpl. unfold Dict.mem.
      rewrite I. simpl. unfold Dict.mem. rewrite G. simpl.
      destruct (Dict.get "method" fields); simpl; discriminate.
  - unfold answers in A. unfold handle_message, bind, lift, ret, modify.
    destruct message as [|b|n|f|text|l|fields]; simpl; try discriminate.
    + destruct (Str.contains "id" text); simpl; [discriminate|].
      destruct (Str.contains "method" text); simpl; discriminate.
    + destruct (existsb (fun x => Py.eq_str x "id") l); simpl; [discriminate|].
      destruct (existsb (fun x => Py.eq_str x "method") l); simpl; discriminate.
    + unfold Dict.mem.
      destruct (Dict.get "id" fields) as [[|b|n|f|rid|l|d]|]; simpl; try discriminate;
        destruct (Dict.get "method" fields); simpl; discriminate.
Qed.

Lemma step_call (method : string) (params : json) (request_id : string)
    (drain : option exn) (w : Loop.t) :
  Loop.step (Loop.Call method params request_id drain) w =
  match submit request_id method params (Loop.session w) with
  | (s', Ok fut) =>
      match drain with
      | Some e => ({| Loop.session := s'; Loop.waiting := Loop.waiting w |}, Loop.Raised e)
      | None =>
          ({| Loop.session := s';
              Loop.waiting := Loop.waiting w ++
                [{| Loop.call_id := request_id; Loop.call_method := method;
                    Loop.call_future := fut |}] |}, Loop.Suspended)
      end
  | (s', Raise e) => ({| Loop.session := s'; Loop.waiting := Loop.waiting w |}, Loop.Raised e)
  end.
Proof.
  simpl. unfold bind, stdin_drain, ret, raise.
  destruct (submit request_id method params (Loop.session w)) as [s' [fut|e]]; [|reflexivity].
  now destruct drain.
Qed.

Lemma take_spec (c : Loop.call) (calls : list Loop.call) :
  NoDup (map Loop.call_future calls) -> In c calls ->
  exists before after,
    calls = before ++ c :: after /\
    Loop.take (Loop.call_future c) calls = (Some c, before ++ after).
Proof.
  induction calls as [|c0 calls IH]; intros N I; [contradiction|].
  cbn [map] in N. apply NoDup_cons_iff in N as [N0 N].
  destruct (Nat.eqb (Loop.call_future c0) (Loop.call_future c)) eqn:E.
  - apply Nat.eqb_eq in E. destruct I as [->|I].
    + exists [], calls. split; [reflexivity|]. cbn [Loop.take]. now rewrite Nat.eqb_refl.
    + contradiction N0. rewrite E. now apply in_map.
  - destruct I as [->|I]; [now rewrite Nat.eqb_refl in E|].
    destruct (IH N I) as (before & after & -> & Et).
    exists (c0 :: before), after. split; [reflexivity|].
    cbn [Loop.take]. now rewrite E, Et.
Qed.

(** What the end of a wait does to the table and the futures, with no line
    read on the way. *)
Lemma await_now (request_id method : string) (fut : nat) (s : t) :
  let s' := fst (await_response request_id method fut [] [] s) in
  (pending_requests s' = pending_requests s \/
   pending_requests s' = Dict.remove request_id (pending_requests s)) /\
  (futures s' = futures s \/
   (future_state fut s = FPending /\
    futures s' = replace_nth fut FCancelled (futures s))).
Proof.
  cbv zeta. unfold await_response. cbn [wait_for read_lines fold_left].
  unfold bind, modify, gets, pending_del, cancel.
  destruct (future_state fut s) eqn:F; cbn [fst].
  - cbn [pending_requests set_futures].
    destruct (Dict.get request_id (pending_requests s)); cbn; split; tauto.
  - split; now left.
  - destruct (Dict.get request_id (pending_requests s)); cbn; split; tauto.
Qed.

Lemma await_response_entries (request_id method : string) (fut : nat) (s : t)
    (r : string) (f : nat) :
  In (r, f) (pending_requests (fst (await_response request_id method fut [] [] s))) ->
  In (r, f) (pending_requests s).
Proof.
  destruct (await_now request_id method fut s) as [[-> | ->] _]; [easy|].
  apply DictFacts.In_remove.
Qed.

Lemma await_response_futures (request_id method : string) (fut f : nat) (s : t) :
  f <> fut ->
  future_state f (fst (await_response request_id method fut [] [] s)) = future_state f s.
Proof.
  intros N. unfold future_state.
  destruct (await_now request_id method fut s) as [_ [-> | [_ ->]]]; [reflexivity|].
  apply nth_replace_nth_other. congruence.
Qed.

Lemma await_response_length (request_id method : string) (fut : nat) (s : t) :
  List.length (futures (fst (await_response request_id method fut [] [] s)))
  = List.length (futures s).
Proof.
  destruct (await_now request_id method fut s) as [_ [-> | [_ ->]]]; [reflexivity|].
  apply length_replace_nth.
Qed.

Lemma await_response_no_result (request_id method : string) (fut f : nat) (s : t)
    (message : json) :
  future_state f (fst (await_response request_id method fut [] [] s)) = FResult message ->
  future_state f s = FResult message.
Proof.
  unfold future_state.
  destruct (await_now request_id method fut s) as [_ [-> | [F ->]]]; [easy|].
  destruct (Nat.eq_dec fut f) as [<-|D].
  - rewrite nth_replace_nth_same; [discriminate|]. now apply pending_in_range.
  - now rewrite nth_replace_nth_other.
Qed.

Lemma cancel_futures (fut : nat) (s : t) :
  futures (cancel fut s) = futures s \/
  (future_state fut s = FPending /\
   futures (cancel fut s) = replace_nth fut FCancelled (futures s)).
Proof. unfold cancel. destruct (future_state fut s) eqn:F; cbn; tauto. Qed.

Lemma cancel_length (fut : nat) (s : t) :
  List.length (futures (cancel fut s)) = List.length (futures s).
Proof.
  destruct (cancel_futures fut s) as [-> | [_ ->]]; [reflexivity|apply length_replace_nth].
Qed.

Lemma cancel_no_result (fut f : nat) (s : t) (message : json) :
  future_state f (cancel fut s) = FResult message -> future_state f s = FResult message.
Proof.
  unfold future_state.
  destruct (cancel_futures fut s) as [-> | [F ->]]; [easy|].
  destruct (Nat.eq_dec fut f) as [<-|D].
  - rewrite nth_replace_nth_same; [discriminate|]. now apply pending_in_range.
  - now rewrite nth_replace_nth_other.
Qed.

Lemma in_values {V} (d : dict V) (v : V) :
  In v (Dict.values d) -> exists k, In (k, v) d.
Proof.
  unfold Dict.values. intros I. apply in_map_iff in I as ([k v'] & E & I).
  cbn in E. subst v'. now exists k.
Qed.

(** A state in order is sound. *)
Lemma ok_sound (w : Loop.t) : Loop.ok w -> Loop.sound w.
Proof.
  intros ((W & N & P) & Nw & O). split; [assumption|]. split; [assumption|].
  split; [|split; [assumption|]].
  - intros r f I. pose proof (P r f I) as F. split; [now apply pending_in_range|].
    intros message. rewrite F. discriminate.
  - intros c I. destruct (O c I) as [Nc Own]. split; [|assumption].
    now apply not_cancelled_in_range.
Qed.

(** Every event keeps the state sound, the firing of a timer too. *)
Theorem step_sound (e : Loop.event) (w : Loop.t) :
  Loop.sound w -> Loop.sound (fst (Loop.step e w)).
Proof.
  intros (W & N & P & Nw & O).
  destruct e as [method params request_id drain|l|fut|fut|d].
  - (* Call *)
    rewrite step_call.
    pose proof (submit_state request_id method params (Loop.session w)) as S.
    destruct (submit request_id method params (Loop.session w)) as [s' [fut|e]].
    + destruct S as (-> & Ep & Ef).
      assert (Fresh : ~ In (List.length (futures (Loop.session w)))
                        (Dict.values (pending_requests (Loop.session w)))).
      { intros I. apply in_values in I as (k & I). apply P in I. lia. }
      assert (W' : Dict.wf (pending_requests s')) by (rewrite Ep; now apply DictFacts.wf_set).
      assert (N' : NoDup (Dict.values (pending_requests s')))
        by (rewrite Ep; now apply NoDup_values_set).
      assert (P' : forall r f, In (r, f) (pending_requests s') ->
                f < List.length (futures s') /\
                forall message, future_state f s' <> FResult message).
      { intros r f I. rewrite Ep in I. unfold future_state. rewrite Ef, length_app. cbn.
        apply In_set in I as [[-> ->]|I].
        - split; [lia|]. intros message. rewrite nth_middle. discriminate.
        - destruct (P r f I) as [L R]. split; [lia|]. intros message.
          rewrite app_nth1 by assumption. apply R. }
      assert (O' : forall c, In c (Loop.waiting w) ->
                Loop.call_future c < List.length (futures s') /\
                forall r, In (r, Loop.call_future c) (pending_requests s') -> r = Loop.call_id c).
      { intros c I. destruct (O c I) as [L Own]. rewrite Ef, length_app. cbn.
        split; [lia|]. intros r I'. rewrite Ep in I'.
        apply In_set in I' as [[-> E]|I']; [lia|now apply Own]. }
      destruct drain as [e|]; unfold Loop.sound; cbn [fst Loop.session Loop.waiting].
      * repeat (split; [assumption|]). assumption.
      * split; [assumption|]. split; [assumption|]. split; [assumption|]. split.
        -- rewrite map_app. cbn.
           apply NoDup_app; [assumption | repeat constructor; cbn; tauto|].
           intros f I [<-|[]]. apply in_map_iff in I as (c & E & I).
           destruct (O c I) as [L _]. lia.
        -- intros c I. apply in_app_or in I as [I|[<-|[]]]; [now apply O'|].
           cbn. rewrite Ef, length_app. cbn. split; [lia|].
           intros r I. rewrite Ep in I. apply In_set in I as [[-> _]|I]; [reflexivity|].
           apply P in I. lia.
    + subst s'. cbn. repeat (split; [assumption|]). assumption.
  - (* Line *)
    cbn [Loop.step fst Loop.session Loop.waiting].
    destruct (read_line_cases l (Loop.session w))
      as [[Ep Ef]|(r0 & f0 & message & _ & _ & G & _ & Ep & [(F & Ef & _)|(F & Ef & _)])].
    + unfold Loop.sound, future_state. cbn [Loop.session Loop.waiting].
      rewrite Ep, Ef. repeat (split; [assumption|]). assumption.
    + unfold Loop.sound, future_state. cbn [Loop.session Loop.waiting].
      rewrite Ep, Ef, length_replace_nth.
      split; [now apply DictFacts.wf_remove|]. split; [now apply NoDup_values_remove|].
      split; [|split; [assumption|]].
      * intros r f I.
        assert (D : f0 <> f).
        { intros <-. apply (removed_key _ _ _ _ W I).
          apply (one_key _ _ _ _ N (DictFacts.In_remove _ _ _ _ _ I)).
          now apply DictFacts.get_In. }
        destruct (P r f (DictFacts.In_remove _ _ _ _ _ I)) as [L R].
        split; [assumption|]. intros m. rewrite nth_replace_nth_other by assumption. apply R.
      * intros c I. destruct (O c I) as [L Own]. split; [assumption|].
        intros r I'. apply Own. now apply DictFacts.In_remove in I'.
    + unfold Loop.sound, future_state. cbn [Loop.session Loop.waiting].
      rewrite Ep, Ef.
      split; [now apply DictFacts.wf_remove|]. split; [now apply NoDup_values_remove|].
      split; [|split; [assumption|]].
      * intros r f I. apply (P r f). now apply DictFacts.In_remove in I.
      * intros c I. destruct (O c I) as [L Own]. split; [assumption|].
        intros r I'. apply Own. now apply DictFacts.In_remove in I'.
  - (* Expire *)
    cbn [Loop.step].
    destruct (Loop.take fut (Loop.waiting w)) as [[c|] rest];
      [|repeat (split; [assumption|]); assumption].
    unfold Loop.sound. cbn [fst Loop.session Loop.waiting].
    rewrite pending_cancel, cancel_length.
    split; [assumption|]. split; [assumption|]. split; [|split; assumption].
    intros r f I. destruct (P r f I) as [L R]. split; [assumption|].
    intros message E. apply (R message). now apply cancel_no_result in E.
  - (* Wake *)
    cbn [Loop.step].
    destruct (Loop.take fut (Loop.waiting w)) as [[c|] rest] eqn:K;
      [|repeat (split; [assumption|]); assumption].
    destruct (take_found _ _ _ _ K) as (E & I & S & D). destruct (D Nw) as [N' F'].
    assert (R : Loop.sound
                  {| Loop.session :=
                       fst (await_response (Loop.call_id c) (Loop.call_method c) fut [] []
                              (Loop.session w));
                     Loop.waiting := rest |}).
    { unfold Loop.sound. cbn [Loop.session Loop.waiting]. rewrite await_response_length.
      split; [|split; [|split; [|split; [assumption|]]]].
      - destruct (await_now (Loop.call_id c) (Loop.call_method c) fut (Loop.session w))
          as [[-> | ->] _]; [assumption|now apply DictFacts.wf_remove].
      - destruct (await_now (Loop.call_id c) (Loop.call_method c) fut (Loop.session w))
          as [[-> | ->] _]; [assumption|now apply NoDup_values_remove].
      - intros r f I'. apply await_response_entries in I'.
        destruct (P r f I') as [L Rf]. split; [assumption|].
        intros message E'. apply (Rf message). now apply await_response_no_result in E'.
      - intros c0 I0. destruct (O c0 (S c0 I0)) as [L Own]. split; [assumption|].
        intros r I'. apply Own. now apply await_response_entries in I'. }
    now destruct (await_response (Loop.call_id c) (Loop.call_method c) fut [] []
                    (Loop.session w)) as [s' [response|e]].
  - (* Stop *)
    cbn [Loop.step].
    destruct (stop_leaves_table d (Loop.session w)) as [Ep Ef].
    assert (R : Loop.sound {| Loop.session := fst (stop d (Loop.session w));
                              Loop.waiting := Loop.waiting w |}).
    { unfold Loop.sound, future_state. cbn [Loop.session Loop.waiting].
      rewrite Ep, Ef. repeat (split; [assumption|]). assumption. }
    now destruct (stop d (Loop.session w)) as [s' [[]|e]].
Qed.

(** Every run keeps the state sound. *)
Theorem run_sound (events : list Loop.event) (w : Loop.t) :
  Loop.sound w -> Loop.sound (fst (Loop.run events w)).
Proof.
  revert w. induction events as [|e rest IH]; intros w Ok; [assumption|].
  cbn [Loop.run]. pose proof (step_sound e w Ok) as Ok'.
  destruct (Loop.step e w) as [w' o]. specialize (IH w' Ok').
  now destruct (Loop.run rest w') as [w'' os].
Qed.

Lemma take_ids (fut : nat) (calls rest : list Loop.call) (c : Loop.call) :
  NoDup (map Loop.call_id calls) ->
  Loop.take fut calls = (Some c, rest) ->
  NoDup (map Loop.call_id rest) /\ ~ In (Loop.call_id c) (map Loop.call_id rest).
Proof.
  revert rest. induction calls as [|c0 calls IH]; intros rest N; cbn [Loop.take]; [discriminate|].
  cbn [map] in N. apply NoDup_cons_iff in N as [N0 N].
  destruct (Nat.eqb (Loop.call_future c0) fut).
  - intros [= <- <-]. now split.
  - destruct (Loop.take fut calls) as [found rest'] eqn:T.
    intros [= -> <-]. destruct (IH rest' N eq_refl) as [Nr Nc].
    destruct (take_found _ _ _ _ T) as (_ & Ic & Sub & _).
    assert (S : forall r, In r (map Loop.call_id rest') -> In r (map Loop.call_id calls)).
    { intros r I. apply in_map_iff in I as (c' & <- & I). apply in_map. now apply Sub. }
    split.
    + cbn [map]. constructor; [|assumption]. intros I. apply N0. now apply S.
    + cbn [map]. intros [E|I]; [|contradiction].
      apply N0. rewrite E. now apply in_map.
Qed.

(** With ids of their own, and new ids for the calls to come, every event
    keeps the suspended calls registered: a call whose future is pending has
    its entry in the table. *)
Theorem step_registered (e : Loop.event) (w : Loop.t) :
  Loop.sound w -> Loop.registered w -> Loop.own_ids w ->
  match e with
  | Loop.Call _ _ request_id _ =>
      Dict.get request_id (pending_requests (Loop.session w)) = None /\
      ~ In request_id (map Loop.call_id (Loop.waiting w))
  | _ => True
  end ->
  Loop.registered (fst (Loop.step e w)) /\ Loop.own_ids (fst (Loop.step e w)).
Proof.
  intros (W & N & P & Nw & O) Reg Ids Fresh.
  destruct e as [method params request_id drain|l|fut|fut|d].
  - (* Call *)
    destruct Fresh as [Fresh New]. rewrite step_call.
    pose proof (submit_state request_id method params (Loop.session w)) as S.
    destruct (submit request_id method params (Loop.session w)) as [s' [fut|e]].
    + destruct S as (-> & Ep & Ef).
      assert (Old : forall c, In c (Loop.waiting w) -> future_state (Loop.call_future c) s' = FPending ->
                Dict.get (Loop.call_id c) (pending_requests s') = Some (Loop.call_future c)).
      { intros c I F. destruct (O c I) as [L _].
        unfold future_state in F. rewrite Ef, app_nth1 in F by assumption.
        pose proof (Reg c I F) as G. rewrite Ep, DictFacts.get_set_other; [assumption|].
        intros E. congruence. }
      destruct drain as [e|]; cbn [fst]; (split; [|unfold Loop.own_ids; cbn [Loop.waiting]]).
      * intros c I. cbn [Loop.session Loop.waiting] in *. now apply Old.
      * exact Ids.
      * intros c I. cbn [Loop.session Loop.waiting] in *.
        apply in_app_or in I as [I|[<-|[]]]; [now apply Old|].
        cbn. intros _. rewrite Ep. apply DictFacts.get_set_same.
      * rewrite map_app. cbn.
        apply NoDup_app; [exact Ids | repeat constructor; cbn; tauto|].
        intros r I [<-|[]]. now apply New.
    + subst s'. cbn. now split.
  - (* Line *)
    cbn [Loop.step fst]. split; [|exact Ids].
    intros c I. cbn [Loop.session Loop.waiting] in *. unfold future_state.
    destruct (read_line_cases l (Loop.session w))
      as [[Ep Ef]|(r0 & f0 & message & _ & _ & G & _ & Ep & [(F & Ef & _)|(F & Ef & _)])];
      rewrite Ep, Ef.
    + now apply Reg.
    + destruct (Nat.eq_dec f0 (Loop.call_future c)) as [E|D].
      * rewrite E, nth_replace_nth_same; [discriminate|]. now apply (O c I).
      * rewrite nth_replace_nth_other by assumption. intros Fc.
        pose proof (Reg c I Fc) as Gc.
        rewrite DictFacts.get_remove_other; [assumption|]. intros E. congruence.
    + intros Fc. pose proof (Reg c I Fc) as Gc.
      rewrite DictFacts.get_remove_other; [assumption|]. intros E.
      apply F. unfold future_state in *. congruence.
  - (* Expire *)
    cbn [Loop.step].
    destruct (Loop.take fut (Loop.waiting w)) as [[c0|] rest] eqn:K; [|now split].
    cbn [fst]. split; [|exact Ids].
    intros c I. cbn [Loop.session Loop.waiting] in *. rewrite pending_cancel.
    intros Fc. apply Reg; [assumption|].
    destruct (Nat.eq_dec (Loop.call_future c) fut) as [E|D].
    * rewrite E in Fc. unfold future_state in Fc.
      destruct (cancel_futures fut (Loop.session w)) as [Ec | [F Ec]]; rewrite Ec in Fc.
      -- now rewrite E.
      -- rewrite nth_replace_nth_same in Fc; [discriminate|]. now apply pending_in_range.
    * now rewrite future_state_cancel in Fc.
  - (* Wake *)
    cbn [Loop.step].
    destruct (Loop.take fut (Loop.waiting w)) as [[c0|] rest] eqn:K; [|now split].
    destruct (take_found _ _ _ _ K) as (E & I0 & S & D). destruct (D Nw) as [N' F'].
    destruct (take_ids _ _ _ _ Ids K) as [Nr Nc].
    assert (R : Loop.registered
                  {| Loop.session :=
                       fst (await_response (Loop.call_id c0) (Loop.call_method c0) fut [] []
                              (Loop.session w));
                     Loop.waiting := rest |}).
    { intros c I. cbn [Loop.session Loop.waiting] in *.
      assert (Df : Loop.call_future c <> fut).
      { intros Ef. apply F'. rewrite <- Ef. now apply in_map. }
      rewrite await_response_futures by assumption. intros Fc.
      pose proof (Reg c (S c I) Fc) as Gc.
      destruct (await_now (Loop.call_id c0) (Loop.call_method c0) fut (Loop.session w))
        as [[-> | ->] _]; [assumption|].
      rewrite DictFacts.get_remove_other; [assumption|].
      intros Ei. apply Nc. rewrite Ei. now apply in_map. }
    destruct (await_response (Loop.call_id c0) (Loop.call_method c0) fut [] []
                (Loop.session w)) as [s' [response|e]]; now split.
  - (* Stop *)
    cbn [Loop.step].
    destruct (stop_leaves_table d (Loop.session w)) as [Ep Ef].
    assert (R : Loop.registered {| Loop.session := fst (stop d (Loop.session w));
                                   Loop.waiting := Loop.waiting w |}).
    { intros c I. cbn [Loop.session Loop.waiting] in *. unfold future_state.
      rewrite Ep, Ef. now apply Reg. }
    destruct (stop d (Loop.session w)) as [s' [[]|e]]; now split.
Qed.

(** With new ids every run keeps the suspended calls registered. *)
Theorem run_registered (events : list Loop.event) (w : Loop.t) :
  Loop.sound w -> Loop.registered w -> Loop.own_ids w -> Loop.new_ids events w ->
  Loop.registered (fst (Loop.run events w)).
Proof.
  revert w. induction events as [|e rest IH]; intros w Ok Reg Ids New; [assumption|].
  cbn [Loop.run]. destruct New as [Ne Nrest].
  pose proof (step_sound e w Ok) as Ok'.
  assert (R : Loop.registered (fst (Loop.step e w)) /\ Loop.own_ids (fst (Loop.step e w))).
  { now apply step_registered. }
  destruct R as [Reg' Ids'].
  destruct (Loop.step e w) as [w' o]. specialize (IH w' Ok' Reg' Ids' Nrest).
  now destruct (Loop.run rest w') as [w'' os].
Qed.

(** A suspended call that is resumed returns, with the response or with
    the timeout error, when its future is not cancelled or its entry is
    still in the table; when its future is cancelled and its entry is gone,
    the [del] of the [except] clause raises [KeyError]. *)
Theorem wake_returns (c : Loop.call) (w : Loop.t) :
  Loop.sound w -> Loop.registered w ->
  In c (Loop.waiting w) ->
  (future_state (Loop.call_future c) (Loop.session w) <> FCancelled \/
   Dict.get (Loop.call_id c) (pending_requests (Loop.session w)) <> None ->
   exists response,
     snd (Loop.step (Loop.Wake (Loop.call_future c)) w) = Loop.Returned response) /\
  (future_state (Loop.call_future c) (Loop.session w) = FCancelled ->
   Dict.get (Loop.call_id c) (pending_requests (Loop.session w)) = None ->
   snd (Loop.step (Loop.Wake (Loop.call_future c)) w)
   = Loop.Raised (KeyError (Loop.call_id c))).
Proof.
  intros (W & N & P & Nw & O) Reg I. cbn [Loop.step].
  destruct (take_spec c (Loop.waiting w) Nw I) as (before & after & Ew & ->).
  unfold await_response. cbn [wait_for]. unfold read_lines. cbn [fold_left].
  split.
  - intros H. destruct (future_state (Loop.call_future c) (Loop.session w)) eqn:F.
    + unfold bind, modify, gets, pending_del. rewrite pending_cancel, (Reg c I F).
      cbn. now eexists.
    + now eexists.
    + destruct H as [H|H]; [contradiction|].
      unfold bind, modify, gets, pending_del. rewrite pending_cancel.
      destruct (Dict.get (Loop.call_id c) (pending_requests (Loop.session w)));
        [cbn; now eexists|contradiction].
  - intros F G. rewrite F. unfold bind, modify, gets, pending_del.
    now rewrite pending_cancel, G.
Qed.

(** An entry that no call waits for stays in the table, its future pending,
    through every run in which no line answers it and no call draws its id:
    no timer and no [stop()] settles it. *)
Theorem unawaited_entry_stays (request_id : string) (fut : nat)
    (events : list Loop.event) (w : Loop.t) :
  Loop.sound w ->
  Dict.get request_id (pending_requests (Loop.session w)) = Some fut ->
  future_state fut (Loop.session w) = FPending ->
  (forall c, In c (Loop.waiting w) -> Loop.call_id c <> request_id) ->
  Loop.silent_on request_id events ->
  Dict.get request_id (pending_requests (Loop.session (fst (Loop.run events w)))) = Some fut /\
  future_state fut (Loop.session (fst (Loop.run events w))) = FPending.
Proof.
  revert w. induction events as [|e rest IH]; intros w Ok G F Ids Silent.
  - now split.
  - destruct Silent as [Se Srest]. cbn [Loop.run].
    pose proof (step_sound e w Ok) as Ok'.
    assert (K : Dict.get request_id
                  (pending_requests (Loop.session (fst (Loop.step e w)))) = Some fut /\
                future_state fut (Loop.session (fst (Loop.step e w))) = FPending /\
                forall c, In c (Loop.waiting (fst (Loop.step e w))) ->
                          Loop.call_id c <> request_id).
    { clear IH Ok' Srest. destruct Ok as (W & N & P & Nw & O).
      assert (Other : forall c, In c (Loop.waiting w) -> Loop.call_future c <> fut).
      { intros c I E. apply (Ids c I). symmetry. apply (O c I). rewrite E.
        now apply DictFacts.get_In. }
      destruct e as [method params rid drain|l|f|f|d]; [rewrite step_call|cbn [Loop.step]..].
      - pose proof (submit_state rid method params (Loop.session w)) as S.
        destruct (submit rid method params (Loop.session w)) as [s' [fut'|e]]; simpl in *.
        + destruct S as (-> & Ep & Ef).
          assert (G' : Dict.get request_id (pending_requests s') = Some fut)
            by (rewrite Ep, DictFacts.get_set_other; assumption).
          assert (F' : future_state fut s' = FPending).
          { unfold future_state. rewrite Ef, app_nth1; [assumption|].
            now apply pending_in_range. }
          destruct drain as [e|]; simpl; (split; [assumption|split; [assumption|]]);
            try assumption.
          intros c I. apply in_app_or in I as [I|[<-|[]]]; [now apply Ids | assumption].
        + subst s'. now split.
      - cbn [fst Loop.session Loop.waiting]. split; [|split; [|assumption]].
        + now rewrite read_line_keeps_entry.
        + unfold future_state.
          destruct (read_line_cases l (Loop.session w))
            as [[Ep Ef]|(r0 & f0 & message & _ & Al & G0 & _ & Ep & [(F0 & Ef & _)|(F0 & Ef & _)])];
            rewrite Ef; try assumption.
          rewrite nth_replace_nth_other; [assumption|].
          intros E. subst f0. apply Se.
          rewrite Al. f_equal.
          apply (one_key _ r0 request_id fut N); now apply DictFacts.get_In.
      - destruct (Loop.take f (Loop.waiting w)) as [[c|] others] eqn:Q; [|now split].
        destruct (take_found _ _ _ _ Q) as (E & Ic & S & _).
        cbn [fst Loop.session Loop.waiting]. rewrite pending_cancel.
        split; [assumption|]. split; [|assumption].
        rewrite future_state_cancel; [assumption|]. rewrite <- E. intros E'.
        now apply (Other c Ic).
      - destruct (Loop.take f (Loop.waiting w)) as [[c|] others] eqn:Q; [|now split].
        destruct (take_found _ _ _ _ Q) as (E & Ic & S & _).
        assert (R : Dict.get request_id
                      (pending_requests
                         (fst (await_response (Loop.call_id c) (Loop.call_method c) f [] []
                                 (Loop.session w)))) = Some fut /\
                    future_state fut
                      (fst (await_response (Loop.call_id c) (Loop.call_method c) f [] []
                              (Loop.session w))) = FPending).
        { split.
          - destruct (await_now (Loop.call_id c) (Loop.call_method c) f (Loop.session w))
              as [[-> | ->] _]; [assumption|].
            rewrite DictFacts.get_remove_other; [assumption | now apply Ids].
          - rewrite await_response_futures; [assumption|].
            rewrite <- E. intros E'. now apply (Other c Ic). }
        destruct (await_response (Loop.call_id c) (Loop.call_method c) f [] [] (Loop.session w))
          as [s' [response|e]]; simpl in *; (split; [apply R|split; [apply R|]]);
          intros c' I'; now apply Ids, S.
      - destruct (stop_leaves_table d (Loop.session w)) as [Ep Ef].
        destruct (stop d (Loop.session w)) as [s' [[]|e]]; simpl in *;
          unfold future_state; rewrite Ep, Ef; now split. }
    destruct K as (G' & F' & Ids').
    destruct (Loop.step e w) as [w' o]. simpl in *.
    destruct (IH w' Ok' G' F' Ids' Srest) as [Gf Ff].
    destruct (Loop.run rest w') as [w'' os]. now split.
Qed.

End InFlight.

(** C2, where the code departs from it.  The child of a started session has
    closed its stdin, so [drain()] raises.  [_send_request] raises too, with
    the id it registered still in the table and its future pending.  Then a
    second call starts, a line arrives, the second call's timer expires and
    [stop()] runs: the first id is still in the table, its future still
    pending, and no call waits for it.  Nothing settles this entry. *)
Theorem failed_drain_entry_is_never_settled :
  let s := Demo.started "A" "node" ["x"] in
  let params := JObj [("name", JStr "x"); ("arguments", JObj [])] in
  let after_failure :=
    MCPServer._send_request "tools/call" params (Demo.broken_pipe "9566c74d") s in
  let later :=
    Loop.run [Loop.Call "tools/call" params "81855ad8" None;
              Loop.Line (Malformed "Server listening on stdio");
              Loop.Wake 3;
              Loop.Stop {| terminate_error := None; exits_in_time := true |}]
             {| Loop.session := fst after_failure; Loop.waiting := [] |} in
  snd after_failure = Raise (OSError "Connection lost") /\
  MCPServer.pending_requests (fst after_failure) = [("9566c74d", 2)] /\
  MCPServer.future_state 2 (fst after_failure) = FPending /\
  snd later = [Loop.Suspended; Loop.Suspended;
               Loop.Returned (MCPServer.timeout_error s); Loop.Suspended] /\
  MCPServer.pending_requests (Loop.session (fst later)) = [("9566c74d", 2)] /\
  MCPServer.future_state 2 (Loop.session (fst later)) = FPending /\
  Loop.waiting (fst later) = [].
Proof. vm_compute. repeat split. Qed.

(** * One call from start to return is one run of the loop *)

Section Schedule.
Context {B : Builtins}.
Import MCPServer.

(** The wait reads some of the arriving lines and then ends at once. *)
Lemma wait_for_split (fut : nat) (arriving : list line) (s : t) :
  exists used rest,
    arriving = used ++ rest /\
    wait_for fut arriving s = wait_for fut [] (read_lines used s).
Proof.
  revert s. induction arriving as [|l ls IH]; intros s.
  - now exists [], [].
  - destruct (future_state fut s) eqn:F.
    + destruct (IH (read_line l s)) as (used & rest & -> & E).
      exists (l :: used), rest. split; [reflexivity|].
      cbn [wait_for]. rewrite F. exact E.
    + exists [], (l :: ls). split; [reflexivity|]. cbn [wait_for read_lines fold_left].
      now rewrite F.
    + destruct (IH (read_line l s)) as (used & rest & -> & E).
      exists (l :: used), rest. split; [reflexivity|].
      cbn [wait_for]. rewrite F. exact E.
Qed.

Lemma run_lines (ls : list line) (w : Loop.t) :
  Loop.run (map Loop.Line ls) w =
  ({| Loop.session := read_lines ls (Loop.session w); Loop.waiting := Loop.waiting w |},
   repeat Loop.Suspended (List.length ls)).
Proof.
  revert w. induction ls as [|l ls IH]; intros w; [now destruct w|].
  cbn [map Loop.run Loop.step]. rewrite IH. reflexivity.
Qed.

Lemma run_app (events events' : list Loop.event) (w : Loop.t) :
  Loop.run (events ++ events') w =
  (fst (Loop.run events' (fst (Loop.run events w))),
   snd (Loop.run events w) ++ snd (Loop.run events' (fst (Loop.run events w)))).
Proof.
  revert w. induction events as [|e events IH]; intros w; cbn [app Loop.run].
  - cbn [fst snd app]. now destruct (Loop.run events' w).
  - destruct (Loop.step e w) as [w' o]. rewrite IH.
    now destruct (Loop.run events w').
Qed.

(** A settled future is left alone by [cancel]. *)
Lemma cancel_settled (fut : nat) (s : t) : future_state fut s <> FPending -> cancel fut s = s.
Proof. unfold cancel. now destruct (future_state fut s). Qed.

Lemma cancel_cancels (fut : nat) (s : t) :
  (forall message, future_state fut s <> FResult message) ->
  future_state fut (cancel fut s) = FCancelled.
Proof.
  intros N. unfold cancel. destruct (future_state fut s) eqn:F.
  - unfold future_state. cbn. apply nth_replace_nth_same. now apply pending_in_range.
  - now contradiction (N message).
  - assumption.
Qed.

(** A cancelled future stays cancelled whatever the reader takes. *)
Lemma cancelled_stays (fut : nat) (ls : list line) (s : t) :
  future_state fut s = FCancelled -> future_state fut (read_lines ls s) = FCancelled.
Proof.
  revert s. induction ls as [|l ls IH]; intros s F; [assumption|].
  change (read_lines (l :: ls) s) with (read_lines ls (read_line l s)). apply IH.
  unfold future_state in *.
  destruct (read_line_cases l s)
    as [[_ Ef]|(r0 & f0 & message & _ & _ & _ & _ & _ & [(F0 & Ef & _)|(_ & Ef & _)])];
    rewrite Ef; try assumption.
  rewrite nth_replace_nth_other; [assumption|]. unfold future_state in F0. congruence.
Qed.

(** [_send_request] on a running session whose bytes are flushed is the run
    in which the call starts, the reader takes the lines the wait reads, the
    timer fires, the reader takes the lines that arrive before the caller
    runs again (none when the future has its result), and the caller is
    resumed. *)
Theorem send_request_is_a_run (method : string) (params : json) (x : exchange) (s : t) :
  process s <> None ->
  drain_error x = None ->
  exists used rest read,
    replies x = used ++ rest /\
    (read = [] \/ read = late x) /\
    Loop.run (Loop.Call method params (request_id x) None
              :: map Loop.Line used
              ++ Loop.Expire (List.length (futures s))
              :: map Loop.Line read ++ [Loop.Wake (List.length (futures s))])
             {| Loop.session := s; Loop.waiting := [] |}
    = ({| Loop.session := fst (_send_request method params x s); Loop.waiting := [] |},
       Loop.Suspended :: repeat Loop.Suspended (List.length used)
         ++ Loop.Suspended :: repeat Loop.Suspended (List.length read)
         ++ [Loop.outcome_of (snd (_send_request method params x s))]).
Proof.
  intros Run Drain. destruct (process s) as [p|] eqn:P; [|contradiction].
  destruct (submit_registers_before_writing (request_id x) method params s p P)
    as (_ & _ & _ & E & _).
  set (s1 := fst (stdin_write _ _)) in E.
  destruct (wait_for_split (List.length (futures s)) (replies x) s1)
    as (used & rest & Eu & Ew).
  set (n := List.length (futures s)) in *.
  set (s2 := read_lines used s1) in *.
  assert (Seq : _send_request method params x s
                = await_response (request_id x) method n [] (late x) s2).
  { unfold _send_request, bind. rewrite E, Drain. cbn [stdin_drain ret].
    unfold await_response. now rewrite Ew. }
  assert (Run1 : forall read,
            Loop.run (Loop.Call method params (request_id x) None
                      :: map Loop.Line used
                      ++ Loop.Expire n :: map Loop.Line read ++ [Loop.Wake n])
                     {| Loop.session := s; Loop.waiting := [] |}
            = (let r := await_response (request_id x) method n [] []
                          (read_lines read (cancel n s2)) in
               ({| Loop.session := fst r; Loop.waiting := [] |},
                Loop.Suspended :: repeat Loop.Suspended (List.length used)
                  ++ Loop.Suspended :: repeat Loop.Suspended (List.length read)
                  ++ [Loop.outcome_of (snd r)]))).
  { intros read. cbn [Loop.run]. rewrite step_call. cbn [Loop.session Loop.waiting]. rewrite E.
    rewrite run_app, run_lines. cbn [fst snd Loop.session Loop.waiting app].
    cbn [Loop.run Loop.step Loop.waiting Loop.take Loop.call_future Loop.session].
    rewrite Nat.eqb_refl. cbn [Loop.session Loop.waiting].
    rewrite run_app, run_lines. cbn [fst snd Loop.session Loop.waiting app].
    cbn [Loop.run Loop.step Loop.waiting Loop.take Loop.call_future Loop.session].
    rewrite Nat.eqb_refl. cbn [Loop.call_id Loop.call_method]. fold s2.
    now destruct (await_response (request_id x) method n [] []
                    (read_lines read (cancel n s2))) as [s3 [response|e]]. }
  exists used, rest.
  destruct (future_state n s2) as [|message|] eqn:F.
  - exists (late x). split; [assumption|]. split; [now right|].
    rewrite Run1, Seq. cbv zeta.
    assert (C : future_state n (read_lines (late x) (cancel n s2)) = FCancelled).
    { apply cancelled_stays, cancel_cancels. intros message. rewrite F. discriminate. }
    unfold await_response. cbn [wait_for]. rewrite F, C.
    rewrite (cancel_settled n (read_lines (late x) (cancel n s2))) by (rewrite C; discriminate).
    reflexivity.
  - exists []. split; [assumption|]. split; [now left|].
    rewrite Run1, Seq. cbv zeta. cbn [read_lines fold_left].
    rewrite cancel_settled by (rewrite F; discriminate).
    unfold await_response. cbn [wait_for]. rewrite F. reflexivity.
  - exists (late x). split; [assumption|]. split; [now right|].
    rewrite Run1, Seq. cbv zeta.
    assert (C : future_state n (read_lines (late x) (cancel n s2)) = FCancelled).
    { apply cancelled_stays, cancel_cancels. intros message. rewrite F. discriminate. }
    unfold await_response. cbn [wait_for]. rewrite F, C.
    rewrite (cancel_settled n (read_lines (late x) (cancel n s2))) by (rewrite C; discriminate).
    reflexivity.
Qed.

End Schedule.

(** * Separable server names *)

Module SeparableFacts.
Import Str StrFacts.

Lemma last_character (b : string) :
  b = "" \/ exists b0 c, b = (b0 ++ String c "")%string.
Proof.
  induction b as [|x b IH]; [now left|]. right.
  destruct IH as [->|(b0 & c & ->)].
  - now exists "", x.
  - now exists (String x b0), c.
Qed.

Lemma append_last (x y : string) (c c' : ascii) :
  (x ++ String c "" = y ++ String c' "")%string -> x = y /\ c = c'.
Proof.
  intros E.
  destruct (append_same_length x y (String c "") (String c' "") E) as [-> E'].
  - apply (f_equal String.length) in E. rewrite !length_append in E. simpl in E. lia.
  - split; [reflexivity | now injection E'].
Qed.

(** [separable] says what its name says: the name holds no ["__"] and does
    not end with ["_"]. *)
Theorem separable_spec (k : string) :
  separable k = true <->
  (forall a b, k <> (a ++ "__" ++ b)%string) /\ (forall a, k <> (a ++ "_")%string).
Proof.
  unfold separable. rewrite negb_true_iff, <- no_delimiter. split.
  - intros N. split.
    + intros a b ->. apply (N a (b ++ "_")%string).
      now rewrite !append_assoc.
    + intros a ->. apply (N a ""). now rewrite append_assoc.
  - intros [N1 N2] a b E.
    destruct (last_character b) as [->|(b0 & c & ->)].
    + apply (N2 a).
      change (a ++ "__" ++ "")%string with (a ++ "_" ++ "_")%string in E.
      rewrite <- append_assoc in E. now apply NameFacts.append_cancel_r in E.
    + apply (N1 a b0).
      assert (E' : (k ++ String "_" "" = (a ++ "__" ++ b0) ++ String c "")%string).
      { rewrite E. now rewrite !append_assoc. }
      now apply append_last in E' as [-> _].
Qed.

End SeparableFacts.

(** * What the reader loop and the wait leave alone *)

Section Untouched.
Context {B : Builtins}.
Import MCPServer.

Variable Q : t -> Prop.
Hypothesis Q_kept : forall s s',
  process s' = process s -> tools s' = tools s ->
  message_id_counter s' = message_id_counter s -> Q s -> Q s'.

Ltac kept := intros; eapply Q_kept; [| | |eassumption]; reflexivity.

Lemma handle_message_keeps (message : json) : preserves Q (handle_message message).
Proof.
  unfold handle_message.
  apply preserves_bind; [apply preserves_lift|intros has_id].
  apply preserves_bind.
  { destruct has_id; [|apply preserves_ret].
    apply preserves_bind; [apply preserves_lift|intros idv]. now intros s. }
  intros matched. destruct matched.
  - apply preserves_bind; [apply preserves_lift|intros idv].
    apply preserves_bind.
    + intros s Qs. unfold pending_pop. destruct idv; try assumption.
      destruct (Dict.get s0 (pending_requests s)); [|assumption]. simpl. revert Qs. kept.
    + intros fut s Qs. unfold set_result. destruct (future_state fut s); try assumption.
      simpl. revert Qs. kept.
  - apply preserves_bind; [apply preserves_lift|intros has_method].
    destruct has_method; [|apply preserves_ret].
    apply preserves_bind; [apply preserves_lift|intros method].
    apply preserves_modify. kept.
Qed.

Lemma read_line_keeps (l : line) (s : t) : Q s -> Q (read_line l s).
Proof.
  intros Qs. unfold read_line. destruct (reader_task s) as [[| |]|]; try assumption.
  destruct l; try (revert Qs; kept).
  pose proof (handle_message_keeps message s Qs) as H.
  destruct (handle_message message s) as [s' [u|e]]; simpl in H; [assumption|].
  revert H. kept.
Qed.

Lemma wait_for_keeps (fut : nat) (arriving : list line) (s : t) :
  Q s -> Q (fst (wait_for fut arriving s)).
Proof.
  revert s. induction arriving as [|l ls IH]; intros s Qs; simpl.
  - destruct (future_state fut s) eqn:F; simpl; try assumption;
      unfold cancel; rewrite F; try assumption; revert Qs; kept.
  - destruct (future_state fut s); simpl; try assumption;
      apply IH; now apply read_line_keeps.
Qed.

Lemma read_lines_keep (ls : list line) (s : t) : Q s -> Q (read_lines ls s).
Proof.
  revert s. induction ls as [|l ls IH]; intros s Qs; [assumption|].
  change (read_lines (l :: ls) s) with (read_lines ls (read_line l s)).
  now apply IH, read_line_keeps.
Qed.

Lemma await_response_keeps (request_id method : string) (fut : nat)
    (arriving late : list line) :
  preserves Q (await_response request_id method fut arriving late).
Proof.
  intros s Qs. unfold await_response.
  pose proof (wait_for_keeps fut arriving s Qs) as H.
  destruct (wait_for fut arriving s) as [s' [response|]]; simpl in H; [assumption|].
  apply (read_lines_keep late) in H.
  unfold bind, pending_del.
  destruct (Dict.get request_id (pending_requests (read_lines late s'))); simpl.
  - revert H. kept.
  - assumption.
Qed.

End Untouched.

Section Exchanges.
Context {B : Builtins}.
Import MCPServer.

(** The line a request is written as. *)
Lemma submit_running (request_id method : string) (params : json) (s : t) (p : Process) :
  process s = Some p ->
  submit request_id method params s =
  (set_process
     (Some {| stdin := stdin p ++ [json_dumps (request request_id method params)
                                     ++ String "010" ""]%string;
              terminated := terminated p; killed := killed p |})
     (set_pending_requests
        (Dict.set request_id (List.length (futures s)) (pending_requests s))
        (set_futures (futures s ++ [FPending])
           (set_message_id_counter (S (message_id_counter s)) s))),
   Ok (List.length (futures s))).
Proof.
  intros P. unfold submit, bind, running. rewrite P, register_effect.
  unfold stdin_write. cbn [process set_pending_requests set_futures set_message_id_counter].
  rewrite P. reflexivity.
Qed.

(** What [_send_request] does to the process, the catalogue and the
    counter, whatever comes of it. *)
Lemma send_request_trace (method : string) (params : json) (x : exchange) (s : t) :
  let s' := fst (_send_request method params x s) in
  tools s' = tools s /\
  match process s with
  | Some p =>
      process s' =
      Some {| stdin := stdin p ++ [json_dumps (request (request_id x) method params)
                                     ++ String "010" ""]%string;
              terminated := terminated p; killed := killed p |} /\
      message_id_counter s' = S (message_id_counter s)
  | None => s' = s
  end.
Proof.
  cbv zeta. destruct (process s) as [p|] eqn:P.
  - unfold _send_request, bind. rewrite (submit_running _ _ _ _ p P).
    set (s1 := set_process _ _).
    destruct (drain_error x) as [e|]; cbn [stdin_drain raise ret fst].
    + repeat split.
    + pose proof (await_response_keeps
                    (fun s' => process s' = process s1 /\ tools s' = tools s1 /\
                               message_id_counter s' = message_id_counter s1)) as K.
      specialize (K ltac:(intros a b E1 E2 E3 (H1 & H2 & H3); repeat split; congruence)
                    (request_id x) method (List.length (futures s)) (replies x) (late x) s1
                    ltac:(repeat split)).
      destruct K as (K1 & K2 & K3). rewrite K1, K2, K3. repeat split.
  - rewrite (send_request_not_running method params x s P). now split.
Qed.

Lemma remove_set_fresh {V} (d : dict V) (k : string) (v : V) :
  Dict.get k d = None -> Dict.remove k (Dict.set k v d) = d.
Proof.
  induction d as [|[k' v'] d IH]; simpl; intros H.
  - now rewrite String.eqb_refl.
  - destruct (String.eqb k k') eqn:E; [discriminate|]. simpl. rewrite E. f_equal. now apply IH.
Qed.

(** The wait for a request that the child answers, after lines that are not
    JSON. *)
Lemma wait_for_answered (request_id : string) (fut : nat) (junk rest : list line)
    (response : json) (s : t) :
  table_ok s ->
  reader_task s = Some Running ->
  Dict.get request_id (pending_requests s) = Some fut ->
  answers (Message response) = Some request_id ->
  Forall (fun l => exists text, l = Malformed text) junk ->
  exists s',
    wait_for fut (junk ++ Message response :: rest) s = (s', Some response) /\
    pending_requests s' = Dict.remove request_id (pending_requests s) /\
    futures s' = replace_nth fut (FResult response) (futures s) /\
    reader_task s' = Some Running /\
    log s' = log s ++ repeat LogParseFailure (List.length junk).
Proof.
  intros T R G A J. revert s T R G. induction J as [|l junk [text ->] J IH]; intros s T R G.
  - pose proof (table_ok_pending s request_id fut T G) as F.
    cbn [app wait_for]. rewrite F.
    unfold read_line. rewrite R.
    rewrite (handle_message_answer response s request_id fut A G F).
    set (s1 := set_futures _ _).
    assert (F1 : future_state fut s1 = FResult response).
    { unfold future_state, s1. cbn [futures set_futures].
      apply nth_replace_nth_same. now apply pending_in_range. }
    exists s1. split.
    + destruct rest; cbn [wait_for]; now rewrite F1.
    + repeat split; try assumption. cbn. now rewrite app_nil_r.
  - pose proof (table_ok_pending s request_id fut T G) as F.
    cbn [app wait_for]. rewrite F. rewrite (read_line_malformed text s R).
    destruct (IH (logger LogParseFailure s)) as (s' & E & Ep & Ef & Er & El);
      [now apply (table_ok_same s)|assumption|assumption|].
    exists s'. split; [assumption|]. repeat split; try assumption.
    rewrite El. cbn [log logger List.length repeat]. now rewrite <- app_assoc.
Qed.

(** The child answers the request, after lines that are not JSON. *)
Lemma send_request_reply (method : string) (params : json) (x : exchange)
    (junk rest : list line) (response : json) (s : t) (p : Process) :
  table_ok s ->
  process s = Some p ->
  reader_task s = Some Running ->
  Dict.get (request_id x) (pending_requests s) = None ->
  drain_error x = None ->
  replies x = junk ++ Message response :: rest ->
  Forall (fun l => exists text, l = Malformed text) junk ->
  answers (Message response) = Some (request_id x) ->
  exists s',
    _send_request method params x s = (s', Ok response) /\
    pending_requests s' = pending_requests s /\
    future_state (List.length (futures s)) s' = FResult response /\
    reader_task s' = Some Running /\
    table_ok s' /\
    log s' = log s ++ repeat LogParseFailure (List.length junk).
Proof.
  intros T P R Fresh Drain Rep J A.
  pose proof (send_request_table_ok method params x s T) as T'.
  revert T'. unfold _send_request, bind. rewrite (submit_running _ _ _ _ p P).
  set (s1 := set_process _ _). rewrite Drain. cbn [stdin_drain ret]. rewrite Rep.
  assert (T1 : table_ok s1).
  { apply (table_ok_same (fst (register (request_id x) s))).
    - now rewrite register_effect.
    - now rewrite register_effect.
    - now apply register_table_ok. }
  destruct (wait_for_answered (request_id x) (List.length (futures s)) junk rest response s1 T1)
    as (s' & E & Ep & Ef & Er & El); try assumption.
  { unfold s1. cbn [pending_requests set_process set_pending_requests].
    apply DictFacts.get_set_same. }
  unfold await_response. rewrite E. cbn [fst]. intros T'.
  exists s'. split; [reflexivity|]. split; [|split; [|split; [|split]]]; try assumption.
  - rewrite Ep. unfold s1. cbn [pending_requests set_process set_pending_requests].
    now apply remove_set_fresh.
  - unfold future_state. rewrite Ef. unfold s1.
    cbn [futures set_process set_pending_requests set_futures].
    apply nth_replace_nth_same. rewrite length_app. simpl. lia.
Qed.

(** No line answers the request, before the timer expires or after: the
    caller finds its entry and returns the timeout error. *)
Lemma send_request_unanswered (method : string) (params : json) (x : exchange) (s : t) :
  table_ok s ->
  process s <> None ->
  drain_error x = None ->
  (forall l, In l (replies x ++ late x) -> answers l <> Some (request_id x)) ->
  exists s',
    _send_request method params x s = (s', Ok (timeout_error s)) /\
    Dict.get (request_id x) (pending_requests s') = None /\
    table_ok s'.
Proof.
  intros T Run Drain Quiet. destruct (process s) as [p|] eqn:P; [clear Run|contradiction].
  pose proof (send_request_table_ok method params x s T) as T'.
  assert (E0 : exists s',
             _send_request method params x s = (s', Ok (timeout_error s)) /\
             Dict.get (request_id x) (pending_requests s') = None).
  { unfold _send_request, bind. rewrite (submit_running _ _ _ _ p P).
    set (s1 := set_process _ _). rewrite Drain. cbn [stdin_drain ret].
    assert (T1 : table_ok s1).
    { apply (table_ok_same (fst (register (request_id x) s))).
      - now rewrite register_effect.
      - now rewrite register_effect.
      - now apply register_table_ok. }
    assert (G1 : Dict.get (request_id x) (pending_requests s1)
                 = Some (List.length (futures s))).
    { unfold s1. cbn [pending_requests set_process set_pending_requests].
      apply DictFacts.get_set_same. }
    destruct (wait_for_unanswered (request_id x) (List.length (futures s)) (replies x) s1 T1 G1)
      as (s2 & E & T2 & G2 & C2).
    { intros l I. apply Quiet, in_or_app. now left. }
    set (s3 := read_lines (late x) (cancel (List.length (futures s)) s2)).
    assert (T3 : table_expiring (request_id x) (List.length (futures s)) s3).
    { apply read_lines_expiring, cancel_expiring; [assumption|].
      intros r I. apply (one_key _ _ _ _ (proj1 (proj2 T2)) I). now apply DictFacts.get_In. }
    assert (G3 : Dict.get (request_id x) (pending_requests s3)
                 = Some (List.length (futures s))).
    { unfold s3. rewrite read_lines_keep_entry, pending_cancel; [assumption|].
      intros l I. apply Quiet, in_or_app. now right. }
    assert (Et : timeout s3 = timeout s).
    { assert (C3 : configured (cancel (List.length (futures s)) s2) = configured s2).
      { unfold cancel. now destruct (future_state _ s2). }
      assert (C4 : configured s3 = configured (cancel (List.length (futures s)) s2))
        by now apply (framed_read_lines _ (configured_framed
                                             (configured (cancel (List.length (futures s)) s2)))).
      assert (C1 : configured s1 = configured s) by reflexivity.
      unfold configured in *. congruence. }
    unfold await_response. rewrite E. fold s3. unfold bind, pending_del, modify, gets.
    rewrite G3. eexists. split.
    - f_equal. f_equal. unfold timeout_error.
      cbn [timeout logger set_pending_requests]. now rewrite Et.
    - cbn [pending_requests logger set_pending_requests].
      apply DictFacts.get_remove_same. apply T3. }
  destruct E0 as (s' & E0 & G0). exists s'. rewrite E0 in T'.
  split; [assumption|]. split; assumption.
Qed.

(** X1. [_send_request] on a session with a process writes one line, the
    request, whatever comes of it: a response, the timeout or a failed
    flush.  The catalogue is not touched and the counter goes up by one.
    On a session without a process nothing is written or counted. *)
Theorem send_request_writes_one_line (method : string) (params : json) (x : exchange) (s : t) :
  let s' := fst (_send_request method params x s) in
  tools s' = tools s /\
  match process s with
  | Some p =>
      process s' =
      Some {| stdin := stdin p ++ [json_dumps (request (request_id x) method params)
                                     ++ String "010" ""]%string;
              terminated := terminated p; killed := killed p |} /\
      message_id_counter s' = S (message_id_counter s)
  | None => s' = s
  end.
Proof. exact (send_request_trace method params x s). Qed.

(** X2. A running session whose reader runs sends a request under a new
    id.  The child first writes lines that decode and that [json.loads]
    rejects with [JSONDecodeError], any number of them, and then a line from
    which [json.loads] returns an object with the id of the request.
    [_send_request] returns that object, the future of the call holds it,
    and the table is as it was before the call. *)
Theorem send_request_answered (method : string) (params : json) (x : exchange)
    (response : json) (s : t) :
  table_ok s ->
  process s <> None ->
  reader_task s = Some Running ->
  Dict.get (request_id x) (pending_requests s) = None ->
  answered_by x response ->
  exists s',
    _send_request method params x s = (s', Ok response) /\
    pending_requests s' = pending_requests s /\
    future_state (List.length (futures s)) s' = FResult response /\
    reader_task s' = Some Running /\
    table_ok s'.
Proof.
  intros T Run R Fresh (Drain & A & junk & rest & Rep & J).
  destruct (process s) as [p|] eqn:P; [|contradiction].
  destruct (send_request_reply method params x junk rest response s p)
    as (s' & E & Ep & Ef & Er & T' & _); try assumption.
  exists s'. split; [assumption|]. split; [assumption|]. split; [assumption|].
  split; assumption.
Qed.

End Exchanges.

(** * Starting a session: [start], [_initialize], [_fetch_tools] *)

Section Startup.
Context {B : Builtins}.
Import MCPServer.

Lemma start_spawned (l : launch) (s : t) :
  spawned l = Spawned ->
  start l s =
  match _initialize l
          (set_reader_task (Some Running)
             (set_process (Some {| stdin := []; terminated := false; killed := false |}) s)) with
  | (s', Ok _) => (logger LogStarted s', Ok tt)
  | (s', Raise e) => (logger (LogStartFailed e) s', Raise e)
  end.
Proof.
  intros H. unfold start, catch. rewrite H. unfold bind, modify, raise.
  destruct (_initialize l _) as [s' [[]|e]]; reflexivity.
Qed.

Lemma send_notification_running (method : string) (params : json) (s : t) (p : Process) :
  process s = Some p ->
  _send_notification method params None s =
  (set_process
     (Some {| stdin := stdin p ++ [json_dumps (notification method params)
                                     ++ String "010" ""]%string;
              terminated := terminated p; killed := killed p |}) s, Ok tt).
Proof.
  intros P. unfold _send_notification, bind, running, stdin_write, stdin_drain, ret.
  rewrite P. cbn beta iota. now rewrite P.
Qed.

Lemma getitem_contains (v : json) (key : string) (x : json) :
  Py.getitem v key = Ok x -> Py.contains key v = Ok true.
Proof.
  destruct v; try discriminate. simpl. unfold Dict.mem.
  now destruct (Dict.get key fields).
Qed.

Lemma initialize_refused (l : launch) (s1 s2 : t) (r1 error : json) :
  _send_request "initialize" initialize_params (handshake l) s1 = (s2, Ok r1) ->
  Py.getitem r1 "error" = Ok error ->
  _initialize l s1 = (s2, Raise (Exception ("Initialize failed: " ++ py_format error))).
Proof.
  intros E G. unfold _initialize, bind. rewrite E. unfold lift.
  now rewrite (getitem_contains _ _ _ G), G.
Qed.

Lemma fetch_tools_error (x : exchange) (s s' : t) (r error : json) :
  _send_request "tools/list" (JObj []) x s = (s', Ok r) ->
  Py.getitem r "error" = Ok error ->
  _fetch_tools x s = (logger (LogFetchFailed error) s', Ok tt).
Proof.
  intros E G. unfold _fetch_tools, bind. rewrite E. unfold lift.
  now rewrite (getitem_contains _ _ _ G), G.
Qed.

Lemma fetch_tools_listed (x : exchange) (s s' : t) (r result : json) (listed : list json) :
  _send_request "tools/list" (JObj []) x s = (s', Ok r) ->
  Py.contains "error" r = Ok false ->
  Py.get r "result" (JObj []) = Ok result ->
  Py.get result "tools" (JArr []) = Ok (JArr listed) ->
  _fetch_tools x s =
  (logger (LogFetched (List.length listed)) (set_tools (JArr listed) s'), Ok tt).
Proof.
  intros E C G1 G2. unfold _fetch_tools, bind. rewrite E. unfold lift.
  now rewrite C, G1, G2.
Qed.

(** The error object of the response [_send_request] makes up on a timeout. *)
Lemma timeout_error_error (s : t) :
  Py.getitem (timeout_error s) "error" =
  Ok (JObj [("code", JInt (-1));
            ("message", JStr ("Request timeout after " ++ py_format (timeout s) ++ "s"))]).
Proof. reflexivity. Qed.

(** X3. The child is spawned but the [initialize] request comes to an
    error: no line answers it, neither before the timer fires nor before the
    caller has run its [except] clause, or the child answers it in time with
    an error response.  Then [start] raises [Initialize failed: ...] with
    that error; only the [initialize] request was written, the catalogue is
    untouched, and the child is left running. *)
Theorem start_fails_at_initialize (l : launch) (s : t) (error : json) :
  table_ok s ->
  spawned l = Spawned ->
  (never_answered (handshake l) /\
   error = JObj [("code", JInt (-1));
                 ("message", JStr ("Request timeout after " ++ py_format (timeout s) ++ "s"))])
  \/
  (Dict.get (request_id (handshake l)) (pending_requests s) = None /\
   exists r1, answered_by (handshake l) r1 /\ Py.getitem r1 "error" = Ok error) ->
  exists s',
    start l s = (s', Raise (Exception ("Initialize failed: " ++ py_format error))) /\
    process s' =
    Some {| stdin := [json_dumps (request (request_id (handshake l)) "initialize"
                                    initialize_params) ++ String "010" ""]%string;
            terminated := false; killed := false |} /\
    tools s' = tools s.
Proof.
  intros T Sp H. rewrite (start_spawned l s Sp).
  set (s1 := set_reader_task _ _).
  assert (T1 : table_ok s1) by now apply (table_ok_same s).
  pose proof (send_request_trace "initialize" initialize_params (handshake l) s1) as Tr.
  cbv zeta in Tr. change (process s1) with
    (Some {| stdin := []; terminated := false; killed := false |}) in Tr.
  cbn [stdin terminated killed app] in Tr. destruct Tr as (Tt & Tp & _).
  assert (E : exists s2 r1,
             _send_request "initialize" initialize_params (handshake l) s1 = (s2, Ok r1) /\
             Py.getitem r1 "error" = Ok error).
  { destruct H as [[(Drain & Quiet) ->]|(Fresh & r1 & (Drain & A & junk & rest & Rep & J) & G)].
    - destruct (send_request_unanswered "initialize" initialize_params (handshake l) s1)
        as (s2 & E & _); try assumption; [discriminate|].
      exists s2, (timeout_error s1). split; [assumption|]. exact (timeout_error_error s1).
    - destruct (send_request_reply "initialize" initialize_params (handshake l)
                  junk rest r1 s1 {| stdin := []; terminated := false; killed := false |})
        as (s2 & E & _); try assumption; try reflexivity.
      now exists s2, r1. }
  destruct E as (s2 & r1 & E & G). rewrite (initialize_refused l s1 s2 r1 error E G).
  rewrite E in Tt, Tp. cbn [fst] in Tt, Tp.
  eexists. split; [reflexivity|]. split; [exact Tp | exact Tt].
Qed.

(** X4. The child answers [initialize], but [tools/list] comes to an error:
    no line answers it, neither before the timer fires nor before the caller
    has run its [except] clause, or the child answers it in time with an
    error response.  Then [start] still returns normally: the session counts
    as started, its catalogue is what it was (empty on a new session), and
    the failure is in the log only. *)
Theorem start_without_catalogue (l : launch) (s : t) (r1 error : json) :
  table_ok s ->
  spawned l = Spawned ->
  Dict.get (request_id (handshake l)) (pending_requests s) = None ->
  answered_by (handshake l) r1 ->
  Py.contains "error" r1 = Ok false ->
  initialized_drain l = None ->
  (never_answered (listing l) /\
   error = JObj [("code", JInt (-1));
                 ("message", JStr ("Request timeout after " ++ py_format (timeout s) ++ "s"))])
  \/
  (Dict.get (request_id (listing l)) (pending_requests s) = None /\
   exists r2, answered_by (listing l) r2 /\ Py.getitem r2 "error" = Ok error) ->
  exists s',
    start l s = (s', Ok tt) /\
    tools s' = tools s /\
    In (LogFetchFailed error) (log s') /\
    alive s'.
Proof.
  intros T Sp Fresh1 (Drain1 & A1 & junk1 & rest1 & Rep1 & J1) C1 Drain H.
  rewrite (start_spawned l s Sp).
  set (p0 := {| stdin := []; terminated := false; killed := false |}).
  set (s1 := set_reader_task _ _).
  assert (T1 : table_ok s1) by now apply (table_ok_same s).
  destruct (send_request_reply "initialize" initialize_params (handshake l)
              junk1 rest1 r1 s1 p0)
    as (s2 & E1 & Ep2 & _ & Er2 & T2 & _); try assumption; try reflexivity.
  pose proof (send_request_trace "initialize" initialize_params (handshake l) s1) as Tr.
  cbv zeta in Tr. change (process s1) with (Some p0) in Tr. rewrite E1 in Tr.
  cbn [fst] in Tr. destruct Tr as (Tt2 & Tp2 & _).
  unfold _initialize, bind. rewrite E1. unfold lift. rewrite C1.
  fold (bind (_send_notification "notifications/initialized" JNull (initialized_drain l))
             (fun _ => _fetch_tools (listing l))).
  unfold bind. rewrite Drain, (send_notification_running _ _ s2 _ Tp2).
  set (s3 := set_process _ s2).
  assert (T3 : table_ok s3) by now apply (table_ok_same s2).
  pose proof (send_request_trace "tools/list" (JObj []) (listing l) s3) as Tr3.
  cbv zeta in Tr3. cbn [process s3 set_process] in Tr3. destruct Tr3 as (Tt3 & Tp3 & _).
  assert (E : exists s4 r2,
             _send_request "tools/list" (JObj []) (listing l) s3 = (s4, Ok r2) /\
             Py.getitem r2 "error" = Ok error).
  { destruct H as [[(Drain2 & Quiet) ->]|(Fresh2 & r2 & (Drain2 & A2 & junk & rest & Rep & J) & G)].
    - destruct (send_request_unanswered "tools/list" (JObj []) (listing l) s3)
        as (s4 & E & _); try assumption; [discriminate|].
      exists s4, (timeout_error s3). split; [assumption|].
      rewrite timeout_error_error. f_equal.
      assert (Ec : configured s2 = configured s1).
      { pose proof (framed_send_request (fun s' => configured s' = configured s1)
                      (configured_framed (configured s1))
                      "initialize" initialize_params (handshake l) s1 eq_refl) as K.
        now rewrite E1 in K. }
      assert (Et : timeout s3 = timeout s).
      { change (timeout s3) with (timeout s2). change (timeout s) with (timeout s1).
        unfold configured in Ec. congruence. }
      now rewrite Et.
    - destruct (send_request_reply "tools/list" (JObj []) (listing l) junk rest r2 s3
                  {| stdin := stdin p0 ++ [json_dumps (request (request_id (handshake l))
                                                         "initialize" initialize_params)
                                             ++ String "010" ""]%string
                              ++ [json_dumps (notification "notifications/initialized" JNull)
                                    ++ String "010" ""]%string;
                     terminated := false; killed := false |})
        as (s4 & E & _); try assumption; try reflexivity.
      + change (pending_requests s3) with (pending_requests s2). rewrite Ep2. exact Fresh2.
      + now exists s4, r2. }
  destruct E as (s4 & r2 & E & G). rewrite (fetch_tools_error _ s3 s4 r2 error E G).
  rewrite E in Tt3, Tp3. cbn [fst] in Tt3, Tp3.
  eexists. split; [reflexivity|]. split; [|split].
  - cbn [tools logger]. rewrite Tt3. change (tools s3) with (tools s2). now rewrite Tt2.
  - cbn [log logger]. apply in_or_app. left. apply in_or_app. right. now left.
  - eexists. cbn [process logger]. split; [exact Tp3|]. now split.
Qed.

End Startup.

Section Handshake.
Context {B : Builtins}.
Import MCPServer.

(** The handshake of [start] with a child that answers both requests. *)
Lemma start_handshake_ok (l : launch) (s : t) (r1 r2 result : json) (listed : list json) :
  table_ok s ->
  spawned l = Spawned ->
  Dict.get (request_id (handshake l)) (pending_requests s) = None ->
  Dict.get (request_id (listing l)) (pending_requests s) = None ->
  answered_by (handshake l) r1 ->
  Py.contains "error" r1 = Ok false ->
  initialized_drain l = None ->
  answered_by (listing l) r2 ->
  Py.contains "error" r2 = Ok false ->
  Py.get r2 "result" (JObj []) = Ok result ->
  Py.get result "tools" (JArr []) = Ok (JArr listed) ->
  exists s',
    start l s = (s', Ok tt) /\
    tools s' = JArr listed /\
    process s' =
    Some {| stdin :=
              [json_dumps (request (request_id (handshake l)) "initialize" initialize_params)
                 ++ String "010" "";
               json_dumps (notification "notifications/initialized" JNull)
                 ++ String "010" "";
               json_dumps (request (request_id (listing l)) "tools/list" (JObj []))
                 ++ String "010" ""]%string;
            terminated := false; killed := false |} /\
    pending_requests s' = pending_requests s /\
    reader_task s' = Some Running /\
    table_ok s'.
Proof.
  intros T Sp Fresh1 Fresh2 (Drain1 & A1 & junk1 & rest1 & Rep1 & J1) C1 Drain
         (Drain2 & A2 & junk2 & rest2 & Rep2 & J2) C2 G1 G2.
  rewrite (start_spawned l s Sp).
  set (p0 := {| stdin := []; terminated := false; killed := false |}).
  set (s1 := set_reader_task _ _).
  assert (T1 : table_ok s1) by now apply (table_ok_same s).
  destruct (send_request_reply "initialize" initialize_params (handshake l)
              junk1 rest1 r1 s1 p0)
    as (s2 & E1 & Ep2 & _ & Er2 & T2 & _); try assumption; try reflexivity.
  pose proof (send_request_trace "initialize" initialize_params (handshake l) s1) as Tr.
  cbv zeta in Tr. change (process s1) with (Some p0) in Tr. rewrite E1 in Tr.
  cbn [fst] in Tr. destruct Tr as (Tt2 & Tp2 & _).
  unfold _initialize, bind. rewrite E1. unfold lift. rewrite C1.
  fold (bind (_send_notification "notifications/initialized" JNull (initialized_drain l))
             (fun _ => _fetch_tools (listing l))).
  unfold bind. rewrite Drain, (send_notification_running _ _ s2 _ Tp2).
  set (s3 := set_process _ s2).
  assert (T3 : table_ok s3) by now apply (table_ok_same s2).
  pose proof (send_request_trace "tools/list" (JObj []) (listing l) s3) as Tr3.
  cbv zeta in Tr3. cbn [process s3 set_process] in Tr3. destruct Tr3 as (Tt3 & Tp3 & _).
  destruct (send_request_reply "tools/list" (JObj []) (listing l) junk2 rest2 r2 s3
              {| stdin := stdin p0 ++ [json_dumps (request (request_id (handshake l))
                                                     "initialize" initialize_params)
                                         ++ String "010" ""]%string
                          ++ [json_dumps (notification "notifications/initialized" JNull)
                                ++ String "010" ""]%string;
                 terminated := false; killed := false |})
    as (s4 & E & Ep4 & _ & Er4 & T4 & _); try assumption; try reflexivity.
  { change (pending_requests s3) with (pending_requests s2). rewrite Ep2. exact Fresh2. }
  rewrite (fetch_tools_listed _ s3 s4 r2 result listed E C2 G1 G2).
  rewrite E in Tp3. cbn [fst] in Tp3.
  eexists. split; [reflexivity|]. split; [reflexivity|]. split; [exact Tp3|].
  split; [|split].
  - cbn [pending_requests logger set_tools]. rewrite Ep4.
    change (pending_requests s3) with (pending_requests s2). now rewrite Ep2.
  - exact Er4.
  - now apply (table_ok_same s4).
Qed.

(** X5. The child is spawned and answers both requests of the handshake
    without an error, and [tools/list] carries a list of tools.  Then
    [start] returns normally; the child was written exactly three lines, in
    this order: the [initialize] request, the [notifications/initialized]
    notification and the [tools/list] request; the catalogue is the list the
    child sent; the table is as before and the reader runs. *)
Theorem start_handshake (l : launch) (s : t) (r1 r2 result : json) (listed : list json) :
  table_ok s ->
  spawned l = Spawned ->
  Dict.get (request_id (handshake l)) (pending_requests s) = None ->
  Dict.get (request_id (listing l)) (pending_requests s) = None ->
  answered_by (handshake l) r1 ->
  Py.contains "error" r1 = Ok false ->
  initialized_drain l = None ->
  answered_by (listing l) r2 ->
  Py.contains "error" r2 = Ok false ->
  Py.get r2 "result" (JObj []) = Ok result ->
  Py.get result "tools" (JArr []) = Ok (JArr listed) ->
  exists s',
    start l s = (s', Ok tt) /\
    tools s' = JArr listed /\
    process s' =
    Some {| stdin :=
              [json_dumps (request (request_id (handshake l)) "initialize" initialize_params)
                 ++ String "010" "";
               json_dumps (notification "notifications/initialized" JNull)
                 ++ String "010" "";
               json_dumps (request (request_id (listing l)) "tools/list" (JObj []))
                 ++ String "010" ""]%string;
            terminated := false; killed := false |} /\
    pending_requests s' = pending_requests s /\
    reader_task s' = Some Running /\
    table_ok s'.
Proof. exact (start_handshake_ok l s r1 r2 result listed). Qed.

Lemma alive_kept (s s' : t) :
  process s' = process s -> tools s' = tools s ->
  message_id_counter s' = message_id_counter s -> alive s -> alive s'.
Proof. intros E _ _ (p & P & H). exists p. now rewrite E. Qed.

Lemma send_request_alive (method : string) (params : json) (x : exchange) :
  preserves alive (_send_request method params x).
Proof.
  intros s (p & P & Ht & Hk).
  pose proof (send_request_trace method params x s) as Tr. cbv zeta in Tr.
  rewrite P in Tr. destruct Tr as (_ & Tp & _).
  eexists. split; [exact Tp|]. now split.
Qed.

Lemma send_notification_alive (method : string) (params : json) (drain : option exn) :
  preserves alive (_send_notification method params drain).
Proof.
  intros s (p & P & Ht & Hk). unfold _send_notification, bind, running, stdin_write.
  rewrite P. cbn beta iota. rewrite P.
  destruct drain; cbn; (eexists; split; [reflexivity|now split]).
Qed.

Lemma fetch_tools_alive (x : exchange) : preserves alive (_fetch_tools x).
Proof.
  unfold _fetch_tools.
  apply preserves_bind; [apply send_request_alive|intros response].
  apply preserves_bind; [apply preserves_lift|intros failed]. destruct failed.
  - apply preserves_bind; [apply preserves_lift|intros error].
    apply preserves_modify. intros s H. revert H. now apply alive_kept.
  - apply preserves_bind; [apply preserves_lift|intros result].
    apply preserves_bind; [apply preserves_lift|intros listed].
    apply preserves_bind; [apply preserves_modify; intros s (p & P & H); now exists p|intros _].
    apply preserves_bind; [apply preserves_lift|intros count].
    apply preserves_modify. intros s H. revert H. now apply alive_kept.
Qed.

Lemma initialize_alive (l : launch) : preserves alive (_initialize l).
Proof.
  unfold _initialize.
  apply preserves_bind; [apply send_request_alive|intros response].
  apply preserves_bind; [apply preserves_lift|intros failed]. destruct failed.
  - apply preserves_bind; [apply preserves_lift|intros error]. apply preserves_raise.
  - apply preserves_bind; [apply send_notification_alive|intros _]. apply fetch_tools_alive.
Qed.

(** X6. [start] never ends the child it spawned: once
    [create_subprocess_exec] returned, the child is left running when
    [start] returns and also when it raises, whatever the handshake came to.
    When no child is spawned, [start] raises and leaves [self.process] as it
    was. *)
Theorem start_leaves_child_running (l : launch) (s : t) :
  match spawned l with
  | Spawned => alive (fst (start l s))
  | _ => process (fst (start l s)) = process s /\ exists e, snd (start l s) = Raise e
  end.
Proof.
  destruct (spawned l) eqn:Sp.
  - unfold start, catch. rewrite Sp. cbn. split; [reflexivity|]. now eexists.
  - unfold start, catch. rewrite Sp. cbn. split; [reflexivity|]. now eexists.
  - rewrite (start_spawned l s Sp).
    set (s1 := set_reader_task _ _).
    assert (A1 : alive s1).
    { eexists. split; [reflexivity|]. now split. }
    pose proof (initialize_alive l s1 A1) as A.
    destruct (_initialize l s1) as [s' [[]|e]]; cbn [fst] in *;
      destruct A as (p & P & H); now exists p.
Qed.

End Handshake.

(** * One entry's failure does not keep another from starting *)

Section Isolation.
Context {B : Builtins}.
Import MCPManager.

Lemma start_each_keeps_log (entries : list (string * json)) (world : string -> launch)
    (m : t) (r : manager_log) :
  In r (log m) -> In r (log (fst (start_each entries world m))).
Proof.
  revert m. induction entries as [|[name server_config] rest IH]; intros m I; [assumption|].
  rewrite start_each_cons.
  destruct (build name server_config (world name)) as [server|e]; apply IH;
    cbn [log logger set_servers]; apply in_or_app; now left.
Qed.

Lemma start_each_logs_failure (entries : list (string * json)) (world : string -> launch)
    (m : t) (name : string) (server_config : json) (e : exn) :
  In (name, server_config) entries ->
  build name server_config (world name) = Raise e ->
  In (LogServerFailed name e) (log (fst (start_each entries world m))).
Proof.
  revert m. induction entries as [|[name' server_config'] rest IH]; intros m I Bd; [destruct I|].
  rewrite start_each_cons. destruct I as [E|I].
  - injection E as -> ->. rewrite Bd. apply start_each_keeps_log.
    cbn [log logger]. apply in_or_app. right. now left.
  - destruct (build name' server_config' (world name')); now apply IH.
Qed.

(** A session whose command cannot be run is not built. *)
Lemma build_not_spawned (name : string) (server_config : json) (l : launch) :
  spawned l <> Spawned -> exists e, build name server_config l = Raise e.
Proof.
  intros N. unfold build.
  destruct (Py.get server_config "timeout" (JFloat 120%float)) as [timeout|e]; [|now eexists].
  destruct (Py.getitem server_config "command") as [command|e]; [|now eexists].
  destruct (Py.get server_config "args" (JArr [])) as [args|e]; [|now eexists].
  destruct (Py.get server_config "env" (JObj [])) as [env|e]; [|now eexists].
  cbn [rbind]. unfold MCPServer.start, catch, bind, modify, raise.
  destruct (spawned l) as [|e|]; [now eexists|now eexists|contradiction].
Qed.

(** C6. The configuration is loaded and [mcpServers] is a dict.  Whatever
    the other entries meet, [start_all] returns, and for each entry:
    - when the entry is an object with a command, its child is spawned and
      answers both requests of the handshake without an error, the session
      is in the registry under the entry's name, made from the entry's
      command, args, env and timeout (120 seconds by default), with the
      catalogue the child listed and the child running, and the tools that
      session gives out are in every list [get_all_tools] returns;
    - when its command cannot be run, the registry has no new session for
      it, and the failure is logged under its name;
    - whatever makes the entry's build or start raise, the registry has no
      new session for it and the failure is logged; when they succeed, the
      session is registered. *)
Theorem start_all_isolates_failures (config : json) (entries : list (string * json))
    (world : string -> launch) (m : t) (name : string) (server_config : json) :
  Py.get config "mcpServers" (JObj []) = Ok (JObj entries) ->
  Dict.wf entries ->
  In (name, server_config) entries ->
  let m' := fst (start_all (Loaded config) world m) in
  snd (start_all (Loaded config) world m) = Ok tt /\
  (forall fields command r1 r2 result listed,
     server_config = JObj fields ->
     Dict.get "command" fields = Some command ->
     spawned (world name) = Spawned ->
     answered_by (handshake (world name)) r1 ->
     Py.contains "error" r1 = Ok false ->
     initialized_drain (world name) = None ->
     answered_by (listing (world name)) r2 ->
     Py.contains "error" r2 = Ok false ->
     Py.get r2 "result" (JObj []) = Ok result ->
     Py.get result "tools" (JArr []) = Ok (JArr listed) ->
     exists server,
       Dict.get name (servers m') = Some server /\
       MCPServer.configured server =
       MCPServer.configured
         (MCPServer.init name command
            (match Dict.get "args" fields with Some args => args | None => JArr [] end)
            (match Dict.get "env" fields with Some env => env | None => JObj [] end)
            (match Dict.get "timeout" fields with
             | Some timeout => timeout
             | None => JFloat 120%float
             end)) /\
       MCPServer.tools server = JArr listed /\
       alive server /\
       forall tools all_tools,
         MCPServer.get_tools server = Ok tools -> get_all_tools m' = Ok all_tools ->
         incl tools all_tools) /\
  (spawned (world name) <> Spawned ->
   Dict.get name (servers m') = Dict.get name (servers m) /\
   exists e, In (LogServerFailed name e) (log m')) /\
  (forall server,
     build name server_config (world name) = Ok server ->
     Dict.get name (servers m') = Some server /\
     forall tools all_tools,
       MCPServer.get_tools server = Ok tools -> get_all_tools m' = Ok all_tools ->
       incl tools all_tools) /\
  (forall e,
     build name server_config (world name) = Raise e ->
     Dict.get name (servers m') = Dict.get name (servers m) /\
     In (LogServerFailed name e) (log m')).
Proof.
  intros E W I m'. subst m'. rewrite (start_all_loaded _ _ world m E).
  cbn [fst snd servers log logger].
  pose proof (start_each_isolates entries world m name server_config W I) as H.
  assert (Built : forall server,
             build name server_config (world name) = Ok server ->
             Dict.get name (servers (fst (start_each entries world m))) = Some server /\
             forall tools all_tools,
               MCPServer.get_tools server = Ok tools ->
               get_all_tools
                 (logger (LogStartedAll (List.length (servers (fst (start_each entries world m)))))
                    (fst (start_each entries world m))) = Ok all_tools ->
               incl tools all_tools).
  { intros server Bd. rewrite Bd in H. split; [assumption|].
    intros tools all_tools G A. unfold get_all_tools in A. cbn [servers logger] in A.
    apply (proj2 (extend_all_includes _ _ _ A) server); [|assumption].
    apply DictFacts.get_In in H.
    apply in_map_iff. exists (name, server). now split. }
  assert (Failed : forall e,
             build name server_config (world name) = Raise e ->
             Dict.get name (servers (fst (start_each entries world m)))
             = Dict.get name (servers m) /\
             In (LogServerFailed name e)
                (log (fst (start_each entries world m)) ++
                 [LogStartedAll (List.length (servers (fst (start_each entries world m))))])).
  { intros e Bd. rewrite Bd in H. split; [assumption|].
    apply in_or_app. left. now apply (start_each_logs_failure _ _ _ _ server_config). }
  split; [reflexivity|]. split; [|split; [|split; assumption]].
  - intros fields command r1 r2 result listed -> Hc Sp A1 C1 Drain A2 C2 G1 G2.
    set (s0 := MCPServer.init name command
                 (match Dict.get "args" fields with Some v => v | None => JArr [] end)
                 (match Dict.get "env" fields with Some v => v | None => JObj [] end)
                 (match Dict.get "timeout" fields with Some v => v | None => JFloat 120%float end)).
    destruct (start_handshake_ok (world name) s0 r1 r2 result listed)
      as (s' & Es & Et & Ep & _); try assumption; try reflexivity.
    { apply init_table_ok. }
    assert (Bd : build name (JObj fields) (world name) = Ok s').
    { unfold build. cbn [Py.get Py.getitem rbind]. rewrite Hc. cbn [rbind].
      unfold s0 in Es.
      destruct (Dict.get "timeout" fields), (Dict.get "args" fields), (Dict.get "env" fields);
        cbn [rbind]; now rewrite Es. }
    destruct (Built s' Bd) as [G Incl].
    exists s'. split; [assumption|]. split; [|split; [assumption|split; [|assumption]]].
    + pose proof (framed_start _ (configured_framed (MCPServer.configured s0))
                    (world name) s0 eq_refl) as K.
      rewrite Es in K. exact K.
    + eexists. split; [exact Ep|]. now split.
  - intros N. destruct (build_not_spawned name server_config (world name) N) as [e Bd].
    destruct (Failed e Bd) as [G L]. split; [assumption|]. now exists e.
Qed.

End Isolation.

Lemma start_all_isolates_failures_witness :
  let m' := fst (MCPManager.start_all Demo.config_AB Demo.world_AB
                   (MCPManager.init "mcp-config.json")) in
  (exists server,
     Dict.get "A" (MCPManager.servers m') = Some server /\
     MCPServer.configured server
     = ("A", JStr "node", JArr [JStr "server.js"], JObj [], JFloat 120%float) /\
     MCPServer.tools server = JArr (map Demo.tool ["x"; "y"]) /\
     alive server) /\
  Dict.get "B" (MCPManager.servers m') = None /\
  exists all_tools,
    MCPManager.get_all_tools m' = Ok all_tools /\
    map qualified_name all_tools = [Some (JStr "A__x"); Some (JStr "A__y")].
Proof.
  assert (L : Py.get (JObj [("mcpServers", JObj [("B", Demo.entry "nope"); ("A", Demo.entry "node")])])
                "mcpServers" (JObj [])
              = Ok (JObj [("B", Demo.entry "nope"); ("A", Demo.entry "node")])) by reflexivity.
  assert (W : Dict.wf [("B", Demo.entry "nope"); ("A", Demo.entry "node")]).
  { unfold Dict.wf. simpl. repeat constructor; simpl; intuition discriminate. }
  pose proof (start_all_isolates_failures _ _ Demo.world_AB (MCPManager.init "mcp-config.json")
                "A" (Demo.entry "node") L W (or_intror (or_introl eq_refl))) as (_ & HA & _).
  pose proof (start_all_isolates_failures _ _ Demo.world_AB (MCPManager.init "mcp-config.json")
                "B" (Demo.entry "nope") L W (or_introl eq_refl)) as (_ & _ & HB & _).
  change (Loaded _) with Demo.config_AB in HA, HB.
  cbv zeta. split; [|split].
  - destruct (HA [("command", JStr "node"); ("args", JArr [JStr "server.js"])] (JStr "node")
                (Demo.response "52fdfc07" Demo.server_info)
                (Demo.response "2182654f" (Demo.listed ["x"; "y"]))
                (Demo.listed ["x"; "y"]) (map Demo.tool ["x"; "y"]))
      as (server & G & Nm & Tl & Al & _); try reflexivity.
    + split; [reflexivity|]. split; [reflexivity|]. exists [], []. now split.
    + split; [reflexivity|]. split; [reflexivity|]. exists [], []. now split.
    + exists server. now repeat split.
  - destruct HB as [G _]; [discriminate|]. exact G.
  - rewrite registry_AB_built. eexists. split; [vm_compute; reflexivity | reflexivity].
Defined.

(** * A session whose reader does not run *)

Section Deaf.
Context {B : Builtins}.
Import MCPServer.

Lemma read_line_deaf (l : line) (s : t) : reader_task s <> Some Running -> read_line l s = s.
Proof.
  intros H. unfold read_line. destruct (reader_task s) as [[| |]|]; try reflexivity.
  now contradiction H.
Qed.

Lemma read_lines_deaf (ls : list line) (s : t) :
  reader_task s <> Some Running -> read_lines ls s = s.
Proof.
  intros H. induction ls as [|l ls IH]; [reflexivity|].
  unfold read_lines in *. cbn [fold_left]. now rewrite (read_line_deaf l s H).
Qed.

Lemma wait_for_deaf (fut : nat) (ls : list line) (s : t) :
  reader_task s <> Some Running -> future_state fut s = FPending ->
  wait_for fut ls s = (cancel fut s, None).
Proof.
  intros R F. induction ls as [|l ls IH]; cbn [wait_for]; rewrite F; [reflexivity|].
  now rewrite (read_line_deaf l s R).
Qed.

Lemma stop_effect (d : shutdown) (s : t) :
  reader_task (fst (stop d s)) <> Some Running /\
  (process s <> None -> process (fst (stop d s)) <> None).
Proof.
  unfold stop, bind, modify.
  set (s0 := match reader_task s with
             | Some Running => set_reader_task (Some Cancelled) s
             | _ => s
             end).
  assert (R0 : reader_task s0 <> Some Running).
  { unfold s0. destruct (reader_task s) as [[| |]|] eqn:R; cbn; rewrite ?R; discriminate. }
  assert (P0 : process s0 = process s).
  { unfold s0. now destruct (reader_task s) as [[| |]|]. }
  cbn beta iota. rewrite <- P0.
  destruct (process s0) eqn:P; [|now split].
  destruct (terminate_error d); cbn; rewrite ?P; split; try assumption; discriminate.
Qed.

Lemma stop_reader (d : shutdown) (s : t) : reader_task (fst (stop d s)) <> Some Running.
Proof. apply stop_effect. Qed.

Lemma stop_process (d : shutdown) (s : t) :
  process s <> None -> process (fst (stop d s)) <> None.
Proof. apply stop_effect. Qed.

Lemma stop_configured (d : shutdown) (s : t) : configured (fst (stop d s)) = configured s.
Proof. exact (framed_stop _ (configured_framed (configured s)) d s eq_refl). Qed.

Lemma new_future_pending (s : t) (more : list future) :
  nth (List.length (futures s)) (futures s ++ FPending :: more) FCancelled = FPending.
Proof. rewrite app_nth2, Nat.sub_diag; [reflexivity|lia]. Qed.

(** The request of a session whose reader does not run. *)
Lemma send_request_deaf (method : string) (params : json) (x : exchange) (s : t) :
  process s <> None ->
  reader_task s <> Some Running ->
  exists s',
    _send_request method params x s =
    (s', match drain_error x with
         | Some e => Raise e
         | None => Ok (timeout_error s)
         end).
Proof.
  intros P R. destruct (process s) as [p|] eqn:Ep; [clear P|contradiction].
  unfold _send_request, bind. rewrite (submit_running _ _ _ _ p Ep).
  set (s1 := set_process _ _).
  destruct (drain_error x) as [e|]; cbn [stdin_drain raise ret]; [now eexists|].
  unfold await_response. rewrite wait_for_deaf; [|exact R|apply (new_future_pending s [])].
  rewrite read_lines_deaf by (unfold cancel; now destruct (future_state _ _)).
  unfold bind, pending_del. rewrite pending_cancel.
  unfold s1. cbn [pending_requests set_process set_pending_requests].
  rewrite DictFacts.get_set_same. unfold modify, gets. eexists. f_equal. f_equal.
  unfold timeout_error. f_equal. f_equal. f_equal. f_equal. f_equal. f_equal. f_equal.
  cbn [timeout logger set_pending_requests]. unfold cancel.
  now destruct (future_state _ _).
Qed.

Lemma call_tool_deaf (tool_name : string) (arguments : json) (x : exchange) (s : t) :
  process s <> None ->
  reader_task s <> Some Running ->
  snd (call_tool tool_name arguments x s) =
  match drain_error x with
  | Some e => Raise e
  | None => Ok (JObj [("error", JStr ("Request timeout after " ++ py_format (timeout s) ++ "s"));
                      ("isError", JBool true)])
  end.
Proof.
  intros P R.
  destruct (send_request_deaf "tools/call"
              (JObj [("name", JStr tool_name); ("arguments", arguments)]) x s P R) as (s' & E).
  destruct (drain_error x) as [e|].
  - now rewrite (call_tool_raises _ _ _ _ _ _ E).
  - now rewrite (call_tool_response _ _ _ _ _ _ E).
Qed.

(** X7. A session has its process but its reader task does not run: it
    ended on a line it could not take, or [stop] cancelled it.  Then no
    answer of the child reaches a call: [call_tool] raises what the flush
    raises, or returns the timeout payload, whatever the child writes. *)
Theorem call_without_reader (tool_name : string) (arguments : json) (x : exchange) (s : t) :
  process s <> None ->
  reader_task s <> Some Running ->
  snd (call_tool tool_name arguments x s) =
  match drain_error x with
  | Some e => Raise e
  | None => Ok (JObj [("error", JStr ("Request timeout after " ++ py_format (timeout s) ++ "s"));
                      ("isError", JBool true)])
  end.
Proof. exact (call_tool_deaf tool_name arguments x s). Qed.

(** X8. [stop] does not unset [self.process], and it leaves the reader
    cancelled or ended.  So a [call_tool] after [stop] is not refused as not
    running: it raises what the flush raises, or returns the timeout
    payload. *)
Theorem call_after_stop (d : shutdown) (tool_name : string) (arguments : json)
    (x : exchange) (s : t) :
  process s <> None ->
  process (fst (stop d s)) <> None /\
  reader_task (fst (stop d s)) <> Some Running /\
  snd (call_tool tool_name arguments x (fst (stop d s))) =
  match drain_error x with
  | Some e => Raise e
  | None => Ok (JObj [("error", JStr ("Request timeout after " ++ py_format (timeout s) ++ "s"));
                      ("isError", JBool true)])
  end.
Proof.
  intros P. split; [now apply stop_process|]. split; [apply stop_reader|].
  assert (Et : timeout (fst (stop d s)) = timeout s).
  { pose proof (stop_configured d s) as C. unfold configured in C. congruence. }
  rewrite (call_tool_deaf tool_name arguments x _ (stop_process d s P) (stop_reader d s)).
  now rewrite Et.
Qed.

End Deaf.

(** * Between the firing of the timer and the [except] clause *)

Section Window.
Context {B : Builtins}.
Import MCPServer.

(** Lines that [json.loads] rejects are logged, and nothing else happens. *)
Lemma read_lines_malformed (ls : list line) (s : t) :
  Forall (fun l => exists text, l = Malformed text) ls ->
  reader_task s = Some Running ->
  pending_requests (read_lines ls s) = pending_requests s /\
  futures (read_lines ls s) = futures s /\
  reader_task (read_lines ls s) = Some Running /\
  log (read_lines ls s) = log s ++ repeat LogParseFailure (List.length ls).
Proof.
  intros J. revert s. induction J as [|l ls [text ->] J IH]; intros s R.
  - cbn. now rewrite app_nil_r.
  - change (read_lines (Malformed text :: ls) s)
      with (read_lines ls (read_line (Malformed text) s)).
    rewrite (read_line_malformed text s R).
    destruct (IH (logger LogParseFailure s) R) as (Ep & Ef & Er & El).
    rewrite Ep, Ef, Er, El. repeat split.
    cbn [log logger List.length repeat]. now rewrite <- app_assoc.
Qed.

(** While the child writes only such lines, the wait goes on until the timer
    fires. *)
Lemma wait_for_quiet (fut : nat) (ls : list line) (s : t) :
  Forall (fun l => exists text, l = Malformed text) ls ->
  reader_task s = Some Running ->
  future_state fut s = FPending ->
  wait_for fut ls s = (cancel fut (read_lines ls s), None).
Proof.
  intros J. revert s. induction J as [|l ls [text ->] J IH]; intros s R F.
  - cbn [wait_for]. now rewrite F.
  - cbn [wait_for]. rewrite F, (read_line_malformed text s R).
    change (read_lines (Malformed text :: ls) s)
      with (read_lines ls (read_line (Malformed text) s)).
    rewrite (read_line_malformed text s R). now apply IH.
Qed.

(** C3, where the code departs from it.  A request is written and flushed
    on a running session, and the child writes nothing [json.loads] takes
    until the timer has fired.  [wait_for] cancels the future; before the
    caller runs again the reader takes the child's answer.  The reader pops
    the entry and calls [set_result] on the cancelled future, which raises
    [InvalidStateError]: the reader loop ends.  The caller's [del] then finds
    no entry: [_send_request] raises [KeyError] with the request id, and
    returns no timeout error. *)
Theorem timeout_meets_late_answer (method : string) (params : json) (x : exchange)
    (response : json) (s : t) :
  table_ok s ->
  process s <> None ->
  reader_task s = Some Running ->
  answered_late x response ->
  let r := _send_request method params x s in
  snd r = Raise (KeyError (request_id x)) /\
  reader_task (fst r) = Some Finished /\
  (exists k, log (fst r) = log s ++ repeat LogParseFailure k ++ [LogReadError InvalidStateError]) /\
  future_state (List.length (futures s)) (fst r) = FCancelled /\
  Dict.get (request_id x) (pending_requests (fst r)) = None.
Proof.
  intros T Run R (Drain & A & Quiet & junk & rest & Late & J).
  destruct (process s) as [p|] eqn:P; [clear Run|contradiction].
  cbv zeta. unfold _send_request, bind. rewrite (submit_running _ _ _ _ p P).
  set (n := List.length (futures s)).
  set (s1 := set_process _ _). rewrite Drain. cbn [stdin_drain ret].
  assert (R1 : reader_task s1 = Some Running) by exact R.
  assert (F1 : future_state n s1 = FPending).
  { unfold future_state, s1, n. cbn [futures set_process set_pending_requests set_futures].
    now rewrite nth_middle. }
  assert (G1 : Dict.get (request_id x) (pending_requests s1) = Some n).
  { unfold s1. cbn [pending_requests set_process set_pending_requests].
    apply DictFacts.get_set_same. }
  assert (W1 : Dict.wf (pending_requests s1)).
  { unfold s1. cbn [pending_requests set_process set_pending_requests].
    apply DictFacts.wf_set, T. }
  unfold await_response. rewrite (wait_for_quiet n (replies x) s1 Quiet R1 F1).
  destruct (read_lines_malformed (replies x) s1 Quiet R1) as (Ep2 & Ef2 & Er2 & El2).
  set (s2 := read_lines (replies x) s1) in *.
  assert (F2 : future_state n s2 = FPending) by (unfold future_state in *; now rewrite Ef2).
  set (s3 := cancel n s2).
  assert (Ep3 : pending_requests s3 = pending_requests s1)
    by (unfold s3; now rewrite pending_cancel).
  assert (F3 : future_state n s3 = FCancelled).
  { apply cancel_cancels. intros message. rewrite F2. discriminate. }
  assert (R3 : reader_task s3 = Some Running).
  { unfold s3, cancel. now destruct (future_state n s2). }
  assert (L3 : log s3 = log s2).
  { unfold s3, cancel. now destruct (future_state n s2). }
  rewrite Late.
  assert (Split : read_lines (junk ++ Message response :: rest) s3
                  = read_lines rest (read_line (Message response) (read_lines junk s3))).
  { unfold read_lines. now rewrite fold_left_app. }
  rewrite Split.
  destruct (read_lines_malformed junk s3 J R3) as (Ep4 & Ef4 & Er4 & El4).
  set (s4 := read_lines junk s3) in *.
  assert (F4 : future_state n s4 = FCancelled) by (unfold future_state in *; now rewrite Ef4).
  assert (G4 : Dict.get (request_id x) (pending_requests s4) = Some n)
    by now rewrite Ep4, Ep3.
  assert (E5 : read_line (Message response) s4
               = reader_dies InvalidStateError
                   (set_pending_requests (Dict.remove (request_id x) (pending_requests s4)) s4)).
  { unfold read_line. rewrite Er4.
    rewrite (handle_message_settled response s4 (request_id x) n A G4); [reflexivity|].
    rewrite F4. discriminate. }
  rewrite E5. set (s5 := reader_dies _ _).
  rewrite (read_lines_deaf rest s5) by discriminate.
  assert (G5 : Dict.get (request_id x) (pending_requests s5) = None).
  { unfold s5. cbn [pending_requests reader_dies set_reader_task logger set_pending_requests].
    apply DictFacts.get_remove_same. now rewrite Ep4, Ep3. }
  unfold bind, pending_del. rewrite G5. cbn [fst snd].
  split; [reflexivity|]. split; [reflexivity|]. split; [|split].
  - exists (List.length (replies x) + List.length junk).
    unfold s5. cbn [log reader_dies set_reader_task logger set_pending_requests].
    rewrite El4, L3, El2. unfold s1.
    cbn [log set_process set_pending_requests set_futures set_message_id_counter].
    now rewrite repeat_app, <- !app_assoc.
  - exact F4.
  - exact G5.
Qed.

End Window.

Lemma timeout_meets_late_answer_witness :
  snd (MCPServer._send_request "tools/call" (JObj [("name", JStr "x"); ("arguments", JObj [])])
         (Demo.answered_late "9566c74d" (Demo.response "9566c74d" Demo.hello))
         (Demo.started "A" "node" ["x"]))
  = Raise (KeyError "9566c74d")
  /\
  MCPServer.reader_task
    (fst (MCPServer._send_request "tools/call"
            (JObj [("name", JStr "x"); ("arguments", JObj [])])
            (Demo.answered_late "9566c74d" (Demo.response "9566c74d" Demo.hello))
            (Demo.started "A" "node" ["x"])))
  = Some Finished.
Proof.
  destruct (timeout_meets_late_answer "tools/call"
              (JObj [("name", JStr "x"); ("arguments", JObj [])])
              (Demo.answered_late "9566c74d" (Demo.response "9566c74d" Demo.hello))
              (Demo.response "9566c74d" Demo.hello)
              (Demo.started "A" "node" ["x"]))
    as (E & R & _).
  - apply started_table_ok.
  - discriminate.
  - reflexivity.
  - split; [reflexivity|]. split; [reflexivity|]. split; [constructor|].
    exists [], []. split; [reflexivity|constructor].
  - split; [exact E | exact R].
Defined.

(** * Which decoded lines the reader loop takes *)

Section Lines.
Context {B : Builtins}.
Import MCPServer.

Lemma handle_unreadable (message : json) (s : t) :
  unreadable message = true -> handle_message message s = (s, Raise TypeError).
Proof.
  intros U. destruct message; try discriminate; try reflexivity.
  unfold unreadable in U. unfold handle_message, bind, lift.
  cbn [Py.contains Py.getitem]. unfold Dict.mem.
  destruct (Dict.get "id" fields) as [[]|]; try discriminate; reflexivity.
Qed.

(** X9. The reader runs and takes a line that is valid JSON but a number,
    a boolean or [null], or an object whose ["id"] is a list or an object.
    The loop ends there with [TypeError]: the lines after it are not read,
    and the table and the futures are left as they were. *)
Theorem unreadable_line_ends_reader (message : json) (rest : list line) (s : t) :
  reader_task s = Some Running ->
  unreadable message = true ->
  read_lines (Message message :: rest) s = reader_dies TypeError s /\
  reader_task (reader_dies TypeError s) = Some Finished /\
  pending_requests (reader_dies TypeError s) = pending_requests s /\
  futures (reader_dies TypeError s) = futures s.
Proof.
  intros R U. split; [|repeat split].
  change (read_lines (Message message :: rest) s)
    with (read_lines rest (read_line (Message message) s)).
  unfold read_line. rewrite R, (handle_unreadable message s U).
  apply read_lines_deaf. discriminate.
Qed.

(** What the loop does with an object that answers no pending request. *)
Lemma handle_unmatched (fields : dict json) (s : t) :
  (forall request_id, Dict.get "id" fields = Some (JStr request_id) ->
                      Dict.get request_id (pending_requests s) = None) ->
  unreadable (JObj fields) = false ->
  handle_message (JObj fields) s =
  (match Dict.get "method" fields with
   | Some method => logger (LogNotification method) s
   | None => s
   end, Ok tt).
Proof.
  intros Unknown U. unfold unreadable in U. unfold handle_message, bind, lift.
  cbn [Py.contains Py.getitem]. unfold Dict.mem.
  destruct (Dict.get "id" fields) as [idv|] eqn:G.
  - destruct idv; try discriminate; cbn [pending_has];
      try (destruct (Dict.get "method" fields); reflexivity).
    unfold Dict.mem. rewrite (Unknown s0 eq_refl).
    destruct (Dict.get "method" fields); reflexivity.
  - unfold ret. destruct (Dict.get "method" fields); reflexivity.
Qed.

(** X10. The reader runs, the table is in order, and the line is one from
    which [json.loads] returns an object whose ["id"], if it has one, is not
    a list or an object.  Then the loop goes on: the reader is still running
    after the line and the table is in order, whether the object answers a
    pending request, is a notification, or is neither.  A line on which
    [json.loads] raises is another case of [line]: [JSONDecodeError] is
    logged and the loop goes on, any other exception ends the loop. *)
Theorem reader_survives_objects (fields : dict json) (s : t) :
  table_ok s ->
  reader_task s = Some Running ->
  unreadable (JObj fields) = false ->
  reader_task (read_line (Message (JObj fields)) s) = Some Running /\
  table_ok (read_line (Message (JObj fields)) s) /\
  (forall text, read_line (Malformed text) s = logger LogParseFailure s) /\
  (forall e, read_line (Unloadable e) s = reader_dies e s).
Proof.
  intros T R U.
  split; [|split; [now apply read_line_table_ok|split; intros; unfold read_line; now rewrite R]].
  unfold read_line. rewrite R.
  destruct (Dict.get "id" fields) as [idv|] eqn:G.
  - destruct idv as [| | | |request_id| |];
      try (rewrite handle_unmatched; [|intros r H; congruence|assumption];
           destruct (Dict.get "method" fields); exact R).
    destruct (Dict.get request_id (pending_requests s)) as [fut|] eqn:Gp.
    + rewrite (handle_message_answer (JObj fields) s request_id fut);
        [exact R| |assumption|now apply (table_ok_pending s request_id)].
      cbn [answers]. now rewrite G.
    + rewrite handle_unmatched; [|intros r H; congruence|assumption].
      destruct (Dict.get "method" fields); exact R.
  - rewrite handle_unmatched; [|intros r H; congruence|assumption].
    destruct (Dict.get "method" fields); exact R.
Qed.

(** X11. No line answered a request, neither before its timer fired nor
    before the caller ran its [except] clause: [_send_request] returned the
    timeout error.  The response arrives after that return.  The reader
    finds no entry under its id and, the response having no ["method"],
    drops it: the session is exactly as it was, nothing is logged. *)
Theorem late_response_is_dropped (method : string) (params : json) (x : exchange)
    (response : json) (s : t) :
  table_ok s ->
  process s <> None ->
  never_answered x ->
  answers (Message response) = Some (request_id x) ->
  Py.contains "method" response = Ok false ->
  snd (_send_request method params x s) = Ok (timeout_error s) /\
  read_line (Message response) (fst (_send_request method params x s))
  = fst (_send_request method params x s).
Proof.
  intros T P (Drain & Quiet) A NoMethod.
  destruct (send_request_unanswered method params x s T P Drain Quiet) as (s' & E & G & T').
  rewrite E. cbn [fst snd]. split; [reflexivity|].
  unfold read_line. destruct (reader_task s') as [[| |]|]; try reflexivity.
  destruct response as [| | | | | |fields]; try discriminate.
  cbn [answers] in A. destruct (Dict.get "id" fields) as [[| | | |request_id'| |]|] eqn:Gi;
    try discriminate.
  injection A as ->.
  rewrite handle_unmatched.
  - cbn [Py.contains] in NoMethod. unfold Dict.mem in NoMethod.
    now destruct (Dict.get "method" fields).
  - intros r H. rewrite Gi in H. now injection H as <-.
  - unfold unreadable. now rewrite Gi.
Qed.

End Lines.

(** * Calls in flight: delivery, wake-up, stop *)

Section Delivery.
Context {B : Builtins}.
Import MCPServer.

Lemma other_call_other_future (c c' : Loop.call) (before after : list Loop.call) :
  NoDup (map Loop.call_future (before ++ c :: after)) ->
  In c' (before ++ c :: after) -> c' <> c ->
  In c' (before ++ after) /\ Loop.call_future c' <> Loop.call_future c.
Proof.
  intros N I D.
  assert (I' : In c' (before ++ after)).
  { apply in_app_or in I as [I|[I|I]]; [|congruence|]; apply in_or_app; tauto. }
  split; [assumption|]. intros E.
  rewrite map_app in N. cbn [map] in N. apply NoDup_remove_2 in N.
  apply N. rewrite <- map_app, <- E. now apply in_map.
Qed.

(** X12. Several calls wait on one session and the reader runs.  A line
    arrives that carries the id of one of them, whose future is pending.
    That call, when it wakes, returns exactly this message, and its entry is
    gone from the table; every other waiting call is still waiting, its
    future as it was. *)
Theorem response_reaches_its_call (c : Loop.call) (response : json) (w : Loop.t) :
  Loop.ok w ->
  Loop.registered w ->
  In c (Loop.waiting w) ->
  future_state (Loop.call_future c) (Loop.session w) = FPending ->
  reader_task (Loop.session w) = Some Running ->
  answers (Message response) = Some (Loop.call_id c) ->
  exists w',
    Loop.run [Loop.Line (Message response); Loop.Wake (Loop.call_future c)] w
    = (w', [Loop.Suspended; Loop.Returned response]) /\
    Dict.get (Loop.call_id c) (pending_requests (Loop.session w')) = None /\
    forall c', In c' (Loop.waiting w) -> c' <> c ->
      In c' (Loop.waiting w') /\
      future_state (Loop.call_future c') (Loop.session w')
      = future_state (Loop.call_future c') (Loop.session w).
Proof.
  intros (T & N & Own) Reg I F R A.
  pose proof (Reg c I F) as G.
  destruct (take_spec c (Loop.waiting w) N I) as (before & after & Ew & Et).
  cbn [Loop.run Loop.step Loop.session Loop.waiting].
  unfold read_line. rewrite R.
  rewrite (handle_message_answer response (Loop.session w) (Loop.call_id c)
             (Loop.call_future c) A G F).
  set (s1 := set_futures _ _).
  assert (F1 : future_state (Loop.call_future c) s1 = FResult response).
  { unfold future_state, s1. cbn [futures set_futures].
    apply nth_replace_nth_same. now apply pending_in_range. }
  rewrite Et. unfold await_response. cbn [wait_for]. rewrite F1.
  eexists. split; [reflexivity|]. cbn [Loop.session Loop.waiting]. split.
  - unfold s1. cbn [pending_requests set_futures set_pending_requests].
    apply DictFacts.get_remove_same. apply T.
  - intros c' I' D. rewrite Ew in I', N.
    destruct (other_call_other_future c c' before after N I' D) as [I2 D2].
    split; [assumption|].
    unfold future_state, s1. cbn [futures set_futures].
    apply nth_replace_nth_other. congruence.
Qed.

(** X13. Calls start under ids that are new, lines arrive, timers fire,
    callers are resumed and [stop] runs, in any order.  A call that is
    suspended afterwards returns when it is resumed, with its response or
    with the timeout error, if its future is not cancelled or its entry is
    still in the table.  If its future is cancelled and its entry is gone
    (the reader took its answer after the timer had fired), the [del] of the
    [except] clause raises [KeyError] with the call's id. *)
Theorem resumed_call_outcome (events : list Loop.event) (c : Loop.call) (w : Loop.t) :
  Loop.sound w ->
  Loop.registered w ->
  Loop.own_ids w ->
  Loop.new_ids events w ->
  let w' := fst (Loop.run events w) in
  In c (Loop.waiting w') ->
  (future_state (Loop.call_future c) (Loop.session w') <> FCancelled \/
   Dict.get (Loop.call_id c) (pending_requests (Loop.session w')) <> None ->
   exists response,
     snd (Loop.step (Loop.Wake (Loop.call_future c)) w') = Loop.Returned response) /\
  (future_state (Loop.call_future c) (Loop.session w') = FCancelled ->
   Dict.get (Loop.call_id c) (pending_requests (Loop.session w')) = None ->
   snd (Loop.step (Loop.Wake (Loop.call_future c)) w')
   = Loop.Raised (KeyError (Loop.call_id c))).
Proof.
  intros O Reg Ids New w' I.
  apply wake_returns; [now apply run_sound|now apply run_registered|assumption].
Qed.

(** X14. From a session whose table is in order and on which no call is
    suspended, every run of calls, lines, timer firings, resumptions and
    [stop] leaves the state sound: each id once in the table, each future
    under one id, no future of the table holding a result, no two suspended
    calls on one future, and a future of a suspended call in the table under
    that call's id only.  A cancelled future can be in the table: between
    the firing of its timer and the resumption of its caller. *)
Theorem table_sound_in_every_run (events : list Loop.event) (s : t) :
  table_ok s ->
  Loop.sound (fst (Loop.run events {| Loop.session := s; Loop.waiting := [] |})).
Proof.
  intros T. apply run_sound, ok_sound.
  split; [exact T|]. split; [constructor|]. intros c [].
Qed.

(** X15. A call waits with its future pending when [stop] runs.  [stop]
    cancels the reader but settles no future, so whatever the child writes
    afterwards, the call ends with the timeout error when its timer
    expires. *)
Theorem stop_strands_calls (d : shutdown) (c : Loop.call) (ls : list line) (w : Loop.t) :
  Loop.ok w ->
  Loop.registered w ->
  In c (Loop.waiting w) ->
  future_state (Loop.call_future c) (Loop.session w) = FPending ->
  snd (Loop.run (Loop.Stop d :: map Loop.Line ls ++ [Loop.Wake (Loop.call_future c)]) w)
  = snd (Loop.step (Loop.Stop d) w)
    :: repeat Loop.Suspended (List.length ls)
    ++ [Loop.Returned (timeout_error (Loop.session w))].
Proof.
  intros (T & N & Own) Reg I F.
  pose proof (Reg c I F) as G.
  destruct (take_spec c (Loop.waiting w) N I) as (before & after & Ew & Et).
  cbn [Loop.run].
  assert (E1 : fst (Loop.step (Loop.Stop d) w)
               = {| Loop.session := fst (stop d (Loop.session w));
                    Loop.waiting := Loop.waiting w |}).
  { cbn [Loop.step]. now destruct (stop d (Loop.session w)) as [s1 [[]|e]]. }
  destruct (Loop.step (Loop.Stop d) w) as [w1 o]. cbn [fst snd] in *. subst w1.
  rewrite run_app, run_lines. cbn [fst snd Loop.session Loop.waiting].
  set (s1 := fst (stop d (Loop.session w))).
  rewrite (read_lines_deaf ls s1 (stop_reader d (Loop.session w))).
  destruct (stop_leaves_table d (Loop.session w)) as [Ep Ef]. fold s1 in Ep, Ef.
  assert (F1 : future_state (Loop.call_future c) s1 = FPending).
  { unfold future_state in *. now rewrite Ef. }
  cbn [Loop.run Loop.step Loop.session Loop.waiting]. rewrite Et.
  unfold await_response. cbn [wait_for]. rewrite F1.
  unfold read_lines. cbn [fold_left].
  unfold bind, pending_del. rewrite pending_cancel, Ep, G. unfold modify, gets.
  cbn [snd]. f_equal. f_equal. f_equal. f_equal.
  unfold timeout_error. cbn [timeout logger set_pending_requests].
  assert (Et' : timeout (cancel (Loop.call_future c) s1) = timeout (Loop.session w)).
  { assert (C3 : configured (cancel (Loop.call_future c) s1) = configured s1).
    { unfold cancel. now destruct (future_state _ s1). }
    pose proof (stop_configured d (Loop.session w)) as C. fold s1 in C.
    unfold configured in *. congruence. }
  now rewrite Et'.
Qed.

End Delivery.

(** * The registry: what [start_all] puts in, what [stop_all] takes out *)

Section Lifecycle.
Context {B : Builtins}.
Import MCPManager.

Lemma start_each_keys (entries : list (string * json)) (world : string -> launch) (m : t) :
  Dict.wf entries ->
  (forall name, In name (Dict.keys entries) -> ~ In name (Dict.keys (servers m))) ->
  Dict.keys (servers (fst (start_each entries world m))) =
  Dict.keys (servers m)
  ++ map fst (filter (fun entry => is_ok (build (fst entry) (snd entry) (world (fst entry))))
                     entries).
Proof.
  revert m. induction entries as [|[name server_config] entries IH]; intros m W New.
  - cbn. now rewrite app_nil_r.
  - unfold Dict.wf in W. cbn [Dict.keys map fst] in W. apply NoDup_cons_iff in W as [W0 W].
    rewrite start_each_cons. cbn [filter fst snd].
    destruct (build name server_config (world name)) as [server|e]; cbn [is_ok].
    + rewrite IH; [| exact W |].
      * cbn [servers logger set_servers]. rewrite DictFacts.keys_set.
        unfold Dict.mem.
        assert (G : Dict.get name (servers m) = None).
        { apply DictFacts.get_None. apply New. now left. }
        rewrite G. cbn [map fst]. now rewrite <- app_assoc.
      * intros n I. cbn [servers logger set_servers]. rewrite DictFacts.keys_set.
        unfold Dict.mem.
        assert (G : Dict.get name (servers m) = None).
        { apply DictFacts.get_None. apply New. now left. }
        rewrite G. intros I'. apply in_app_or in I' as [I'|[<-|[]]].
        -- apply (New n); [now right|assumption].
        -- now apply W0.
    + rewrite IH; [reflexivity | exact W |].
      intros n I. apply New. now right.
Qed.

(** X16. A new manager loads a configuration whose [mcpServers] is a
    dict.  After [start_all] the registry holds exactly the entries whose
    session was built and started, in the order of the configuration; an
    entry that failed leaves no trace in it. *)
Theorem start_all_registers_in_order (config : json) (entries : list (string * json))
    (world : string -> launch) (path : string) :
  Py.get config "mcpServers" (JObj []) = Ok (JObj entries) ->
  Dict.wf entries ->
  Dict.keys (servers (fst (start_all (Loaded config) world (init path)))) =
  map fst (filter (fun entry => is_ok (build (fst entry) (snd entry) (world (fst entry))))
                  entries).
Proof.
  intros G W. rewrite (start_all_loaded config entries world (init path) G).
  cbn [fst servers logger]. rewrite (start_each_keys entries world (init path) W).
  - reflexivity.
  - intros name _ [].
Qed.

(** [start_all] when there is no configuration to use. *)
Lemma start_all_unusable (file : config_file) (world : string -> launch) (m : t) :
  match file with
  | Loaded config => forall entries, Py.get config "mcpServers" (JObj []) <> Ok (JObj entries)
  | _ => True
  end ->
  servers (fst (start_all file world m)) = servers m /\
  match file with
  | Unreachable e => start_all file world m = (m, Raise e)
  | _ => exists record, start_all file world m = (logger record m, Ok tt)
  end.
Proof.
  intros H. destruct file as [e| |e|config]; cbn.
  - now split.
  - split; [reflexivity|now eexists].
  - split; [reflexivity|now eexists].
  - unfold catch, bind, lift.
    destruct (Py.get config "mcpServers" (JObj [])) as [mcp_servers|e] eqn:G.
    + destruct mcp_servers; try (split; [reflexivity|now eexists]).
      now contradiction (H fields).
    + split; [reflexivity|now eexists].
Qed.

(** X17. There is no configuration to use.  When the file is missing, it
    cannot be read or parsed, or what it holds under [mcpServers] is not a
    dict (or the document itself is not one), [start_all] returns normally,
    the registry is as it was, and one record is logged.  When the test
    [self.config_path.exists()] itself raises, [start_all] raises that
    exception, with nothing logged and the registry as it was. *)
Theorem start_all_without_configuration (file : config_file) (world : string -> launch) (m : t) :
  match file with
  | Loaded config => forall entries, Py.get config "mcpServers" (JObj []) <> Ok (JObj entries)
  | _ => True
  end ->
  servers (fst (start_all file world m)) = servers m /\
  match file with
  | Unreachable e => start_all file world m = (m, Raise e)
  | _ => exists record, start_all file world m = (logger record m, Ok tt)
  end.
Proof. exact (start_all_unusable file world m). Qed.

Lemma stop_ok (d : shutdown) (s : MCPServer.t) :
  terminate_error d = None -> snd (MCPServer.stop d s) = Ok tt.
Proof.
  intros E. unfold MCPServer.stop, bind, modify. cbn beta iota.
  destruct (MCPServer.process _); [|reflexivity]. rewrite E. reflexivity.
Qed.

Lemma stop_raises (d : shutdown) (s : MCPServer.t) (e : exn) :
  MCPServer.process s <> None -> terminate_error d = Some e ->
  snd (MCPServer.stop d s) = Raise e.
Proof.
  intros P E. unfold MCPServer.stop, bind, modify. cbn beta iota.
  set (s0 := match MCPServer.reader_task s with
             | Some Running => MCPServer.set_reader_task (Some Cancelled) s
             | _ => s
             end).
  assert (P0 : MCPServer.process s0 = MCPServer.process s).
  { unfold s0. now destruct (MCPServer.reader_task s) as [[| |]|]. }
  rewrite P0. destruct (MCPServer.process s); [|contradiction]. now rewrite E.
Qed.

Lemma stop_each_ok (names : list string) (world : string -> shutdown) (m : t) :
  (forall name, In name names -> terminate_error (world name) = None) ->
  snd (stop_each names world m) = Ok tt /\
  Dict.keys (servers (fst (stop_each names world m))) = Dict.keys (servers m).
Proof.
  revert m. induction names as [|name names IH]; intros m H; [now split|].
  cbn [stop_each]. unfold bind.
  destruct (Dict.get name (servers m)) as [server|] eqn:G.
  - pose proof (stop_ok (world name) server (H name (or_introl eq_refl))) as E.
    destruct (MCPServer.stop (world name) server) as [server' r]. cbn [snd] in E. subst r.
    destruct (IH (set_servers (Dict.set name server' (servers m)) m)) as [E1 E2].
    { intros n I. apply H. now right. }
    split; [exact E1|]. rewrite E2. cbn [servers set_servers].
    rewrite DictFacts.keys_set. unfold Dict.mem. now rewrite G.
  - apply IH. intros n I. apply H. now right.
Qed.

(** [stop_all] when no [terminate()] raises. *)
Lemma stop_all_empties (world : string -> shutdown) (m : t) :
  (forall name, In name (Dict.keys (servers m)) -> terminate_error (world name) = None) ->
  snd (stop_all world m) = Ok tt /\ servers (fst (stop_all world m)) = [].
Proof.
  intros H. unfold stop_all, bind, gets, modify.
  destruct (stop_each_ok (Dict.keys (servers m)) world m H) as [E _].
  destruct (stop_each (Dict.keys (servers m)) world m) as [m1 r]. cbn [snd] in E. subst r.
  now split.
Qed.

(** What [call_tool] answers on an empty registry. *)
Lemma call_tool_empty (tool_name : string) (arguments : json) (x : exchange) (m : t) :
  servers m = [] ->
  exists message,
    call_tool tool_name arguments x m =
    (m, Ok (JObj [("error", JStr message); ("isError", JBool true)])).
Proof.
  intros E. destruct (Str.partition "__" tool_name) as [[a b]|] eqn:Ep.
  - rewrite (call_tool_partition _ tool_name a b arguments x Ep), E. cbn. now eexists.
  - rewrite call_tool_without_delimiter; [now eexists|].
    unfold Str.contains. now rewrite Ep.
Qed.


Lemma stop_each_aborts (todo after : list (string * MCPServer.t)) (name : string)
    (server : MCPServer.t) (world : string -> shutdown) (e : exn) (m : t) :
  NoDup (map fst (todo ++ (name, server) :: after)) ->
  (forall k s, In (k, s) (todo ++ (name, server) :: after) ->
               Dict.get k (servers m) = Some s) ->
  (forall k s, In (k, s) todo -> terminate_error (world k) = None) ->
  snd (MCPServer.stop (world name) server) = Raise e ->
  snd (stop_each (map fst (todo ++ (name, server) :: after)) world m) = Raise e /\
  Dict.keys (servers (fst (stop_each (map fst (todo ++ (name, server) :: after)) world m)))
  = Dict.keys (servers m) /\
  forall k s, In (k, s) after ->
    Dict.get k (servers (fst (stop_each (map fst (todo ++ (name, server) :: after)) world m)))
    = Some s.
Proof.
  revert m. induction todo as [|[k0 s0] todo IH]; intros m N L Oks Fails.
  - cbn [app map fst stop_each]. unfold bind.
    rewrite (L name server (or_introl eq_refl)).
    destruct (MCPServer.stop (world name) server) as [server' r]. cbn [snd] in Fails. subst r.
    cbn [fst snd]. split; [reflexivity|]. split.
    + cbn [servers set_servers]. rewrite DictFacts.keys_set. unfold Dict.mem.
      now rewrite (L name server (or_introl eq_refl)).
    + intros k s I. cbn [servers set_servers].
      rewrite DictFacts.get_set_other; [apply L; now right|].
      intros ->. cbn [app map fst] in N. apply NoDup_cons_iff in N as [N0 _].
      apply N0. apply in_map_iff. now exists (k, s).
  - cbn [app map fst stop_each]. unfold bind.
    rewrite (L k0 s0 (or_introl eq_refl)).
    pose proof (stop_ok (world k0) s0 (Oks k0 s0 (or_introl eq_refl))) as E.
    destruct (MCPServer.stop (world k0) s0) as [s0' r]. cbn [snd] in E. subst r.
    cbn [app map fst] in N. apply NoDup_cons_iff in N as [N0 N].
    destruct (IH (set_servers (Dict.set k0 s0' (servers m)) m)) as (E1 & E2 & E3);
      try assumption.
    + intros k s I. cbn [servers set_servers].
      rewrite DictFacts.get_set_other; [apply L; now right|].
      intros ->. apply N0. apply in_map_iff. now exists (k, s).
    + intros k s I. apply (Oks k s). now right.
    + split; [exact E1|]. split; [|exact E3].
      rewrite E2. cbn [servers set_servers]. rewrite DictFacts.keys_set. unfold Dict.mem.
      now rewrite (L k0 s0 (or_introl eq_refl)).
Qed.

(** X19. The registry holds the sessions [before], then a session with a
    process whose [terminate()] raises, then the sessions [after]; no
    [terminate()] of [before] raises.  Then [stop_all] raises that
    exception: the registry is not cleared, and the sessions of [after] are
    in it untouched, none of them stopped. *)
Theorem stop_all_aborts_at_first_failure (before after : list (string * MCPServer.t))
    (name : string) (server : MCPServer.t) (world : string -> shutdown) (e : exn) (m : t) :
  Dict.wf (servers m) ->
  servers m = before ++ (name, server) :: after ->
  (forall k s, In (k, s) before -> terminate_error (world k) = None) ->
  MCPServer.process server <> None ->
  terminate_error (world name) = Some e ->
  snd (stop_all world m) = Raise e /\
  Dict.keys (servers (fst (stop_all world m))) = Dict.keys (servers m) /\
  forall k s, In (k, s) after -> Dict.get k (servers (fst (stop_all world m))) = Some s.
Proof.
  intros W Es Oks P Fails.
  destruct (stop_each_aborts before after name server world e m) as (E1 & E2 & E3);
    try assumption.
  - unfold Dict.wf, Dict.keys in W. now rewrite Es in W.
  - intros k s I. apply DictFacts.In_get; [assumption|]. now rewrite Es.
  - now apply stop_raises.
  - unfold stop_all, bind, gets. unfold Dict.keys at 1 3 5. rewrite Es.
    destruct (stop_each (map fst (before ++ (name, server) :: after)) world m) as [m1 r].
    cbn [fst snd] in *. subst r. cbn [fst snd]. now rewrite <- Es.
Qed.

End Lifecycle.

(** * From the listing back to the session *)

Section RoundTrip.
Context {B : Builtins}.
Import MCPManager.

(** X20. The registry stores every session under its own name, each name
    once.  Take any entry of [get_all_tools]: it names a registered session
    in [mcp_server] and the tool's own name in [original_name], and its
    [name] is the two joined by [__].  When that server name holds no [__]
    and does not end with [_], passing the entry's [name] to [call_tool]
    reaches exactly that session, with the tool's own name. *)
Theorem listed_names_route_back (m : t) (all_tools : list json) (entry : json)
    (arguments : json) (x : exchange) :
  registry_ok m ->
  get_all_tools m = Ok all_tools ->
  In entry all_tools ->
  exists key server original,
    In (key, server) (servers m) /\
    qualified_name entry = Some (JStr (key ++ "__" ++ py_format original)) /\
    Py.getitem entry "mcp_server" = Ok (JStr key) /\
    Py.getitem entry "original_name" = Ok original /\
    (separable key = true ->
     call_tool (key ++ "__" ++ py_format original) arguments x m =
     (set_servers
        (Dict.set key (fst (MCPServer.call_tool (py_format original) arguments x server))
           (servers m)) m,
      snd (MCPServer.call_tool (py_format original) arguments x server))).
Proof.
  intros (W & Names) G I. unfold get_all_tools in G.
  destruct (extend_all_In _ _ _ _ G I) as [[]|(server & tool & Is & Ep)].
  unfold Dict.values in Is. apply in_map_iff in Is as ([key server'] & Es & Is).
  cbn [snd] in Es. subst server'.
  pose proof (Names key server Is) as En.
  destruct (prefix_tool_fields _ _ _ Ep) as (original & Q & Ms & On & _).
  rewrite En in Q, Ms.
  exists key, server, original. split; [assumption|]. split; [assumption|].
  split; [assumption|]. split; [assumption|].
  intros Sep.
  rewrite (call_tool_partition m _ key (py_format original) arguments x
             (NameFacts.partition_separable key (py_format original) Sep)).
  now rewrite (DictFacts.In_get _ _ _ _ W Is).
Qed.

End RoundTrip.

(** * The stderr task *)

Section Stderr.
Import MCPServer.

Lemma stderr_loop_texts (server : string) (texts : list string) (rest : list stderr_line) :
  stderr_loop server (map ErrText texts ++ rest) =
  map (LogStderr server) (filter (fun text => negb (String.eqb text "")) texts)
  ++ stderr_loop server rest.
Proof.
  induction texts as [|text texts IH]; [reflexivity|].
  cbn [map app stderr_loop filter]. rewrite IH.
  now destruct (String.eqb text "").
Qed.

(** X21. The children's stderr: the task logs one warning for every line
    whose stripped text is not empty, in order, up to the end of the stream
    or to the first line that is not UTF-8.  Such a line ends the task with
    one error record; what the child writes to stderr afterwards is not
    logged.  A session without a process logs nothing. *)
Theorem read_stderr_logs_nonblank (texts : list string) (rest : list stderr_line) (s : t) :
  let warnings :=
    map (LogStderr (name s)) (filter (fun text => negb (String.eqb text "")) texts) in
  match process s with
  | Some _ =>
      _read_stderr (map ErrText texts ++ ErrEof :: rest) s = warnings /\
      _read_stderr (map ErrText texts ++ ErrUndecodable :: rest) s
      = warnings ++ [LogStderrError (name s) UnicodeDecodeError]
  | None => _read_stderr (map ErrText texts ++ rest) s = []
  end.
Proof.
  cbv zeta. unfold _read_stderr. destruct (process s); [|reflexivity].
  rewrite !stderr_loop_texts. cbn [stderr_loop]. now rewrite app_nil_r.
Qed.

End Stderr.

(** * The endpoints and the lifecycle hooks of [main.py] *)

Section Endpoints.
Context {B : Builtins}.
Variable str : exn -> string.
Import Main.

(** X22. What [POST /api/mcp-call] answers.  Without a manager: HTTP 500.
    A name without [__], and a name whose part before the first [__] is not
    a registered server: a body, with status 200, that carries the error
    and [isError].  Otherwise what the session's [call_tool] returns is the
    body, and what it raises becomes HTTP 500 with the exception's text. *)
Theorem call_mcp_tool_response (tool_name : string) (arguments : json) (x : exchange) (a : t) :
  snd (call_mcp_tool str tool_name arguments x a) =
  match mcp_manager a with
  | None => HTTPException 500 "MCP manager not initialized"
  | Some m =>
      match Str.partition "__" tool_name with
      | None => Body (MCPManager.invalid_tool_name tool_name)
      | Some (server_name, original_tool_name) =>
          match Dict.get server_name (MCPManager.servers m) with
          | None => Body (MCPManager.server_not_found server_name)
          | Some server =>
              match snd (MCPServer.call_tool original_tool_name arguments x server) with
              | Ok result => Body result
              | Raise e => HTTPException 500 ("Failed to call MCP tool: " ++ str e)
              end
          end
      end
  end.
Proof.
  unfold call_mcp_tool. destruct (mcp_manager a) as [m|]; [|reflexivity].
  destruct (Str.partition "__" tool_name) as [[server_name original]|] eqn:Ep.
  - rewrite (call_tool_partition m tool_name server_name original arguments x Ep).
    destruct (Dict.get server_name (MCPManager.servers m)) as [server|]; [|reflexivity].
    now destruct (snd (MCPServer.call_tool original arguments x server)).
  - rewrite call_tool_without_delimiter; [reflexivity|].
    unfold Str.contains. now rewrite Ep.
Qed.

(** X23. Every registered session holds a catalogue of tools with a name.
    Then [GET /api/mcp-tools] answers with a body: the tools of all
    sessions, session by session in registry order, each named
    [<server>__<tool>]; the application state is unchanged. *)
Theorem get_mcp_tools_lists_catalogues (a : t) (m : MCPManager.t) :
  mcp_manager a = Some m ->
  Forall (fun server => catalogue server <> None) (Dict.values (MCPManager.servers m)) ->
  exists tools,
    get_mcp_tools str a = (a, Body (JObj [("tools", JArr tools)])) /\
    map qualified_name tools = names_of (Dict.values (MCPManager.servers m)).
Proof.
  intros E H. unfold get_mcp_tools, MCPManager.get_all_tools. rewrite E.
  destruct (extend_all_catalogues _ [] H) as (tools & -> & En).
  now exists tools.
Qed.

Lemma extend_all_fails (sessions : list MCPServer.t) (acc : list json)
    (server : MCPServer.t) (e : exn) :
  In server sessions -> MCPServer.get_tools server = Raise e ->
  exists e', MCPManager.extend_all sessions acc = Raise e'.
Proof.
  revert acc. induction sessions as [|s0 sessions IH]; intros acc I G; [contradiction|].
  cbn [MCPManager.extend_all]. destruct (MCPServer.get_tools s0) as [prefixed|e0] eqn:G0.
  - destruct I as [->|I]; [congruence|]. cbn [rbind]. now apply IH.
  - now exists e0.
Qed.

(** X24. One registered session's catalogue cannot be prefixed: a tool in
    it has no name, or the catalogue is not a list of objects.  Then
    [GET /api/mcp-tools] fails with HTTP 500 for all servers together: no
    tool of any other session is returned. *)
Theorem get_mcp_tools_fails_as_a_whole (a : t) (m : MCPManager.t) (key : string)
    (server : MCPServer.t) (e : exn) :
  mcp_manager a = Some m ->
  In (key, server) (MCPManager.servers m) ->
  MCPServer.get_tools server = Raise e ->
  exists e',
    snd (get_mcp_tools str a) = HTTPException 500 ("Failed to get MCP tools: " ++ str e').
Proof.
  intros E I G. unfold get_mcp_tools, MCPManager.get_all_tools. rewrite E.
  destruct (extend_all_fails (Dict.values (MCPManager.servers m)) [] server e) as (e' & ->).
  - unfold Dict.values. apply in_map_iff. now exists (key, server).
  - assumption.
  - now exists e'.
Qed.

(** X25. [startup_event] binds a manager whose registry stores every
    session under its own name, whatever the configuration file and the
    children do.  It returns normally, except when the test
    [self.config_path.exists()] raises: that exception leaves
    [startup_event], which has no [try], with the manager bound and empty.
    When there is no configuration to use, [GET /api/mcp-tools] answers
    with an empty list. *)
Theorem startup_event_binds_manager (MCP_CONFIG_FILE : string) (file : config_file)
    (world : string -> launch) (a : t) :
  let a' := fst (startup_event MCP_CONFIG_FILE file world a) in
  snd (startup_event MCP_CONFIG_FILE file world a)
  = match file with Unreachable e => Raise e | _ => Ok tt end /\
  (exists m, mcp_manager a' = Some m /\ registry_ok m) /\
  (match file with
   | Loaded config => forall entries, Py.get config "mcpServers" (JObj []) <> Ok (JObj entries)
   | _ => True
   end ->
   snd (get_mcp_tools str a') = Body (JObj [("tools", JArr [])])).
Proof.
  cbv zeta. unfold startup_event.
  pose proof (start_all_returns file world (MCPManager.init MCP_CONFIG_FILE)) as R.
  pose proof (start_all_registry_ok file world (MCPManager.init MCP_CONFIG_FILE)
                (init_registry_ok MCP_CONFIG_FILE)) as O.
  pose proof (start_all_unusable file world (MCPManager.init MCP_CONFIG_FILE)) as U.
  destruct (MCPManager.start_all file world (MCPManager.init MCP_CONFIG_FILE)) as [m r].
  cbn [fst snd] in *. split; [assumption|]. split; [now exists m|].
  intros H. destruct (U H) as (Es & _).
  unfold get_mcp_tools, MCPManager.get_all_tools. cbn [mcp_manager set_mcp_manager].
  now rewrite Es.
Qed.


End Endpoints.

(** * Content entries that are not objects *)

Section BareEntries.
Context {B : Builtins}.
Import MCPServer.

Lemma scan_content_bare (good rest text_parts images : list json) (bad : json) :
  Forall (fun item => exists fields, item = JObj fields) good ->
  (forall fields, bad <> JObj fields) ->
  scan_content (good ++ bad :: rest) text_parts images = Raise AttributeError.
Proof.
  intros G Bad. revert text_parts images.
  induction G as [|item good [fields ->] G IH]; intros text_parts images.
  - cbn [app scan_content]. destruct bad; try reflexivity. now contradiction (Bad fields).
  - cbn [app scan_content Py.get rbind].
    destruct (Dict.get "type" fields) as [kind|]; cbn [rbind].
    + destruct (Py.eq_str kind "text").
      * destruct (Dict.get "text" fields); cbn [rbind]; apply IH.
      * destruct (Py.eq_str kind "image"); [|apply IH].
        destruct (Dict.get "data" fields); cbn [rbind];
          destruct (Dict.get "mimeType" fields); cbn [rbind]; apply IH.
    + cbn [Py.eq_str]. apply IH.
Qed.

(** X27. The child answers a [tools/call] with a result whose content
    list holds, after entries that are objects, an entry that is not one (a
    bare string, a number, a list).  Then [call_tool] raises
    [AttributeError]: no payload is returned, whatever the other entries
    are. *)
Theorem call_tool_rejects_bare_entries (tool_name : string) (arguments : json)
    (x : exchange) (s s' : t) (response result : json) (good rest : list json) (bad : json) :
  _send_request "tools/call" (JObj [("name", JStr tool_name); ("arguments", arguments)]) x s
  = (s', Ok response) ->
  Py.contains "error" response = Ok false ->
  Py.get response "result" (JObj []) = Ok result ->
  Py.get result "content" (JArr []) = Ok (JArr (good ++ bad :: rest)) ->
  Forall (fun item => exists fields, item = JObj fields) good ->
  (forall fields, bad <> JObj fields) ->
  call_tool tool_name arguments x s = (s', Raise AttributeError).
Proof.
  intros E C G1 G2 Good Bad. rewrite (call_tool_response _ _ _ _ _ _ E), C.
  cbn [rbind]. unfold call_result. rewrite G1. cbn [rbind]. rewrite G2.
  cbn [rbind Py.iter]. now rewrite (scan_content_bare good rest [] [] bad Good Bad).
Qed.

End BareEntries.

(** * What [get_tools] passes on unchanged *)

Section PassedOn.
Context {B : Builtins}.
Import MCPServer.

Lemma prefix_tool_keeps (server : string) (tool entry : json) (key : string) :
  prefix_tool server tool = Ok entry ->
  key <> "name" -> key <> "mcp_server" -> key <> "original_name" ->
  Py.getitem entry key = Py.getitem tool key.
Proof.
  intros E N1 N2 N3. unfold prefix_tool in E.
  destruct tool as [| | | | | |d]; try discriminate.
  cbn [Py.copy Py.getitem rbind] in E.
  destruct (Dict.get "name" d) as [original|]; [|discriminate].
  cbn [rbind Py.setitem] in E. injection E as <-.
  cbn [Py.getitem].
  now rewrite !DictFacts.get_set_other by congruence.
Qed.

Lemma prefix_tools_keep (server : string) (listed entries : list json) :
  prefix_tools server listed = Ok entries ->
  Forall2 (fun tool entry =>
             forall key, key <> "name" -> key <> "mcp_server" -> key <> "original_name" ->
                         Py.getitem entry key = Py.getitem tool key)
          listed entries.
Proof.
  revert entries. induction listed as [|tool listed IH]; intros entries E.
  - injection E as <-. constructor.
  - cbn [prefix_tools] in E.
    destruct (prefix_tool server tool) as [entry|] eqn:Et; [|discriminate].
    cbn [rbind] in E.
    destruct (prefix_tools server listed) as [rest|]; [|discriminate].
    injection E as <-. constructor; [|now apply IH].
    intros key. now apply (prefix_tool_keeps server).
Qed.

(** X28. [get_tools] returns one entry for every tool of the catalogue, in
    order, and an entry differs from its tool in the three keys [name],
    [mcp_server] and [original_name] only: the description, the input
    schema and whatever else the child declared are passed on as sent. *)
Theorem get_tools_passes_fields_on (s : t) (entries : list json) :
  get_tools s = Ok entries ->
  exists listed,
    Py.iter (tools s) = Ok listed /\
    Forall2 (fun tool entry =>
               forall key, key <> "name" -> key <> "mcp_server" -> key <> "original_name" ->
                           Py.getitem entry key = Py.getitem tool key)
            listed entries.
Proof.
  unfold get_tools. intros E.
  destruct (Py.iter (tools s)) as [listed|]; [|discriminate].
  exists listed. split; [reflexivity|]. now apply (prefix_tools_keep (name s)).
Qed.

End PassedOn.

(** * What the manager's operations keep of the registry *)

Section Kept.
Context {B : Builtins}.
Import MCPManager.

(** X29. A registry in which every name occurs once and every session is
    stored under its own name stays so under [start_all], [call_tool] and
    [stop_all], whatever the configuration, the children and the calls
    do. *)
Theorem registry_stays_in_order (m : t) :
  registry_ok m ->
  (forall file world, registry_ok (fst (start_all file world m))) /\
  (forall tool_name arguments x, registry_ok (fst (call_tool tool_name arguments x m))) /\
  (forall world, registry_ok (fst (stop_all world m))).
Proof.
  intros O. split; [|split].
  - intros file world. now apply start_all_registry_ok.
  - intros tool_name arguments x. now apply call_tool_registry_ok.
  - intros world. now apply stop_all_registry_ok.
Qed.

(** X30. [call_tool] touches one session at most: the registry has the
    same names in the same order afterwards, and a session that is not the
    same as before is the one named by the part of the tool name before its
    first [__]. *)
Theorem call_tool_touches_one_session (tool_name : string) (arguments : json)
    (x : exchange) (m : t) :
  Dict.keys (servers (fst (call_tool tool_name arguments x m))) = Dict.keys (servers m) /\
  forall key,
    Dict.get key (servers (fst (call_tool tool_name arguments x m)))
    <> Dict.get key (servers m) ->
    exists original_tool_name,
      Str.partition "__" tool_name = Some (key, original_tool_name).
Proof.
  destruct (Str.partition "__" tool_name) as [[a b]|] eqn:Ep.
  - rewrite (call_tool_partition m tool_name a b arguments x Ep).
    destruct (Dict.get a (servers m)) as [server|] eqn:G; cbn [fst servers set_servers].
    + split.
      * rewrite DictFacts.keys_set. unfold Dict.mem. now rewrite G.
      * intros key D. exists b. f_equal. f_equal.
        destruct (String.eqb a key) eqn:E; [now apply String.eqb_eq in E|].
        apply String.eqb_neq in E. contradiction D.
        now apply DictFacts.get_set_other.
    + split; [reflexivity|]. intros key D. now contradiction D.
  - rewrite call_tool_without_delimiter; [|unfold Str.contains; now rewrite Ep].
    split; [reflexivity|]. intros key D. now contradiction D.
Qed.

End Kept.

(** * The statements above on concrete sessions and registries *)

Lemma created_table_ok (name command : string) : table_ok (Demo.created name command).
Proof. apply init_table_ok. Qed.

Lemma in_flight_ok : Loop.ok Demo.in_flight /\ Loop.registered Demo.in_flight.
Proof.
  split; [split; [|split]|].
  - split; [|split].
    + unfold Dict.wf. cbn. repeat constructor; cbn; intuition discriminate.
    + cbn. repeat constructor; cbn; intuition discriminate.
    + intros r f [E|[E|[]]]; injection E as <- <-; reflexivity.
  - cbn. repeat constructor; cbn; intuition discriminate.
  - intros c [<-|[<-|[]]]; (split; [discriminate|]);
      intros r [E|[E|[]]]; injection E as <-; try reflexivity; discriminate.
  - intros c [<-|[<-|[]]] _; reflexivity.
Qed.

Lemma registry_AB_ok : registry_ok Demo.registry_AB.
Proof.
  split.
  - unfold Dict.wf. cbn. repeat constructor. intros [].
  - intros key server [E|[]]. now injection E as <- <-.
Qed.

Lemma send_request_answered_witness :
  exists s',
    MCPServer._send_request "tools/call" (JObj [("name", JStr "x"); ("arguments", JObj [])])
      (Demo.answered "9566c74d" [Malformed "Server listening on stdio"]
         (Demo.response "9566c74d" Demo.hello))
      (Demo.started "A" "node" ["x"])
    = (s', Ok (Demo.response "9566c74d" Demo.hello)) /\
    MCPServer.pending_requests s' = [].
Proof.
  destruct (send_request_answered "tools/call"
              (JObj [("name", JStr "x"); ("arguments", JObj [])])
              (Demo.answered "9566c74d" [Malformed "Server listening on stdio"]
                 (Demo.response "9566c74d" Demo.hello))
              (Demo.response "9566c74d" Demo.hello)
              (Demo.started "A" "node" ["x"]))
    as (s' & E & Ep & _).
  - apply started_table_ok.
  - discriminate.
  - reflexivity.
  - reflexivity.
  - split; [reflexivity|]. split; [reflexivity|].
    exists [Malformed "Server listening on stdio"], []. split; [reflexivity|].
    repeat constructor. now eexists.
  - exists s'. now split.
Defined.

Lemma start_fails_at_initialize_witness :
  exists s',
    MCPServer.start Demo.silent (Demo.created "A" "node")
    = (s', Raise (Exception
             "Initialize failed: {'code': -1, 'message': 'Request timeout after 120.0s'}")) /\
    alive s'.
Proof.
  destruct (start_fails_at_initialize Demo.silent (Demo.created "A" "node")
              (JObj [("code", JInt (-1));
                     ("message", JStr "Request timeout after 120.0s")]))
    as (s' & E & P & _).
  - apply created_table_ok.
  - reflexivity.
  - left. split; [|reflexivity]. split; [reflexivity|]. intros l [].
  - exists s'. split; [exact E|]. eexists. split; [exact P|]. now split.
Defined.

Lemma start_without_catalogue_witness :
  exists s',
    MCPServer.start Demo.listless (Demo.created "A" "node") = (s', Ok tt) /\
    MCPServer.get_tools s' = Ok [].
Proof.
  destruct (start_without_catalogue Demo.listless (Demo.created "A" "node")
              (Demo.response "52fdfc07" Demo.server_info)
              (JObj [("code", JInt (-1));
                     ("message", JStr "Request timeout after 120.0s")]))
    as (s' & E & Et & _).
  - apply created_table_ok.
  - reflexivity.
  - reflexivity.
  - split; [reflexivity|]. split; [reflexivity|]. exists [], []. split; [reflexivity|constructor].
  - reflexivity.
  - reflexivity.
  - left. split; [|reflexivity]. split; [reflexivity|]. intros l [].
  - exists s'. split; [exact E|]. unfold MCPServer.get_tools. now rewrite Et.
Defined.

Lemma start_handshake_witness :
  exists s',
    MCPServer.start (Demo.serving ["x"]) (Demo.created "A" "node") = (s', Ok tt) /\
    MCPServer.tools s' = JArr [Demo.tool "x"] /\
    MCPServer.pending_requests s' = [].
Proof.
  destruct (start_handshake (Demo.serving ["x"]) (Demo.created "A" "node")
              (Demo.response "52fdfc07" Demo.server_info)
              (Demo.response "2182654f" (Demo.listed ["x"]))
              (Demo.listed ["x"]) [Demo.tool "x"])
    as (s' & E & Et & _ & Ep & _).
  - apply created_table_ok.
  - reflexivity.
  - reflexivity.
  - reflexivity.
  - split; [reflexivity|]. split; [reflexivity|]. exists [], []. split; [reflexivity|constructor].
  - reflexivity.
  - reflexivity.
  - split; [reflexivity|]. split; [reflexivity|]. exists [], []. split; [reflexivity|constructor].
  - reflexivity.
  - reflexivity.
  - reflexivity.
  - exists s'. split; [exact E|]. split; [exact Et|exact Ep].
Defined.

Lemma call_without_reader_witness :
  snd (MCPServer.call_tool "x" (JObj [])
         (Demo.answered "81855ad8" [] (Demo.response "81855ad8" Demo.hello)) Demo.deaf)
  = Ok (JObj [("error", JStr "Request timeout after 120.0s"); ("isError", JBool true)]).
Proof.
  rewrite (call_without_reader "x" (JObj [])
             (Demo.answered "81855ad8" [] (Demo.response "81855ad8" Demo.hello)) Demo.deaf);
    [reflexivity | discriminate | discriminate].
Defined.

Lemma call_after_stop_witness :
  snd (MCPServer.call_tool "x" (JObj []) (Demo.broken_pipe "9566c74d")
         (fst (MCPServer.stop Demo.graceful (Demo.started "A" "node" ["x"]))))
  = Raise (OSError "Connection lost").
Proof.
  destruct (call_after_stop Demo.graceful "x" (JObj []) (Demo.broken_pipe "9566c74d")
              (Demo.started "A" "node" ["x"])) as (_ & _ & E); [discriminate|].
  exact E.
Defined.

Lemma unreadable_line_ends_reader_witness :
  MCPServer.read_lines [Message (JInt 42); Demo.reply "9566c74d" Demo.hello] Demo.busy
  = MCPServer.reader_dies TypeError Demo.busy.
Proof.
  destruct (unreadable_line_ends_reader (JInt 42) [Demo.reply "9566c74d" Demo.hello] Demo.busy)
    as (E & _); [reflexivity | reflexivity | exact E].
Defined.

Lemma reader_survives_objects_witness :
  MCPServer.reader_task
    (MCPServer.read_line
       (Message (JObj [("jsonrpc", JStr "2.0"); ("id", JInt 7); ("result", JObj [])]))
       Demo.busy)
  = Some Running.
Proof.
  destruct (reader_survives_objects
              [("jsonrpc", JStr "2.0"); ("id", JInt 7); ("result", JObj [])] Demo.busy)
    as (E & _); [apply in_flight_ok | reflexivity | reflexivity | exact E].
Defined.

Lemma late_response_is_dropped_witness :
  MCPServer.read_line (Demo.reply "9566c74d" Demo.hello)
    (fst (MCPServer._send_request "tools/call" (JObj []) (Demo.unanswered "9566c74d")
            (Demo.started "A" "node" ["x"])))
  = fst (MCPServer._send_request "tools/call" (JObj []) (Demo.unanswered "9566c74d")
           (Demo.started "A" "node" ["x"])).
Proof.
  destruct (late_response_is_dropped "tools/call" (JObj []) (Demo.unanswered "9566c74d")
              (Demo.response "9566c74d" Demo.hello) (Demo.started "A" "node" ["x"]))
    as (_ & E).
  - apply started_table_ok.
  - discriminate.
  - split; [reflexivity|]. intros l [].
  - reflexivity.
  - reflexivity.
  - exact E.
Defined.

Lemma response_reaches_its_call_witness :
  exists w',
    Loop.run [Loop.Line (Demo.reply "81855ad8" Demo.hello); Loop.Wake 3] Demo.in_flight
    = (w', [Loop.Suspended; Loop.Returned (Demo.response "81855ad8" Demo.hello)]) /\
    In Demo.first_call (Loop.waiting w').
Proof.
  destruct (response_reaches_its_call Demo.second_call (Demo.response "81855ad8" Demo.hello)
              Demo.in_flight) as (w' & E & _ & Others).
  - apply in_flight_ok.
  - apply in_flight_ok.
  - right. now left.
  - reflexivity.
  - reflexivity.
  - reflexivity.
  - exists w'. split; [exact E|]. apply (Others Demo.first_call); [now left|discriminate].
Defined.

Lemma resumed_call_outcome_witness :
  (exists response,
     snd (Loop.step (Loop.Wake 4)
            (fst (Loop.run [Loop.Call "tools/call" (JObj []) "6325253f" None;
                            Loop.Expire 4;
                            Loop.Line (Demo.reply "9566c74d" Demo.hello)]
                    Demo.in_flight)))
     = Loop.Returned response)
  /\
  snd (Loop.step (Loop.Wake 4)
         (fst (Loop.run [Loop.Call "tools/call" (JObj []) "6325253f" None;
                         Loop.Expire 4;
                         Loop.Line (Demo.reply "6325253f" Demo.hello)]
                 Demo.in_flight)))
  = Loop.Raised (KeyError "6325253f").
Proof.
  pose (c := {| Loop.call_id := "6325253f"; Loop.call_method := "tools/call";
                Loop.call_future := 4 |}).
  assert (Ids : Loop.own_ids Demo.in_flight).
  { unfold Loop.own_ids. cbn. repeat constructor; cbn; intuition discriminate. }
  split.
  - apply (resumed_call_outcome
             [Loop.Call "tools/call" (JObj []) "6325253f" None;
              Loop.Expire 4;
              Loop.Line (Demo.reply "9566c74d" Demo.hello)] c Demo.in_flight
             (ok_sound _ (proj1 in_flight_ok)) (proj2 in_flight_ok) Ids).
    + cbn. repeat split. intuition discriminate.
    + vm_compute. right. right. now left.
    + right. vm_compute. discriminate.
  - apply (resumed_call_outcome
             [Loop.Call "tools/call" (JObj []) "6325253f" None;
              Loop.Expire 4;
              Loop.Line (Demo.reply "6325253f" Demo.hello)] c Demo.in_flight
             (ok_sound _ (proj1 in_flight_ok)) (proj2 in_flight_ok) Ids).
    + cbn. repeat split. intuition discriminate.
    + vm_compute. right. right. now left.
    + vm_compute. reflexivity.
    + vm_compute. reflexivity.
Defined.

Lemma table_sound_in_every_run_witness :
  let w := fst (Loop.run [Loop.Call "tools/call" (JObj []) "9566c74d" None; Loop.Expire 2]
                  {| Loop.session := Demo.started "A" "node" ["x"]; Loop.waiting := [] |}) in
  Loop.sound w /\
  MCPServer.pending_requests (Loop.session w) = [("9566c74d", 2)] /\
  MCPServer.future_state 2 (Loop.session w) = FCancelled.
Proof.
  split; [|split; vm_compute; reflexivity].
  apply (table_sound_in_every_run
           [Loop.Call "tools/call" (JObj []) "9566c74d" None; Loop.Expire 2]
           (Demo.started "A" "node" ["x"])).
  apply started_table_ok.
Defined.

Lemma stop_strands_calls_witness :
  snd (Loop.run [Loop.Stop Demo.graceful; Loop.Line (Demo.reply "9566c74d" Demo.hello);
                 Loop.Wake 2] Demo.in_flight)
  = [Loop.Suspended; Loop.Suspended;
     Loop.Returned (MCPServer.timeout_error Demo.busy)].
Proof.
  exact (stop_strands_calls Demo.graceful Demo.first_call
           [Demo.reply "9566c74d" Demo.hello] Demo.in_flight
           (proj1 in_flight_ok) (proj2 in_flight_ok) (or_introl eq_refl) eq_refl).
Defined.

Lemma start_all_registers_in_order_witness :
  Dict.keys (MCPManager.servers
               (fst (MCPManager.start_all Demo.config_AB Demo.world_AB
                       (MCPManager.init "mcp-config.json"))))
  = ["A"].
Proof.
  unfold Demo.config_AB.
  rewrite (start_all_registers_in_order
             (JObj [("mcpServers", JObj [("B", Demo.entry "nope"); ("A", Demo.entry "node")])])
             [("B", Demo.entry "nope"); ("A", Demo.entry "node")]
             Demo.world_AB "mcp-config.json").
  - vm_compute. reflexivity.
  - reflexivity.
  - unfold Dict.wf. cbn. repeat constructor; cbn; intuition discriminate.
Defined.

Lemma start_all_without_configuration_witness :
  (exists record,
     MCPManager.start_all (Loaded (JObj [("mcpServers", JArr [])])) Demo.world_AB
       Demo.registry_AB
     = (MCPManager.logger record Demo.registry_AB, Ok tt))
  /\
  MCPManager.start_all (Unreachable (OSError "Permission denied")) Demo.world_AB
    Demo.registry_AB
  = (Demo.registry_AB, Raise (OSError "Permission denied")).
Proof.
  split.
  - apply (start_all_without_configuration (Loaded (JObj [("mcpServers", JArr [])]))
             Demo.world_AB Demo.registry_AB).
    intros entries. discriminate.
  - now apply (start_all_without_configuration (Unreachable (OSError "Permission denied"))
                 Demo.world_AB Demo.registry_AB).
Defined.


Lemma stop_all_aborts_at_first_failure_witness :
  snd (MCPManager.stop_all
         (fun name => if String.eqb name "fs" then Demo.gone else Demo.graceful)
         Demo.registry_twins)
  = Raise (OSError "No such process") /\
  Dict.get "git"
    (MCPManager.servers
       (fst (MCPManager.stop_all
               (fun name => if String.eqb name "fs" then Demo.gone else Demo.graceful)
               Demo.registry_twins)))
  = Some (Demo.started "git" "uvx" ["read"; "status"]).
Proof.
  destruct (stop_all_aborts_at_first_failure
              [] [("git", Demo.started "git" "uvx" ["read"; "status"])]
              "fs" (Demo.started "fs" "node" ["read"; "status"])
              (fun name => if String.eqb name "fs" then Demo.gone else Demo.graceful)
              (OSError "No such process") Demo.registry_twins) as (E1 & _ & E3).
  - unfold Dict.wf. cbn. repeat constructor; cbn; intuition discriminate.
  - reflexivity.
  - intros k s [].
  - discriminate.
  - reflexivity.
  - split; [exact E1|]. apply E3. now left.
Defined.

Lemma listed_names_route_back_witness :
  exists key server original,
    In (key, server) (MCPManager.servers Demo.registry_AB) /\
    qualified_name (Demo.listed_tool "A" "y") = Some (JStr (key ++ "__" ++ py_format original)) /\
    Py.getitem (Demo.listed_tool "A" "y") "original_name" = Ok original.
Proof.
  destruct (listed_names_route_back Demo.registry_AB
              [Demo.listed_tool "A" "x"; Demo.listed_tool "A" "y"]
              (Demo.listed_tool "A" "y") (JObj []) (Demo.unanswered "9566c74d"))
    as (key & server & original & I & Q & _ & O & _).
  - apply registry_AB_ok.
  - vm_compute. reflexivity.
  - right. now left.
  - now exists key, server, original.
Defined.

Lemma get_mcp_tools_lists_catalogues_witness :
  exists tools,
    Main.get_mcp_tools Demo.exception_text Demo.app_AB
    = (Demo.app_AB, Body (JObj [("tools", JArr tools)])) /\
    map qualified_name tools = [Some (JStr "A__x"); Some (JStr "A__y")].
Proof.
  destruct (get_mcp_tools_lists_catalogues Demo.exception_text Demo.app_AB Demo.registry_AB)
    as (tools & E & En).
  - reflexivity.
  - repeat constructor. discriminate.
  - exists tools. split; [exact E|exact En].
Defined.

Lemma get_mcp_tools_fails_as_a_whole_witness :
  exists e,
    snd (Main.get_mcp_tools Demo.exception_text Demo.app_nameless)
    = HTTPException 500 ("Failed to get MCP tools: " ++ Demo.exception_text e).
Proof.
  apply (get_mcp_tools_fails_as_a_whole Demo.exception_text Demo.app_nameless
           Demo.registry_nameless "A"
           (MCPServer.set_tools (JArr [JObj [("description", JStr "a tool")]])
              (Demo.started "A" "node" []))
           (KeyError "name")).
  - reflexivity.
  - now left.
  - reflexivity.
Defined.


Lemma call_tool_rejects_bare_entries_witness :
  snd (MCPServer.call_tool "x" (JObj [])
         (Demo.answered "9566c74d" []
            (Demo.response "9566c74d"
               (JObj [("content", JArr [JObj [("type", JStr "text"); ("text", JStr "hello")];
                                        JStr "world"])])))
         (Demo.started "A" "node" ["x"]))
  = Raise AttributeError.
Proof.
  pose (result := JObj [("content", JArr [JObj [("type", JStr "text"); ("text", JStr "hello")];
                                          JStr "world"])]).
  pose (x := Demo.answered "9566c74d" [] (Demo.response "9566c74d" result)).
  pose (s := Demo.started "A" "node" ["x"]).
  pose (sent := MCPServer._send_request "tools/call"
                  (JObj [("name", JStr "x"); ("arguments", JObj [])]) x s).
  rewrite (call_tool_rejects_bare_entries "x" (JObj []) x s (fst sent)
             (Demo.response "9566c74d" result) result
             [JObj [("type", JStr "text"); ("text", JStr "hello")]] [] (JStr "world")).
  - reflexivity.
  - vm_compute. reflexivity.
  - reflexivity.
  - reflexivity.
  - reflexivity.
  - repeat constructor. now eexists.
  - discriminate.
Defined.

Lemma get_tools_passes_fields_on_witness :
  exists listed,
    Py.iter (MCPServer.tools (Demo.started "A" "node" ["x"])) = Ok listed /\
    Forall2 (fun tool entry =>
               forall key, key <> "name" -> key <> "mcp_server" -> key <> "original_name" ->
                           Py.getitem entry key = Py.getitem tool key)
            listed [Demo.listed_tool "A" "x"].
Proof.
  apply (get_tools_passes_fields_on (Demo.started "A" "node" ["x"]) [Demo.listed_tool "A" "x"]).
  vm_compute. reflexivity.
Defined.

Lemma registry_stays_in_order_witness :
  registry_ok (fst (MCPManager.call_tool "A__x" (JObj []) (Demo.unanswered "9566c74d")
                      Demo.registry_AB)).
Proof.
  destruct (registry_stays_in_order Demo.registry_AB registry_AB_ok) as (_ & H & _).
  apply H.
Defined.

